(** * Experiment-summary aggregation: a shallow embedding and its properties

    The development follows three scripts of [experiments/llm-tooling-benchmarks]:

    - [average_statistics.py]: [SUMMARY_PATTERN], [is_number], [read_json],
      [collect_groups], [average_group], [write_summary] (as an effect) and
      [aggregate_directory];
    - [prices.py]: the [PRICES] table;
    - [generate_merge1_plots.py] and [generate_merge_compare_plots.py]:
      [FILENAME_PATTERN], [normalize_model_key], [compute_cost_usd], the loaders
      [load_merge1_summaries] and [load_summaries], [collect_metric_names], and
      which figures [plot_metrics], [plot_for_size] and [main] save with which
      lines.

    Conventions.
    - A Python [str] is a [string]: the sequence of its UTF-8 bytes.  Ordering,
      substring search, splitting at ['.'] or ['/'] and membership of ['_'] and
      line feed are the same on bytes and on code points.
    - [str.strip], [str.lower], the digit class [\d] and [int] follow the
      Unicode tables of the interpreter.  [PlotScripts] takes them as a
      parameter, a [text], and what is proved of it holds for every [text];
      [PyStr], [MergePlots] and [Loaders] are the instance on the ASCII range,
      used where the statement says so or does not depend on them.
    - A Python [float] is a binary64 [PrimFloat.float]; an [int] is a [Z].
    - A Python [dict] is an insertion-ordered association list with unique keys.
    - An exception is a value [Raise e] of the [result] type.  Where a
      function raises itself and also lets exceptions through, the two are
      kept apart as [Own e] and [Propagated e]; the caller sees [e] in both
      cases.
    - The files are a function from paths to what reading them gives, and a
      directory is the list of the names it holds.  The files do not change
      during a run: a summary written into the data directory itself is never
      read back in the same run (shown below).
    - What a function prints, creates or writes is a list of effects, in
      order. *)

From Stdlib Require Import ZArith List String Ascii Bool Arith Lia Permutation Sorted.
From Stdlib Require Import Floats.PrimFloat Floats.SpecFloat Floats.FloatOps.
From Stdlib Require DecimalString.
Import ListNotations.

Set Warnings "-inexact-float".
Local Open Scope string_scope.
Local Open Scope list_scope.

(** ** Exceptions *)

(** [FileNotFoundError] and [NotADirectoryError] are the subclasses of
    [OSError] that [aggregate_directory] and the loaders also raise themselves;
    [OSError] stands for any other one. *)
Inductive exn : Type :=
| OSError
| FileNotFoundError
| NotADirectoryError
| JSONDecodeError
| ValueError
| OverflowError
| AttributeError
| TypeError.

Inductive result (A : Type) : Type :=
| Ok (a : A)
| Raise (e : exn).

Arguments Ok {A} a.
Arguments Raise {A} e.

Definition bind {A B : Type} (m : result A) (k : A -> result B) : result B :=
  match m with
  | Ok a => k a
  | Raise e => Raise e
  end.

Notation "x <- m ;; k" := (bind m (fun x => k))
  (at level 61, m at next level, right associativity).

(** [for x in xs: st = body(st, x)], leaving the loop at the first exception. *)
Fixpoint for_each {S X : Type} (body : S -> X -> result S) (xs : list X) (st : S)
  : result S :=
  match xs with
  | [] => Ok st
  | x :: rest => st' <- body st x ;; for_each body rest st'
  end.

(** ** Python strings *)

Module PyStr.

Definition nl : ascii := "010"%char.
Definition underscore : ascii := "_"%char.

(** [str.isspace] on the ASCII range: TAB, LF, VT, FF, CR, FS, GS, RS, US, SPACE. *)
Definition isspace (c : ascii) : bool :=
  let n := nat_of_ascii c in
  (((9 <=? n) && (n <=? 13)) || ((28 <=? n) && (n <=? 32)))%nat.

Fixpoint lstrip (s : string) : string :=
  match s with
  | EmptyString => EmptyString
  | String c s' => if isspace c then lstrip s' else s
  end.

Fixpoint rstrip (s : string) : string :=
  match s with
  | EmptyString => EmptyString
  | String c s' =>
      match rstrip s' with
      | EmptyString => if isspace c then EmptyString else String c EmptyString
      | t => String c t
      end
  end.

Definition strip (s : string) : string := rstrip (lstrip s).

Definition lower_char (c : ascii) : ascii :=
  let n := nat_of_ascii c in
  if ((65 <=? n) && (n <=? 90))%nat then ascii_of_nat (n + 32) else c.

Fixpoint lower (s : string) : string :=
  match s with
  | EmptyString => EmptyString
  | String c s' => String (lower_char c) (lower s')
  end.

(** [s.split(sep)] for a one-character separator: never the empty list. *)
Fixpoint split (sep : ascii) (s : string) : list string :=
  match s with
  | EmptyString => [EmptyString]
  | String c s' =>
      if Ascii.eqb c sep then EmptyString :: split sep s'
      else match split sep s' with
           | h :: t => String c h :: t
           | [] => [String c EmptyString]
           end
  end.

(** [xs[-1]] on a list of strings that is known not to be empty. *)
Definition last_item (xs : list string) : string := List.last xs EmptyString.

(** [k in s] on strings: [k] occurs as a contiguous substring of [s]. *)
Fixpoint contains (s k : string) : bool :=
  String.prefix k s ||
  match s with
  | EmptyString => false
  | String _ s' => contains s' k
  end.

(** [s.endswith(suffix)]: some tail of [s] is [suffix]. *)
Fixpoint endswith (s suffix : string) : bool :=
  String.eqb s suffix ||
  match s with
  | EmptyString => false
  | String _ s' => endswith s' suffix
  end.

(** [str(n)] for a non-negative [int]. *)
Definition of_nat (n : nat) : string :=
  DecimalString.NilEmpty.string_of_uint (Nat.to_uint n).

End PyStr.

(** ** Python floats *)

Module PyFloat.

(** The binary64 value nearest to the integer [z] (ties to even); an integer
    beyond the range becomes an infinity here. *)
Definition round_int (z : Z) : float :=
  SF2Prim (binary_normalize prec emax z 0 false).

(** [float(z)] for an [int]: CPython raises [OverflowError] where the rounded
    value would not be finite. *)
Definition of_int (z : Z) : result float :=
  let f := round_int z in
  if PrimFloat.is_infinity f then Raise OverflowError else Ok f.

(** [x / n] where [n] is the length of a list or a count bounded by it: the
    integer is below [2^63] on any CPython, so its conversion cannot overflow
    and the rounding conversion is used directly. *)
Definition div_count (x : float) (n : nat) : float :=
  PrimFloat.div x (round_int (Z.of_nat n)).

(** Truth value of a float: false exactly for the two zeros. *)
Definition truthy (x : float) : bool := negb (PrimFloat.eqb x PrimFloat.zero).

(** [x or 0.0]. *)
Definition or_zero (x : float) : float := if truthy x then x else PrimFloat.zero.

(** Exact comparison [int == float], as CPython performs it. *)
Definition eq_int (z : Z) (f : float) : bool :=
  match Prim2SF f with
  | S754_zero _ => Z.eqb z 0
  | S754_finite s m e =>
      let mag := if s then Z.neg m else Z.pos m in
      if (0 <=? e)%Z then Z.eqb z (mag * 2 ^ e)
      else Z.eqb (z * 2 ^ (- e)) mag
  | S754_infinity _ => false
  | S754_nan => false
  end.

End PyFloat.

(** ** Insertion-ordered dictionaries *)

Module PyDict.

Section Dict.
Context {V : Type}.

Definition dict : Type := list (string * V).

Definition empty : dict := [].

(** [d.get(k)]: [None] when the key is absent. *)
Fixpoint get (d : dict) (k : string) : option V :=
  match d with
  | [] => None
  | (k', v) :: rest => if String.eqb k' k then Some v else get rest k
  end.

(** [k in d]. *)
Definition mem (d : dict) (k : string) : bool :=
  match get d k with
  | Some _ => true
  | None => false
  end.

(** [d[k] = v]: an existing key keeps its position, a new key goes last. *)
Fixpoint set (d : dict) (k : string) (v : V) : dict :=
  match d with
  | [] => [(k, v)]
  | (k', v') :: rest =>
      if String.eqb k' k then (k', v) :: rest else (k', v') :: set rest k v
  end.

(** [d.setdefault(k, v)], for its effect on [d]. *)
Definition setdefault (d : dict) (k : string) (v : V) : dict :=
  if mem d k then d else set d k v.

(** Keys and items in iteration order. *)
Definition keys (d : dict) : list string := map fst d.
Definition items (d : dict) : list (string * V) := d.

(** [dict(pairs)]: what [json.load] builds from the members of an object, a
    repeated key keeping its first position and its last value. *)
Definition of_pairs (pairs : list (string * V)) : dict :=
  fold_left (fun d kv => set d (fst kv) (snd kv)) pairs empty.

End Dict.

Arguments dict V : clear implicits.

(** A [defaultdict] read [d[k]] with default [dflt].  The dictionaries read
    this way below are local and only ever read through this function, so the
    insertion a [defaultdict] performs on a miss is not observable. *)
Definition get_default {V : Type} (dflt : V) (d : dict V) (k : string) : V :=
  match get d k with
  | Some v => v
  | None => dflt
  end.

End PyDict.

(** ** average_statistics.py *)

Module AverageStatistics.
Import PyDict.

(** A JSON scalar as [json.load] returns it: [None], [bool], [int], [float]
    (the decoder also accepts [NaN] and the infinities) or [str].  Records are
    flat: arrays and nested objects are outside the data model. *)
Inductive value : Type :=
| VNull
| VBool (b : bool)
| VInt (z : Z)
| VFloat (f : float)
| VStr (s : string).

Definition bool_int (b : bool) : Z := if b then 1%Z else 0%Z.
Definition bool_float (b : bool) : float := if b then PrimFloat.one else PrimFloat.zero.

(** [a == b] on scalars: [bool] is an [int], numbers compare by exact value,
    [NaN] equals nothing, values of unrelated types are unequal. *)
Definition py_eq (a b : value) : bool :=
  match a, b with
  | VNull, VNull => true
  | VBool x, VBool y => Bool.eqb x y
  | VBool x, VInt z | VInt z, VBool x => Z.eqb z (bool_int x)
  | VBool x, VFloat f | VFloat f, VBool x => PrimFloat.eqb f (bool_float x)
  | VInt x, VInt y => Z.eqb x y
  | VInt z, VFloat f | VFloat f, VInt z => PyFloat.eq_int z f
  | VFloat x, VFloat y => PrimFloat.eqb x y
  | VStr x, VStr y => String.eqb x y
  | _, _ => false
  end.

(** [a != b]. *)
Definition py_ne (a b : value) : bool := negb (py_eq a b).

(** [float(value)].  Only reached with an [int], a [float] or a [bool]; the
    numeral parsing of [float(str)] is not modelled. *)
Definition py_float (v : value) : result float :=
  match v with
  | VInt z => PyFloat.of_int z
  | VFloat f => Ok f
  | VBool b => Ok (bool_float b)
  | VNull => Raise TypeError
  | VStr _ => Raise ValueError
  end.

(** [isinstance(value, (int, float)) and not isinstance(value, bool) and
    math.isfinite(float(value))], evaluated left to right. *)
Definition is_number (v : value) : result bool :=
  match v with
  | VInt _ | VFloat _ => f <- py_float v ;; Ok (PrimFloat.is_finite f)
  | VBool _ | VNull | VStr _ => Ok false
  end.

(** A path is the list of its components; [path.name] is the last one. *)
Definition Path : Type := list string.
Definition name (p : Path) : string := List.last p EmptyString.

(** What opening and parsing a file gives: an exception, a JSON object (its
    members in file order) or some other JSON document. *)
Inductive document : Type :=
| JObject (members : list (string * value))
| JOther.

Definition filesystem : Type := Path -> result document.

Definition read_json (fs : filesystem) (path : Path) : result (dict value) :=
  data <- fs path ;;
  match data with
  | JObject members => Ok (of_pairs members)
  | JOther => Raise ValueError
  end.

(** *** The pattern [^(?P<prefix>.+)_id[^_]+_summary\.json$] *)

Definition chars := list_ascii_of_string.

(** A literal at the head of [s]: what follows it. *)
Fixpoint literal (lit s : list ascii) : option (list ascii) :=
  match lit, s with
  | [], _ => Some s
  | a :: lit', b :: s' => if Ascii.eqb a b then literal lit' s' else None
  | _ :: _, [] => None
  end.

(** [[^_]+] followed by a literal underscore can only stop at the first
    underscore: the longest underscore-free head of [s], and the rest. *)
Fixpoint token (s : list ascii) : list ascii * list ascii :=
  match s with
  | [] => ([], [])
  | c :: s' =>
      if Ascii.eqb c PyStr.underscore then ([], s)
      else let (t, r) := token s' in (c :: t, r)
  end.

(** [$]: the end of the string, or the line feed that ends it. *)
Definition at_end (s : list ascii) : bool :=
  match s with
  | [] => true
  | [c] => Ascii.eqb c PyStr.nl
  | _ => false
  end.

(** [_id[^_]+_summary\.json$] against the whole of [s]. *)
Definition match_tail (s : list ascii) : bool :=
  match literal (chars "_id") s with
  | None => false
  | Some r =>
      match token r with
      | ([], _) => false
      | (_ :: _, rest) =>
          match literal (chars "_summary.json") rest with
          | Some e => at_end e
          | None => false
          end
      end
  end.

(** What [match_tail] accepts: [_id], a token, [_summary.json] and an end. *)
Definition tail_shape (tok e s : list ascii) : Prop :=
  s = chars "_id" ++ tok ++ chars "_summary.json" ++ e /\
  tok <> [] /\ ~ In PyStr.underscore tok /\ at_end e = true.

Definition underscores (s : list ascii) : nat := count_occ ascii_dec s PyStr.underscore.

(** The number of characters a greedy [.+] takes first: up to a line feed. *)
Fixpoint dot_run (s : list ascii) : nat :=
  match s with
  | [] => 0
  | c :: s' => if Ascii.eqb c PyStr.nl then 0 else S (dot_run s')
  end.

(** Backtracking of [.+]: the longest head of at most [n] characters, and at
    least one, after which the tail of the pattern matches. *)
Fixpoint backtrack (s : list ascii) (n : nat) : option (list ascii) :=
  match n with
  | 0 => None
  | S m => if match_tail (skipn n s) then Some (firstn n s) else backtrack s m
  end.

(** [SUMMARY_PATTERN.match(name)]: the [prefix] group of a match. *)
Definition SUMMARY_PATTERN (file_name : string) : option string :=
  let s := chars file_name in
  option_map string_of_list_ascii (backtrack s (dot_run s)).

(** [data_dir.glob("*.json")] over the names the directory holds, in the order
    the operating system lists them. *)
Definition glob_json (listing : list string) : list string :=
  filter (fun n => PyStr.endswith n ".json") listing.

Definition collect_groups (data_dir : Path) (listing : list string)
  : dict (list Path) :=
  fold_left
    (fun groups file_name =>
       match SUMMARY_PATTERN file_name with
       | Some prefix =>
           set groups prefix (get_default [] groups prefix ++ [data_dir ++ [file_name]])
       | None => groups
       end)
    (glob_json listing) empty.

(** The shape a grouped file name has: [<key>_id<token>_summary.json] with a
    key that is not empty and holds no line feed, and a token that is not
    empty and holds no underscore. *)
Definition summary_shape (key token file_name : string) : Prop :=
  file_name = (key ++ "_id" ++ token ++ "_summary.json")%string /\
  key <> EmptyString /\ ~ In PyStr.nl (chars key) /\
  token <> EmptyString /\ ~ In PyStr.underscore (chars token).

(** [file_name] is in the cohort [prefix] of [groups]. *)
Definition in_cohort (groups : dict (list Path)) (prefix : string) (path : Path) : Prop :=
  exists paths, get groups prefix = Some paths /\ In path paths.

(** *** [sorted(file_list)] *)

(** [p < q] on paths: lexicographic on the components, each compared as a
    string. *)
Definition path_compare : Path -> Path -> comparison := list_compare String.compare.

Definition path_lt (p q : Path) : bool :=
  match path_compare p q with
  | Lt => true
  | _ => false
  end.

(** A stable insertion sort that, like Python's, asks only for [<]. *)
Fixpoint insert (p : Path) (l : list Path) : list Path :=
  match l with
  | [] => [p]
  | q :: rest => if path_lt q p then q :: insert p rest else p :: q :: rest
  end.

Definition sorted (l : list Path) : list Path := fold_right insert [] l.

(** *** Diagnostics *)

(** The three messages [average_group] can append to [warnings]. *)
Inductive diagnostic : Type :=
| Inconsistent (key file_name : string)
| MissingNumeric (key file_name : string)
| Coverage (key : string) (count total : nat).

Definition render (d : diagnostic) : string :=
  match d with
  | Inconsistent key file_name =>
      "Inconsistent non-numeric value for '" ++ key ++ "' in " ++ file_name
        ++ "; using first encountered."
  | MissingNumeric key file_name =>
      "Numeric key '" ++ key ++ "' missing in " ++ file_name ++ "."
  | Coverage key count total =>
      "Key '" ++ key ++ "' appears in " ++ PyStr.of_nat count ++ "/"
        ++ PyStr.of_nat total ++ " files; averaged over available values."
  end.

(** *** [average_group] *)

Record state : Type := mkState {
  sums : dict float;
  counts : dict nat;
  non_numeric : dict value;
  key_order : list string;
  warnings : list diagnostic
}.

Definition initial : state := mkState empty empty empty [] [].

(** [if key not in key_order: key_order.append(key)]. *)
Definition note_key (order : list string) (key : string) : list string :=
  if existsb (String.eqb key) order then order else order ++ [key].

(** The body of [for key, value in data.items()]. *)
Definition visit_item (file_name : string) (st : state) (item : string * value)
  : result state :=
  let (key, v) := item in
  numeric <- is_number v ;;
  if numeric then
    f <- py_float v ;;
    Ok (mkState
          (set (sums st) key (PrimFloat.add (get_default PrimFloat.zero (sums st) key) f))
          (set (counts st) key (get_default 0 (counts st) key + 1))
          (non_numeric st) (key_order st) (warnings st))
  else
    match get (non_numeric st) key with
    | Some first =>
        if py_ne v first
        then Ok (mkState (sums st) (counts st) (non_numeric st) (key_order st)
                   (warnings st ++ [Inconsistent key file_name]))
        else Ok st
    | None =>
        Ok (mkState (sums st) (counts st) (set (non_numeric st) key v)
              (key_order st) (warnings st))
    end.

(** The body of [for key in sums] that closes each file. *)
Definition check_missing (file_name : string) (st : state) (ws : list diagnostic)
  (key : string) : list diagnostic :=
  if Nat.eqb (get_default 0 (counts st) key) 0
  then ws ++ [MissingNumeric key file_name]
  else ws.

(** The body of [for path in sorted(file_list)]. *)
Definition process_file (fs : filesystem) (st : state) (path : Path) : result state :=
  data <- read_json fs path ;;
  let st1 := mkState (sums st) (counts st) (non_numeric st)
               (fold_left note_key (keys data) (key_order st)) (warnings st) in
  st2 <- for_each (visit_item (name path)) (items data) st1 ;;
  Ok (mkState (sums st2) (counts st2) (non_numeric st2) (key_order st2)
        (fold_left (check_missing (name path) st2) (keys (sums st2)) (warnings st2))).

(** The body of [for key in key_order], on the pair ([result], [warnings]). *)
Definition emit_key (total_files : nat) (st : state)
  (acc : dict value * list diagnostic) (key : string)
  : dict value * list diagnostic :=
  let (res, ws) := acc in
  if mem (sums st) key then
    let count := get_default 0 (counts st) key in
    if Nat.eqb count 0 then acc
    else
      let res' :=
        set res key
          (VFloat (PyFloat.div_count (get_default PrimFloat.zero (sums st) key) count)) in
      if negb (Nat.eqb count total_files)
      then (res', ws ++ [Coverage key count total_files])
      else (res', ws)
  else
    match get (non_numeric st) key with
    | Some v => (set res key v, ws)
    | None => acc
    end.

(** The body of [for key, total in sums.items()]. *)
Definition emit_unordered (st : state) (res : dict value) (item : string * float)
  : dict value :=
  let (key, total) := item in
  let count := get_default 0 (counts st) key in
  if negb (mem res key) && negb (Nat.eqb count 0)
  then set res key (VFloat (PyFloat.div_count total count))
  else res.

Definition RUNS : string := "number of runs".

(** Everything after the file loop. *)
Definition finish (total_files : nat) (st : state) : dict value * list diagnostic :=
  let (res, ws) := fold_left (emit_key total_files st) (key_order st) (empty, warnings st) in
  let res' := fold_left (emit_unordered st) (items (sums st)) res in
  (set res' RUNS (VInt (Z.of_nat total_files)), ws).

(** [average_group] with its warnings still structured. *)
Definition average_group_diags (fs : filesystem) (files : list Path)
  : result (dict value * list diagnostic) :=
  match files with
  | [] => Ok (empty, [])
  | _ :: _ =>
      st <- for_each (process_file fs) (sorted files) initial ;;
      Ok (finish (List.length files) st)
  end.

(** [average_group(files)]: the aggregate record and the warning strings. *)
Definition average_group (fs : filesystem) (files : list Path)
  : result (dict value * list string) :=
  out <- average_group_diags fs files ;;
  Ok (fst out, map render (snd out)).

End AverageStatistics.

(** ** prices.py *)

Module Prices.
Import PyDict.

Local Open Scope float_scope.

(** USD per 1,000,000 tokens: (input price, output price), in source order. *)
Definition PRICES : dict (float * float) :=
  [ ("grok-3-fast", (0.3, 0.5));
    ("gpt-5", (1.25, 10.00));
    ("gpt-5-mini", (0.25, 2.00));
    ("gpt-5-nano", (0.05, 0.40));
    ("gpt-5-chat-latest", (1.25, 10.00));
    ("gpt-5-codex", (1.25, 10.00));
    ("gpt-5-pro", (15.00, 120.00));
    ("gpt-4.1", (2.00, 8.00));
    ("gpt-4.1-mini", (0.40, 1.60));
    ("gpt-4.1-nano", (0.10, 0.40));
    ("gpt-4o", (2.50, 10.00));
    ("gpt-4o-2024-05-13", (5.00, 15.00));
    ("gpt-4o-mini", (0.15, 0.60));
    ("gpt-realtime", (4.00, 16.00));
    ("gpt-realtime-mini", (0.60, 2.40));
    ("gpt-4o-realtime-preview", (5.00, 20.00));
    ("gpt-4o-mini-realtime-preview", (0.60, 2.40));
    ("gpt-audio", (2.50, 10.00));
    ("gpt-audio-mini", (0.60, 2.40));
    ("gpt-4o-audio-preview", (2.50, 10.00));
    ("gpt-4o-mini-audio-preview", (0.15, 0.60));
    ("o1", (15.00, 60.00));
    ("o1-pro", (150.00, 600.00));
    ("o3-pro", (20.00, 80.00));
    ("o3", (2.00, 8.00));
    ("o3-deep-research", (10.00, 40.00));
    ("o4-mini", (1.10, 4.40));
    ("o4-mini-deep-research", (2.00, 8.00));
    ("o3-mini", (1.10, 4.40));
    ("o1-mini", (1.10, 4.40));
    ("codex-mini-latest", (1.50, 6.00));
    ("gpt-5-search-api", (1.25, 10.00));
    ("gpt-4o-mini-search-preview", (0.15, 0.60));
    ("gpt-4o-search-preview", (2.50, 10.00));
    ("computer-use-preview", (3.00, 12.00));
    ("gpt-image-1", (5.00, 0.00));
    ("gpt-image-1-mini", (2.00, 0.00)) ].

End Prices.

(** ** generate_merge1_plots.py and generate_merge_compare_plots.py *)

Module MergePlots.
Import PyDict AverageStatistics.

Definition PRICES := Prices.PRICES.

Definition SKIP_KEYS : list string := ["number of runs"].

Definition million : float := 1000000%float.

Definition COST : string := "avg_cost_usd".

(** [for key in PRICES: if key in normalized: return key], then the empty
    string. *)
Fixpoint scan_keys (table_keys : list string) (normalized : string) : string :=
  match table_keys with
  | [] => EmptyString
  | key :: rest =>
      if PyStr.contains normalized key then key else scan_keys rest normalized
  end.

Definition normalize_model_key (model : string) : string :=
  if String.eqb model EmptyString then EmptyString
  else
    let normalized := PyStr.lower (PyStr.strip model) in
    if mem PRICES normalized then normalized
    else
      let tail :=
        PyStr.last_item
          (PyStr.split "/" (PyStr.last_item (PyStr.split "." normalized))) in
      if mem PRICES tail then tail
      else scan_keys (keys PRICES) normalized.

Definition compute_cost_usd (model : string) (avg_input_tokens avg_output_tokens : float)
  : float :=
  let key := normalize_model_key model in
  if String.eqb key EmptyString || negb (mem PRICES key) then PrimFloat.zero
  else
    match get PRICES key with
    | Some (input_price, output_price) =>
        let input_cost :=
          PrimFloat.mul (PyFloat.or_zero avg_input_tokens)
            (PrimFloat.div input_price million) in
        let output_cost :=
          PrimFloat.mul (PyFloat.or_zero avg_output_tokens)
            (PrimFloat.div output_price million) in
        PrimFloat.add input_cost output_cost
    | None => PrimFloat.zero
    end.

(** [isinstance(value, (int, float))]: a [bool] is an [int]. *)
Definition is_int_or_float (v : value) : bool :=
  match v with
  | VInt _ | VFloat _ | VBool _ => true
  | VNull | VStr _ => false
  end.

(** The body of [for key, value in data.items()] that fills [metrics]. *)
Definition collect_metric (metrics : dict float) (item : string * value)
  : result (dict float) :=
  let (key, v) := item in
  if existsb (String.eqb key) SKIP_KEYS then Ok metrics
  else if is_int_or_float v then f <- py_float v ;; Ok (set metrics key f)
  else Ok metrics.

Definition collect_metrics (data : dict value) : result (dict float) :=
  for_each collect_metric (items data) empty.

(** Truth value of a JSON scalar. *)
Definition truthy (v : value) : bool :=
  match v with
  | VNull => false
  | VBool b => b
  | VInt z => negb (Z.eqb z 0)
  | VFloat f => PyFloat.truthy f
  | VStr s => negb (String.eqb s EmptyString)
  end.

(** [data.get("model name") or model], as [compute_cost_usd] can use it: a
    true value that is not a [str] has no [strip] method. *)
Definition model_argument (data : dict value) (model : string) : result string :=
  match get data "model name" with
  | None => Ok model
  | Some v =>
      if truthy v then
        match v with
        | VStr s => Ok s
        | _ => Raise AttributeError
        end
      else Ok model
  end.

(** The cost step: lines 95 to 101 of [load_merge1_summaries], lines 72 to 78
    of [load_summaries]. *)
Definition add_cost (model : string) (data : dict value) (metrics : dict float)
  : result (dict float) :=
  if mem metrics "avg_input_tokens" || mem metrics "avg_output_tokens" then
    name_arg <- model_argument data model ;;
    let cost :=
      compute_cost_usd name_arg
        (get_default PrimFloat.zero metrics "avg_input_tokens")
        (get_default PrimFloat.zero metrics "avg_output_tokens") in
    Ok (setdefault metrics COST cost)
  else Ok metrics.

(** The metrics of one summary file, from its parsed content. *)
Definition file_metrics (model : string) (data : dict value) : result (dict float) :=
  metrics <- collect_metrics data ;;
  add_cost model data metrics.

End MergePlots.

(** ** The vocabulary of the claims about [average_group] *)

Module Cohort.
Import PyDict AverageStatistics.

(** A record of a cohort: the name of its file and its content. *)
Definition record : Type := (string * dict value)%type.

(** [is_number(v)] returns: it raises only for an [int] too large for a float. *)
Definition classified (v : value) : bool :=
  match is_number v with
  | Ok _ => true
  | Raise _ => false
  end.

(** The file at [path] can be read as a JSON object and each of its values
    can be classified. *)
Definition loadable (fs : filesystem) (path : Path) : bool :=
  match read_json fs path with
  | Ok data => forallb (fun kv => classified (snd kv)) (items data)
  | Raise _ => false
  end.

(** The record read from [path]; the empty one when the file does not load. *)
Definition content (fs : filesystem) (path : Path) : dict value :=
  match read_json fs path with
  | Ok data => data
  | Raise _ => empty
  end.

(** The records of a cohort in processing order. *)
Definition records (fs : filesystem) (files : list Path) : list record :=
  map (fun path => (name path, content fs path)) (sorted files).

(** The float a numeric occurrence contributes; [None] for an occurrence that
    is not numeric. *)
Definition numeric_value (v : value) : option float :=
  match is_number v with
  | Ok true =>
      match py_float v with
      | Ok f => Some f
      | Raise _ => None
      end
  | _ => None
  end.

(** The occurrences of a field: file name and value, in processing order. *)
Definition occurrences (key : string) (recs : list record) : list (string * value) :=
  flat_map
    (fun r : record =>
       match get (snd r) key with
       | Some v => [(fst r, v)]
       | None => []
       end)
    recs.

Definition numeric_values (key : string) (recs : list record) : list float :=
  flat_map
    (fun o : string * value =>
       match numeric_value (snd o) with
       | Some f => [f]
       | None => []
       end)
    (occurrences key recs).

Definition non_numeric_occurrences (key : string) (recs : list record)
  : list (string * value) :=
  filter
    (fun o : string * value =>
       match numeric_value (snd o) with
       | Some _ => false
       | None => true
       end)
    (occurrences key recs).

(** The sum of [v1 .. vM] as the loop accumulates it: from [0.0], left to
    right. *)
Definition float_sum (vs : list float) : float :=
  fold_left PrimFloat.add vs PrimFloat.zero.

(** [(v1 + ... + vM) / M]. *)
Definition average (vs : list float) : float :=
  PyFloat.div_count (float_sum vs) (List.length vs).

(** The first non-numeric value of a field. *)
Definition first_seen (key : string) (recs : list record) : option value :=
  match non_numeric_occurrences key recs with
  | [] => None
  | (_, v) :: _ => Some v
  end.

(** One diagnostic for each non-numeric occurrence after the first whose
    value differs from the first. *)
Definition conflicts (key : string) (recs : list record) : list diagnostic :=
  match non_numeric_occurrences key recs with
  | [] => []
  | (_, first) :: later =>
      flat_map
        (fun o : string * value =>
           if py_ne (snd o) first then [Inconsistent key (fst o)] else [])
        later
  end.

(** The consistency diagnostics about [key] among [ws], in order. *)
Definition inconsistencies (key : string) (ws : list diagnostic) : list diagnostic :=
  filter
    (fun d =>
       match d with
       | Inconsistent k _ => String.eqb k key
       | _ => false
       end)
    ws.

(** Every summed key has been counted at least once. *)
Definition counted (st : state) : Prop :=
  forall key, mem (sums st) key = true -> 1 <= get_default 0 (counts st) key.

(** A diagnostic is not the "Numeric key ... missing" one. *)
Definition not_missing (d : diagnostic) : Prop :=
  match d with
  | MissingNumeric _ _ => False
  | _ => True
  end.

(** What [for key in key_order] stores under [key], if anything. *)
Definition emitted (st : state) (key : string) : option value :=
  if mem (sums st) key then
    let count := get_default 0 (counts st) key in
    if Nat.eqb count 0 then None
    else Some (VFloat (PyFloat.div_count (get_default PrimFloat.zero (sums st) key) count))
  else get (non_numeric st) key.

(** The coverage diagnostic that loop appends for [key], if any. *)
Definition coverage (total_files : nat) (st : state) (key : string) : list diagnostic :=
  if mem (sums st) key then
    let count := get_default 0 (counts st) key in
    if Nat.eqb count 0 || Nat.eqb count total_files then []
    else [Coverage key count total_files]
  else [].

(** The opening words of the "missing" warning. *)
Definition MISSING_PREFIX : string := "Numeric key '".

(** A diagnostic of the file loop in a counted state: a consistency one. *)
Definition consistency_only (d : diagnostic) : Prop :=
  match d with
  | Inconsistent _ _ => True
  | _ => False
  end.

(** The coverage diagnostics about [key] among [ws], in order. *)
Definition coverages (key : string) (ws : list diagnostic) : list diagnostic :=
  filter
    (fun d =>
       match d with
       | Coverage k _ _ => String.eqb k key
       | _ => false
       end)
    ws.

(** The per-key state of the loop: sum, count, first-seen value and the
    consistency diagnostics about the key. *)
Definition view : Type :=
  (option float * option nat * option value * list diagnostic)%type.

Definition view_of (key : string) (st : state) : view :=
  (get (sums st) key, get (counts st) key, get (non_numeric st) key,
   inconsistencies key (warnings st)).

Definition or_default {A : Type} (dflt : A) (o : option A) : A :=
  match o with
  | Some a => a
  | None => dflt
  end.

(** The effect on the view of [key] of one occurrence of [key] with value
    [v] in the file [file_name]. *)
Definition view_step (file_name key : string) (v : value) (w : view) : view :=
  let '(s, c, n, ws) := w in
  match numeric_value v with
  | Some f =>
      (Some (PrimFloat.add (or_default PrimFloat.zero s) f),
       Some (or_default 0 c + 1), n, ws)
  | None =>
      match n with
      | Some first =>
          (s, c, n, if py_ne v first then ws ++ [Inconsistent key file_name] else ws)
      | None => (s, c, Some v, ws)
      end
  end.

(** The view of [key] once the records [recs] have been processed. *)
Definition view_after (key : string) (recs : list record) : view :=
  (match numeric_values key recs with
   | [] => None
   | vs => Some (float_sum vs)
   end,
   match numeric_values key recs with
   | [] => None
   | vs => Some (List.length vs)
   end,
   first_seen key recs,
   conflicts key recs).

(** The value the aggregate record holds for a field other than the run
    count: the average of the numeric occurrences when there is one, else the
    first-seen value. *)
Definition expected (key : string) (recs : list record) : option value :=
  match numeric_values key recs with
  | [] => first_seen key recs
  | vs => Some (VFloat (average vs))
  end.

(** Every key with a sum or a first-seen value is in [key_order]. *)
Definition tracked (st : state) : Prop :=
  forall key,
    mem (sums st) key = true \/ mem (non_numeric st) key = true ->
    In key (key_order st).

(** [result[key] = ...] as the loop over [key_order] performs it. *)
Definition store (st : state) (res : dict value) (key : string) : dict value :=
  match emitted st key with
  | Some v => set res key v
  | None => res
  end.

End Cohort.

(** ** More vocabulary: the fields of a cohort *)

Module Fields.
Import PyDict AverageStatistics Cohort.

(** The union of the field names of the records, in first-seen order. *)
Definition field_order (recs : list record) : list string :=
  fold_left (fun order (r : record) => fold_left note_key (keys (snd r)) order) recs [].

(** Some record of the cohort carries the field. *)
Definition carried (key : string) (recs : list record) : Prop :=
  exists r, In r recs /\ mem (snd r) key = true.

Definition is_coverage (d : diagnostic) : Prop :=
  match d with
  | Coverage _ _ _ => True
  | _ => False
  end.

End Fields.

(** ** average_statistics.py: [write_summary] and [aggregate_directory] *)

Module Directory.
Import PyDict AverageStatistics.

(** A listed name belongs to the cohort [prefix]: the glob and the pattern. *)
Definition grouped_under (prefix file_name : string) : bool :=
  PyStr.endswith file_name ".json" &&
  match SUMMARY_PATTERN file_name with
  | Some p => String.eqb p prefix
  | None => false
  end.

(** How [aggregate_directory] can end other than by returning: with an
    exception of one of its own [raise] statements, whose message names the
    data directory, or with one raised by a call it makes.  Both can be of the
    same class: [os.makedirs] and [open] raise [FileNotFoundError] and
    [NotADirectoryError] too. *)
Inductive failure : Type :=
| Own (e : exn)
| Propagated (e : exn).

(** The exception a caller sees. *)
Definition raised (f : failure) : exn :=
  match f with
  | Own e => e
  | Propagated e => e
  end.

(** What the function asks of its surroundings.  [makedirs] and
    [open_for_writing] give the exception of the call, if any.  A name a
    directory holds has no ['/'] in it. *)
Record world : Type := mkWorld {
  exists_ : Path -> bool;
  is_dir : Path -> bool;
  listing : Path -> list string;
  files : filesystem;
  makedirs : Path -> option exn;
  open_for_writing : Path -> option exn
}.

(** The lines printed. *)
Inductive message : Type :=
| NoMatching (data_dir : Path)
| Skipping (prefix : string)
| Wrote (file_name : string) (averaged : nat)
| Warning (text : string).

(** What the function does to its surroundings, in order.  [Written path
    data] is [write_summary(path, data)]: the file at [path] now holds the
    JSON text of [data]. *)
Inductive effect : Type :=
| MadeDirs (path : Path)
| Written (path : Path) (data : dict value)
| Printed (m : message).

(** [a < b] on the items of [groups]: tuples of a key and a list of paths. *)
Definition item_lt (a b : string * list Path) : bool :=
  match String.compare (fst a) (fst b) with
  | Lt => true
  | Eq =>
      match list_compare path_compare (snd a) (snd b) with
      | Lt => true
      | _ => false
      end
  | Gt => false
  end.

Fixpoint insert_item (it : string * list Path) (l : list (string * list Path))
  : list (string * list Path) :=
  match l with
  | [] => [it]
  | x :: rest => if item_lt x it then x :: insert_item it rest else it :: x :: rest
  end.

(** [sorted(groups.items())]. *)
Definition sorted_items (groups : dict (list Path)) : list (string * list Path) :=
  fold_right insert_item [] (items groups).

(** [f"{prefix}_summary.json"]. *)
Definition summary_name (prefix : string) : string := (prefix ++ "_summary.json")%string.

(** The body of [for prefix, files in sorted(groups.items())], from the first
    group on: the effects, and how the loop ended. *)
Fixpoint write_groups (w : world) (summary_dir : Path)
  (groups : list (string * list Path)) : list effect * option failure :=
  match groups with
  | [] => ([], None)
  | (prefix, file_list) :: rest =>
      let output_path := summary_dir ++ [summary_name prefix] in
      match average_group (files w) file_list with
      | Raise e => ([], Some (Propagated e))
      | Ok (averaged, warnings) =>
          match averaged with
          | [] =>
              let (effects, outcome) := write_groups w summary_dir rest in
              (Printed (Skipping prefix) :: effects, outcome)
          | _ :: _ =>
              match open_for_writing w output_path with
              | Some e => ([], Some (Propagated e))
              | None =>
                  let (effects, outcome) := write_groups w summary_dir rest in
                  (Written output_path averaged
                     :: Printed (Wrote (summary_name prefix) (List.length file_list))
                     :: map (fun text => Printed (Warning text)) warnings ++ effects,
                   outcome)
              end
          end
      end
  end.

Definition aggregate_directory (w : world) (data_dir summary_dir : Path)
  : list effect * option failure :=
  if negb (exists_ w data_dir) then ([], Some (Own FileNotFoundError))
  else if negb (is_dir w data_dir) then ([], Some (Own NotADirectoryError))
  else
    match makedirs w summary_dir with
    | Some e => ([], Some (Propagated e))
    | None =>
        let groups := collect_groups data_dir (listing w data_dir) in
        match groups with
        | [] => ([MadeDirs summary_dir; Printed (NoMatching data_dir)], None)
        | _ :: _ =>
            let (effects, outcome) := write_groups w summary_dir (sorted_items groups) in
            (MadeDirs summary_dir :: effects, outcome)
        end
    end.



(** The body of the loop of [collect_groups], on one globbed name. *)
Definition add_to_group (data_dir : Path) (groups : dict (list Path)) (file_name : string)
  : dict (list Path) :=
  match SUMMARY_PATTERN file_name with
  | Some prefix =>
      set groups prefix (get_default [] groups prefix ++ [data_dir ++ [file_name]])
  | None => groups
  end.

(** The pattern puts a name under the key [prefix]. *)
Definition under (prefix file_name : string) : bool :=
  match SUMMARY_PATTERN file_name with
  | Some p => String.eqb p prefix
  | None => false
  end.

(** The order [sorted] puts the groups in: their keys are distinct, so the
    lists of paths are never compared. *)
Definition key_below (a b : string * list Path) : Prop :=
  String.compare (fst a) (fst b) = Lt.

(** The same surroundings with the directories listed differently. *)
Definition relisted (w : world) (listing' : Path -> list string) : world :=
  mkWorld (exists_ w) (is_dir w) listing' (files w) (makedirs w) (open_for_writing w).


End Directory.

(** ** Vocabulary for the metrics of a summary file *)

Module Metrics.
Import PyDict AverageStatistics MergePlots.

(** [key in SKIP_KEYS]. *)
Definition skipped (key : string) : bool := existsb (String.eqb key) SKIP_KEYS.

Definition has_tokens (metrics : dict float) : bool :=
  mem metrics "avg_input_tokens" || mem metrics "avg_output_tokens".

(** The metric a field gives: the float of an [int], [float] or [bool] value
    of a key that is not skipped. *)
Definition metric_of (key : string) (v : value) : option (result float) :=
  if skipped key then None
  else if is_int_or_float v then Some (py_float v) else None.

End Metrics.

(** ** The loaders of the two plot scripts *)

Module Loaders.
Import PyDict AverageStatistics MergePlots Directory.

(** *** The pattern
    [^model_(?P<model>.+)_size(?P<size>\d+)_merge(?P<merge>\d+)_summary\.json$] *)

(** [\d] on the ASCII range. *)
Definition isdigit (c : ascii) : bool :=
  let n := nat_of_ascii c in ((48 <=? n) && (n <=? 57))%nat.

(** [\d+] followed by a literal underscore can only stop where the digits
    stop: the longest run of digits at the head of [s], and the rest. *)
Fixpoint digit_run (s : list ascii) : list ascii * list ascii :=
  match s with
  | [] => ([], [])
  | c :: s' =>
      if isdigit c then let (d, r) := digit_run s' in (c :: d, r)
      else ([], s)
  end.

(** [_size(\d+)_merge(\d+)_summary\.json$] against the whole of [s]: the two
    groups. *)
Definition match_rest (s : list ascii) : option (list ascii * list ascii) :=
  match literal (chars "_size") s with
  | None => None
  | Some r =>
      match digit_run r with
      | ([], _) => None
      | (size, r1) =>
          match literal (chars "_merge") r1 with
          | None => None
          | Some r2 =>
              match digit_run r2 with
              | ([], _) => None
              | (merge, r3) =>
                  match literal (chars "_summary.json") r3 with
                  | Some e => if at_end e then Some (size, merge) else None
                  | None => None
                  end
              end
          end
      end
  end.

(** Backtracking of [.+]: the longest head of at most [n] characters, and at
    least one, after which the rest of the pattern matches. *)
Fixpoint backtrack_model (s : list ascii) (n : nat)
  : option (list ascii * list ascii * list ascii) :=
  match n with
  | 0 => None
  | S m =>
      match match_rest (skipn n s) with
      | Some (size, merge) => Some (firstn n s, size, merge)
      | None => backtrack_model s m
      end
  end.

(** [FILENAME_PATTERN.match(name)]: the groups [model], [size] and [merge] of
    a match. *)
Definition FILENAME_PATTERN (file_name : string) : option (string * string * string) :=
  match literal (chars "model_") (chars file_name) with
  | None => None
  | Some s =>
      match backtrack_model s (dot_run s) with
      | Some (model, size, merge) =>
          Some (string_of_list_ascii model, string_of_list_ascii size,
                string_of_list_ascii merge)
      | None => None
      end
  end.

(** What the pattern accepts after the model: [_size], digits, [_merge],
    digits, [_summary.json] and an end. *)
Definition rest_shape (size merge e s : list ascii) : Prop :=
  s = chars "_size" ++ size ++ chars "_merge" ++ merge ++ chars "_summary.json" ++ e /\
  size <> [] /\ forallb isdigit size = true /\
  merge <> [] /\ forallb isdigit merge = true /\ at_end e = true.

(** [int(text)] on a run of ASCII digits.  The text is part of the name of a
    directory entry, far shorter than the 4300 digits above which [int]
    refuses a string. *)
Definition digit_value (c : ascii) : Z := (Z.of_nat (nat_of_ascii c) - 48)%Z.

Definition int (text : string) : Z :=
  fold_left (fun acc c => (10 * acc + digit_value c)%Z) (chars text) 0%Z.

(** [data_dir.glob("model_*_summary.json")] over the names the directory
    holds, in the order the operating system lists them. *)
Definition glob_matches (file_name : string) : bool :=
  match literal (chars "model_") (chars file_name) with
  | Some r => PyStr.endswith (string_of_list_ascii r) "_summary.json"
  | None => false
  end.

Definition glob_model (listing : list string) : list string :=
  filter glob_matches listing.

(** *** Dictionaries with [int] keys *)

Section IntDict.
Context {V : Type}.

Definition int_dict : Type := list (Z * V).

Fixpoint zget (d : int_dict) (k : Z) : option V :=
  match d with
  | [] => None
  | (k', v) :: rest => if Z.eqb k' k then Some v else zget rest k
  end.

Fixpoint zset (d : int_dict) (k : Z) (v : V) : int_dict :=
  match d with
  | [] => [(k, v)]
  | (k', v') :: rest =>
      if Z.eqb k' k then (k', v) :: rest else (k', v') :: zset rest k v
  end.

End IntDict.

Arguments int_dict V : clear implicits.

(** *** Reading one file *)

(** Lines 82 to 101 of [load_merge1_summaries], 59 to 78 of [load_summaries]:
    a file that is not JSON is reported and passed over, any other failure to
    read it is let through, and a document that is not an object has no
    [items]. *)
Inductive loaded : Type :=
| Unparsable
| Metrics (metrics : dict float).

Definition load_metrics (fs : filesystem) (path : Path) (model : string) : result loaded :=
  match fs path with
  | Raise JSONDecodeError => Ok Unparsable
  | Raise e => Raise e
  | Ok JOther => Raise AttributeError
  | Ok (JObject members) =>
      metrics <- file_metrics model (of_pairs members) ;;
      Ok (Metrics metrics)
  end.

(** *** [load_merge1_summaries] *)

(** [model -> size -> metric -> value]. *)
Definition merge1_results : Type := dict (int_dict (dict float)).

(** [results.setdefault(model, {})[size] = metrics]. *)
Definition store_merge1 (results : merge1_results) (model : string) (size : Z)
  (metrics : dict float) : merge1_results :=
  set results model (zset (get_default [] results model) size metrics).

(** The body of the loop.  The state is [results] and the names printed after
    [Skipping]; the lines printed before an exception are not kept. *)
Definition merge1_step (fs : filesystem) (data_dir : Path)
  (st : merge1_results * list string) (file_name : string)
  : result (merge1_results * list string) :=
  match FILENAME_PATTERN file_name with
  | None => Ok st
  | Some (model, size_text, merge_text) =>
      if negb (Z.eqb (int merge_text) 1) then Ok st
      else
        let size := int size_text in
        ld <- load_metrics fs (data_dir ++ [file_name]) model ;;
        match ld with
        | Unparsable => Ok (fst st, snd st ++ [file_name])
        | Metrics [] => Ok st
        | Metrics (m :: ms) => Ok (store_merge1 (fst st) model size (m :: ms), snd st)
        end
  end.

(** [results[model][size]], when both keys are there. *)
Definition lookup_merge1 (results : merge1_results) (model : string) (size : Z)
  : option (dict float) :=
  match get results model with
  | Some size_map => zget size_map size
  | None => None
  end.

(** *** [load_summaries] *)

(** [size -> model -> merge -> metric -> value]. *)
Definition compare_results : Type := int_dict (dict (int_dict (dict float))).

(** [data[size][model][merge_size] = metrics] on a
    [defaultdict(lambda: defaultdict(dict))]. *)
Definition store_compare (data : compare_results) (size : Z) (model : string) (merge : Z)
  (metrics : dict float) : compare_results :=
  let models := match zget data size with Some m => m | None => [] end in
  zset data size (set models model (zset (get_default [] models model) merge metrics)).

Definition compare_step (fs : filesystem) (data_dir : Path)
  (st : compare_results * list string) (file_name : string)
  : result (compare_results * list string) :=
  match FILENAME_PATTERN file_name with
  | None => Ok st
  | Some (model, size_text, merge_text) =>
      let size := int size_text in
      let merge_size := int merge_text in
      ld <- load_metrics fs (data_dir ++ [file_name]) model ;;
      match ld with
      | Unparsable => Ok (fst st, snd st ++ [file_name])
      | Metrics [] => Ok st
      | Metrics (m :: ms) =>
          Ok (store_compare (fst st) size model merge_size (m :: ms), snd st)
      end
  end.

(** [data[size][model][merge]], when the three keys are there. *)
Definition lookup_compare (data : compare_results) (size : Z) (model : string) (merge : Z)
  : option (dict float) :=
  match zget data size with
  | Some models =>
      match get models model with
      | Some merges => zget merges merge
      | None => None
      end
  | None => None
  end.

End Loaders.

(** ** The plot scripts over Python's text methods *)

(** [str.strip], [str.lower], the digit class [\d] of a [str] pattern and
    [int] follow the Unicode character database: [strip] removes every
    Unicode white space, [lower] is the Unicode lower-casing, and a digit is
    any character of category Nd.  The database is not embedded.  The
    definitions of this module take the three as a parameter [t], and what is
    proved of them is proved for every [t]; [ascii_text] is their restriction
    to ASCII, on which the modules [MergePlots] and [Loaders] above are
    built. *)
Module PlotScripts.
Import PyDict AverageStatistics MergePlots Directory Loaders.

(** [decimal s] is the decimal digit at the head of [s], if [s] starts with
    one: its value and what follows it. *)
Record text : Type := mkText {
  strip : string -> string;
  lower : string -> string;
  decimal : list ascii -> option (Z * list ascii)
}.

(** What is used of the digit class: a digit is a character, hence a run of
    bytes that is not empty, and it is not the underscore; whether a text
    starts with a digit depends on the bytes of its first character only. *)
Definition decimal_sound (t : text) : Prop :=
  (forall s v r,
     decimal t s = Some (v, r) ->
     exists d, s = d ++ r /\ d <> [] /\ ~ In PyStr.underscore d /\
               decimal t d = Some (v, [])) /\
  (forall d v r, decimal t d = Some (v, []) -> decimal t (d ++ r) = Some (v, r)).

(** The ASCII digits. *)
Definition ascii_decimal (s : list ascii) : option (Z * list ascii) :=
  match s with
  | c :: r => if isdigit c then Some (digit_value c, r) else None
  | [] => None
  end.

Definition ascii_text : text := mkText PyStr.strip PyStr.lower ascii_decimal.

(** The ASCII digits and the Arabic-Indic ones, U+0660 to U+0669, which UTF-8
    writes as the byte 217 followed by a byte from 160 to 169. *)
Definition arabic_decimal (s : list ascii) : option (Z * list ascii) :=
  match s with
  | c :: r =>
      if isdigit c then Some (digit_value c, r)
      else if (nat_of_ascii c =? 217)%nat then
        match r with
        | c' :: r' =>
            let n := nat_of_ascii c' in
            if ((160 <=? n) && (n <=? 169))%nat then Some ((Z.of_nat n - 160)%Z, r')
            else None
        | [] => None
        end
      else None
  | [] => None
  end.

Definition arabic_text : text := mkText PyStr.strip PyStr.lower arabic_decimal.

(** *** Resolution of a model name *)

Section Cost.
Variable t : text.

Definition normalize_model_key (model : string) : string :=
  if String.eqb model EmptyString then EmptyString
  else
    let normalized := lower t (strip t model) in
    if mem PRICES normalized then normalized
    else
      let tail :=
        PyStr.last_item
          (PyStr.split "/" (PyStr.last_item (PyStr.split "." normalized))) in
      if mem PRICES tail then tail
      else scan_keys (keys PRICES) normalized.

Definition compute_cost_usd (model : string) (avg_input_tokens avg_output_tokens : float)
  : float :=
  let key := normalize_model_key model in
  if String.eqb key EmptyString || negb (mem PRICES key) then PrimFloat.zero
  else
    match get PRICES key with
    | Some (input_price, output_price) =>
        let input_cost :=
          PrimFloat.mul (PyFloat.or_zero avg_input_tokens)
            (PrimFloat.div input_price million) in
        let output_cost :=
          PrimFloat.mul (PyFloat.or_zero avg_output_tokens)
            (PrimFloat.div output_price million) in
        PrimFloat.add input_cost output_cost
    | None => PrimFloat.zero
    end.

(** The cost step of the loaders. *)
Definition add_cost (model : string) (data : dict value) (metrics : dict float)
  : result (dict float) :=
  if mem metrics "avg_input_tokens" || mem metrics "avg_output_tokens" then
    name_arg <- model_argument data model ;;
    let cost :=
      compute_cost_usd name_arg
        (get_default PrimFloat.zero metrics "avg_input_tokens")
        (get_default PrimFloat.zero metrics "avg_output_tokens") in
    Ok (setdefault metrics COST cost)
  else Ok metrics.

(** The metrics of one summary file, from its parsed content. *)
Definition file_metrics (model : string) (data : dict value) : result (dict float) :=
  metrics <- collect_metrics data ;;
  add_cost model data metrics.

End Cost.

(** [tail] is [s.split(sep)[-1]]: what follows the last [sep] of [s], or [s]
    itself when it holds none. *)
Definition after_last (sep : ascii) (s tail : string) : Prop :=
  ~ In sep (chars tail) /\
  (s = tail \/ exists before, s = (before ++ String sep tail)%string).

(** [key in s]: [key] is a run of consecutive characters of [s]. *)
Definition occurs (key s : string) : Prop :=
  exists before after, s = (before ++ key ++ after)%string.

(** *** The pattern
    [^model_(?P<model>.+)_size(?P<size>\d+)_merge(?P<merge>\d+)_summary\.json$] *)

(** One or more digits, one after the other, and nothing else. *)
Inductive digit_text (t : text) : list ascii -> Prop :=
| digit_one (d : list ascii) (v : Z) :
    decimal t d = Some (v, []) -> digit_text t d
| digit_more (d : list ascii) (v : Z) (s : list ascii) :
    decimal t d = Some (v, []) -> digit_text t s -> digit_text t (d ++ s).

Section Pattern.
Variable t : text.

(** [\d+] followed by a literal underscore can only stop where the digits
    stop: the longest run of digits at the head of [s], and the rest.  A digit
    takes at least one byte of [s], so a [fuel] of the length of [s] lets the
    run end by itself. *)
Fixpoint digit_run (fuel : nat) (s : list ascii) : list ascii * list ascii :=
  match fuel with
  | 0 => ([], s)
  | S fuel' =>
      match decimal t s with
      | Some (_, r) =>
          let (ds, rest) := digit_run fuel' r in
          (firstn (List.length s - List.length r) s ++ ds, rest)
      | None => ([], s)
      end
  end.

(** [_size(\d+)_merge(\d+)_summary\.json$] against the whole of [s]: the two
    groups. *)
Definition match_rest (s : list ascii) : option (list ascii * list ascii) :=
  match literal (chars "_size") s with
  | None => None
  | Some r =>
      match digit_run (List.length r) r with
      | ([], _) => None
      | (size, r1) =>
          match literal (chars "_merge") r1 with
          | None => None
          | Some r2 =>
              match digit_run (List.length r2) r2 with
              | ([], _) => None
              | (merge, r3) =>
                  match literal (chars "_summary.json") r3 with
                  | Some e => if at_end e then Some (size, merge) else None
                  | None => None
                  end
              end
          end
      end
  end.

(** Backtracking of [.+]: the longest head of at most [n] characters, and at
    least one, after which the rest of the pattern matches. *)
Fixpoint backtrack_model (s : list ascii) (n : nat)
  : option (list ascii * list ascii * list ascii) :=
  match n with
  | 0 => None
  | S m =>
      match match_rest (skipn n s) with
      | Some (size, merge) => Some (firstn n s, size, merge)
      | None => backtrack_model s m
      end
  end.

(** [FILENAME_PATTERN.match(name)]: the groups [model], [size] and [merge] of
    a match. *)
Definition FILENAME_PATTERN (file_name : string) : option (string * string * string) :=
  match literal (chars "model_") (chars file_name) with
  | None => None
  | Some s =>
      match backtrack_model s (dot_run s) with
      | Some (model, size, merge) =>
          Some (string_of_list_ascii model, string_of_list_ascii size,
                string_of_list_ascii merge)
      | None => None
      end
  end.

(** What the pattern accepts after the model: [_size], digits, [_merge],
    digits, [_summary.json] and an end. *)
Definition rest_shape (size merge e s : list ascii) : Prop :=
  s = chars "_size" ++ size ++ chars "_merge" ++ merge ++ chars "_summary.json" ++ e /\
  digit_text t size /\ digit_text t merge /\ at_end e = true.

(** The shape of a name the pattern matches.  [$] also matches before a line
    feed that ends the name. *)
Definition filename_shape (model size merge file_name : string) : Prop :=
  (file_name = ("model_" ++ model ++ "_size" ++ size ++ "_merge" ++ merge
                ++ "_summary.json")%string \/
   file_name = ("model_" ++ model ++ "_size" ++ size ++ "_merge" ++ merge
                ++ "_summary.json" ++ String PyStr.nl EmptyString)%string) /\
  model <> EmptyString /\ ~ In PyStr.nl (chars model) /\
  digit_text t (chars size) /\ digit_text t (chars merge).

(** The values of the digits of a text, in order. *)
Fixpoint digit_values (fuel : nat) (s : list ascii) : list Z :=
  match fuel with
  | 0 => []
  | S fuel' =>
      match decimal t s with
      | Some (v, r) => v :: digit_values fuel' r
      | None => []
      end
  end.

(** [int(text)] on a run of digits.  The text is part of the name of a
    directory entry, far shorter than the 4300 digits above which [int]
    refuses a string. *)
Definition int (text : string) : Z :=
  fold_left (fun acc v => (10 * acc + v)%Z)
            (digit_values (String.length text) (chars text)) 0%Z.

(** *** Reading one file *)

(** Lines 82 to 101 of [load_merge1_summaries], 59 to 78 of [load_summaries]:
    a file that is not JSON is reported and passed over, any other failure to
    read it is let through, and a document that is not an object has no
    [items]. *)
Definition load_metrics (fs : filesystem) (path : Path) (model : string) : result loaded :=
  match fs path with
  | Raise JSONDecodeError => Ok Unparsable
  | Raise e => Raise e
  | Ok JOther => Raise AttributeError
  | Ok (JObject members) =>
      metrics <- file_metrics t model (of_pairs members) ;;
      Ok (Metrics metrics)
  end.

(** *** [load_merge1_summaries] *)

(** The body of the loop.  The state is [results] and the names printed after
    [Skipping]; the lines printed before an exception are not kept. *)
Definition merge1_step (fs : filesystem) (data_dir : Path)
  (st : merge1_results * list string) (file_name : string)
  : result (merge1_results * list string) :=
  match FILENAME_PATTERN file_name with
  | None => Ok st
  | Some (model, size_text, merge_text) =>
      if negb (Z.eqb (int merge_text) 1) then Ok st
      else
        let size := int size_text in
        ld <- load_metrics fs (data_dir ++ [file_name]) model ;;
        match ld with
        | Unparsable => Ok (fst st, snd st ++ [file_name])
        | Metrics [] => Ok st
        | Metrics (m :: ms) => Ok (store_merge1 (fst st) model size (m :: ms), snd st)
        end
  end.

Definition load_merge1_summaries (w : world) (data_dir : Path)
  : failure + merge1_results * list string :=
  if negb (exists_ w data_dir) then inl (Own FileNotFoundError)
  else
    match for_each (merge1_step (files w) data_dir)
            (glob_model (listing w data_dir)) (empty, []) with
    | Ok st => inr st
    | Raise e => inl (Propagated e)
    end.

(** What a globbed name adds to [results], if anything. *)
Definition merge1_entry (fs : filesystem) (data_dir : Path) (file_name : string)
  : option (string * Z * dict float) :=
  match FILENAME_PATTERN file_name with
  | Some (model, size_text, merge_text) =>
      if Z.eqb (int merge_text) 1 then
        match load_metrics fs (data_dir ++ [file_name]) model with
        | Ok (Metrics (m :: ms)) => Some (model, int size_text, m :: ms)
        | _ => None
        end
      else None
  | None => None
  end.

(** The exception a globbed name stops the loop with, if any, and whether
    the name is printed after [Skipping]. *)
Definition merge1_failure (fs : filesystem) (data_dir : Path) (file_name : string)
  : option exn :=
  match FILENAME_PATTERN file_name with
  | Some (model, _, merge_text) =>
      if Z.eqb (int merge_text) 1 then
        match load_metrics fs (data_dir ++ [file_name]) model with
        | Raise e => Some e
        | Ok _ => None
        end
      else None
  | None => None
  end.

Definition merge1_reported (fs : filesystem) (data_dir : Path) (file_name : string) : bool :=
  match FILENAME_PATTERN file_name with
  | Some (model, _, merge_text) =>
      Z.eqb (int merge_text) 1 &&
      match load_metrics fs (data_dir ++ [file_name]) model with
      | Ok Unparsable => true
      | _ => false
      end
  | None => false
  end.

(** *** [load_summaries] *)

Definition compare_step (fs : filesystem) (data_dir : Path)
  (st : compare_results * list string) (file_name : string)
  : result (compare_results * list string) :=
  match FILENAME_PATTERN file_name with
  | None => Ok st
  | Some (model, size_text, merge_text) =>
      let size := int size_text in
      let merge_size := int merge_text in
      ld <- load_metrics fs (data_dir ++ [file_name]) model ;;
      match ld with
      | Unparsable => Ok (fst st, snd st ++ [file_name])
      | Metrics [] => Ok st
      | Metrics (m :: ms) =>
          Ok (store_compare (fst st) size model merge_size (m :: ms), snd st)
      end
  end.

Definition load_summaries (w : world) (data_dir : Path)
  : failure + compare_results * list string :=
  if negb (exists_ w data_dir) then inl (Own FileNotFoundError)
  else
    match for_each (compare_step (files w) data_dir)
            (glob_model (listing w data_dir)) ([], []) with
    | Ok st => inr st
    | Raise e => inl (Propagated e)
    end.

(** What a globbed name adds to [data], if anything. *)
Definition compare_entry (fs : filesystem) (data_dir : Path) (file_name : string)
  : option (Z * string * Z * dict float) :=
  match FILENAME_PATTERN file_name with
  | Some (model, size_text, merge_text) =>
      match load_metrics fs (data_dir ++ [file_name]) model with
      | Ok (Metrics (m :: ms)) => Some (int size_text, model, int merge_text, m :: ms)
      | _ => None
      end
  | None => None
  end.

Definition compare_failure (fs : filesystem) (data_dir : Path) (file_name : string)
  : option exn :=
  match FILENAME_PATTERN file_name with
  | Some (model, _, _) =>
      match load_metrics fs (data_dir ++ [file_name]) model with
      | Raise e => Some e
      | Ok _ => None
      end
  | None => None
  end.

Definition compare_reported (fs : filesystem) (data_dir : Path) (file_name : string) : bool :=
  match FILENAME_PATTERN file_name with
  | Some (model, _, _) =>
      match load_metrics fs (data_dir ++ [file_name]) model with
      | Ok Unparsable => true
      | _ => false
      end
  | None => false
  end.

End Pattern.

End PlotScripts.

(** ** What the two plot scripts draw *)

(** The calls into matplotlib and the file system are taken to return; what
    is kept of them is which figures are saved and the lines drawn in each.
    Axis labels and titles are left out. *)
Module Plots.
Import PyDict AverageStatistics Loaders.

(** *** [sorted] and [list.sort] *)

Section Sorting.
Context {A : Type} (lt : A -> A -> bool).

(** A stable insertion sort that, like Python's, asks only for [<]. *)
Fixpoint insert_by (x : A) (l : list A) : list A :=
  match l with
  | [] => [x]
  | y :: rest => if lt y x then y :: insert_by x rest else x :: y :: rest
  end.

Definition sorted_by (l : list A) : list A := fold_right insert_by [] l.

End Sorting.

(** [a < b] on strings. *)
Definition string_lt (a b : string) : bool :=
  match String.compare a b with
  | Lt => true
  | _ => false
  end.

(** [a < b] on the items of a dictionary and on the pairs built from them:
    the keys are distinct, so the comparison of two tuples is decided by the
    keys and the values are never compared. *)
Definition key_lt {K V : Type} (lt : K -> K -> bool) (a b : K * V) : bool :=
  lt (fst a) (fst b).

(** [sorted(names)] for a set of strings.  The order in which the set is
    iterated does not show in the result; here it is first-seen order. *)
Definition sorted_set (names : list string) : list string :=
  sorted_by string_lt (nodup string_dec names).

(** [[(k, metrics[metric]) for k, metrics in m.items() if metric in metrics]]. *)
Definition pairs (metric : string) (m : int_dict (dict float)) : list (Z * float) :=
  flat_map
    (fun it : Z * dict float =>
       match get (snd it) metric with
       | Some v => [(fst it, v)]
       | None => []
       end)
    m.

(** [model.replace("/", "_")]. *)
Fixpoint replace_slash (s : string) : string :=
  match s with
  | EmptyString => EmptyString
  | String c s' =>
      String (if Ascii.eqb c "/"%char then PyStr.underscore else c) (replace_slash s')
  end.

(** [label.split("_id")[0]]: what precedes the first [_id]. *)
Fixpoint before_id (s : string) : string :=
  if String.prefix "_id" s then EmptyString
  else
    match s with
    | EmptyString => EmptyString
    | String c s' => String c (before_id s')
    end.

(** One call of [plt.plot]: the label and the points, in order. *)
Record line : Type := mkLine {
  label : string;
  points : list (Z * float)
}.

(** *** generate_merge1_plots.py *)

Module Merge1.

Definition metric_keys (data : merge1_results) : list string :=
  flat_map
    (fun model_data : string * int_dict (dict float) =>
       flat_map (fun metrics : Z * dict float => keys (snd metrics)) (snd model_data))
    data.

Definition collect_metric_names (data : merge1_results) : list string :=
  sorted_set (metric_keys data).

(** What [plot_metrics] does: the line printed for no data, or the creation
    of the output directory and one saved figure per metric. *)
Inductive event : Type :=
| NoSummaries
| MadeOutputDir
| Saved (metric : string) (lines : list line).

(** The body of [for model, size_map in sorted(data.items())]. *)
Definition model_line (metric : string) (item : string * int_dict (dict float))
  : list line :=
  match pairs metric (snd item) with
  | [] => []
  | p :: ps =>
      [mkLine (before_id (replace_slash (fst item)))
              (sorted_by (key_lt Z.ltb) (p :: ps))]
  end.

Definition lines_of (metric : string) (data : merge1_results) : list line :=
  flat_map (model_line metric) (sorted_by (key_lt string_lt) data).


(** The figures saved, in order. *)
Definition saved (events : list event) : list (string * list line) :=
  flat_map
    (fun e =>
       match e with
       | Saved metric lines => [(metric, lines)]
       | _ => []
       end)
    events.

End Merge1.

(** *** generate_merge_compare_plots.py *)

Module Compare.

Definition metric_keys (data : compare_results) : list string :=
  flat_map
    (fun size_data : Z * dict (int_dict (dict float)) =>
       flat_map
         (fun model_data : string * int_dict (dict float) =>
            flat_map (fun metrics : Z * dict float => keys (snd metrics)) (snd model_data))
         (snd size_data))
    data.

Definition collect_metric_names (data : compare_results) : list string :=
  sorted_set (metric_keys data).

(** What [main] does after loading. *)
Inductive event : Type :=
| NoSummaries
| MadeOutputDir
| Saved (size : Z) (metric : string) (lines : list line).

(** The body of [for model, merge_map in sorted(models.items())]. *)
Definition model_line (metric : string) (item : string * int_dict (dict float))
  : list line :=
  let ps := pairs metric (snd item) in
  if (List.length ps <? 2)%nat then []
  else [mkLine (replace_slash (fst item)) (sorted_by (key_lt Z.ltb) ps)].

Definition lines_of (metric : string) (models : dict (int_dict (dict float))) : list line :=
  flat_map (model_line metric) (sorted_by (key_lt string_lt) models).

(** The body of [for metric in metric_names]: the figure is saved only if a
    line was drawn. *)
Definition metric_chart (size : Z) (models : dict (int_dict (dict float)))
  (metric : string) : list event :=
  match lines_of metric models with
  | [] => []
  | l :: ls => [Saved size metric (l :: ls)]
  end.

Definition plot_for_size (size : Z) (models : dict (int_dict (dict float)))
  (metric_names : list string) : list event :=
  MadeOutputDir :: flat_map (metric_chart size models) metric_names.

(** [all(len(merge_map) < 2 for merge_map in models.values())]. *)
Definition no_comparison (models : dict (int_dict (dict float))) : bool :=
  forallb (fun model_data : string * int_dict (dict float) =>
             (List.length (snd model_data) <? 2)%nat)
          models.

(** [main], from the data [load_summaries] returned. *)
Definition plot_all (data : compare_results) : list event :=
  match data with
  | [] => [NoSummaries]
  | _ :: _ =>
      let metric_names := collect_metric_names data in
      flat_map
        (fun size_data : Z * dict (int_dict (dict float)) =>
           if no_comparison (snd size_data) then []
           else plot_for_size (fst size_data) (snd size_data) metric_names)
        (sorted_by (key_lt Z.ltb) data)
  end.

(** The figures saved, in order. *)
Definition saved (events : list event) : list (Z * string * list line) :=
  flat_map
    (fun e =>
       match e with
       | Saved size metric lines => [(size, metric, lines)]
       | _ => []
       end)
    events.

End Compare.

End Plots.

(** ** Sample cohorts *)

Module Examples.
Import AverageStatistics.

Definition m1 : Path := ["data"; "model_x_size1_merge2_id211_summary.json"].
Definition m2 : Path := ["data"; "model_x_size1_merge2_id218_summary.json"].
Definition m3 : Path := ["data"; "model_x_size1_merge2_id305_summary.json"].
Definition r1 : Path := ["data"; "rerun_id1_summary.json"].
Definition r2 : Path := ["data"; "rerun_id2_summary.json"].
Definition r3 : Path := ["data"; "rerun_id3_summary.json"].

Definition path_eqb (p q : Path) : bool :=
  match list_compare String.compare p q with
  | Eq => true
  | _ => false
  end.

(** Three runs of one configuration, and three summaries that already hold a
    ["number of runs"] field or a field of mixed type. *)
Definition disk : filesystem :=
  fun path =>
    if path_eqb path m1 then
      Ok (JObject [("avg_input_tokens", VInt 100); ("model name", VStr "openai.gpt-4.1-nano");
                   ("status", VStr "ok"); ("latency_ms", VInt 10)])
    else if path_eqb path m2 then
      Ok (JObject [("avg_input_tokens", VInt 200); ("model name", VStr "openai.gpt-4.1-nano");
                   ("status", VStr "retry"); ("latency_ms", VFloat 20)])
    else if path_eqb path m3 then
      Ok (JObject [("avg_input_tokens", VInt 150); ("model name", VStr "openai.gpt-4.1-nano");
                   ("status", VStr "ok")])
    else if path_eqb path r1 then
      Ok (JObject [("number of runs", VInt 5); ("x", VStr "ok")])
    else if path_eqb path r2 then
      Ok (JObject [("number of runs", VBool true); ("x", VStr "retry")])
    else if path_eqb path r3 then
      Ok (JObject [("x", VInt 1); ("number of runs", VStr "three")])
    else Raise OSError.

(** Three runs in which two fields change type from run to run. *)
Definition mixed : filesystem :=
  fun path =>
    if path_eqb path m1 then Ok (JObject [("cache", VBool true); ("score", VInt 4)])
    else if path_eqb path m2 then Ok (JObject [("cache", VInt 3); ("score", VFloat nan)])
    else if path_eqb path m3 then Ok (JObject [("cache", VBool false); ("score", VInt 8)])
    else Raise OSError.

(** Two runs whose [avg_cost_usd] is a string. *)
Definition quoted : filesystem :=
  fun path =>
    if path_eqb path m1 then
      Ok (JObject [("avg_input_tokens", VInt 100); ("avg_cost_usd", VStr "n/a");
                   ("model name", VStr "gpt-5")])
    else if path_eqb path m2 then
      Ok (JObject [("avg_input_tokens", VInt 300); ("avg_cost_usd", VStr "n/a");
                   ("model name", VStr "gpt-5")])
    else Raise OSError.

(** A data directory holding the six files of [disk] and two others. *)
Definition bench : Directory.world :=
  Directory.mkWorld
    (fun _ => true) (fun _ => true)
    (fun _ =>
       ["rerun_id2_summary.json"; "notes.json";
        "model_x_size1_merge2_id218_summary.json"; "rerun_id1_summary.json";
        "model_x_size1_merge2_id305_summary.json"; "rerun_id3_summary.json";
        "model_x_size1_merge2_id211_summary.json"; "model_x_size1_merge2_summary.json"])
    disk (fun _ => None) (fun _ => None).


(** A directory of summaries: two names that read as model [gpt-5] at size 1
    and merge size 1, a summary that is not JSON, one at merge size 2 that
    cannot be read, and a per-run file. *)
Definition reports : Directory.world :=
  Directory.mkWorld
    (fun _ => true) (fun _ => true)
    (fun _ =>
       ["model_gpt-5_size01_merge1_summary.json"; "model_o3_size2_merge01_summary.json";
        "model_gpt-5_size1_merge1_summary.json"; "model_gpt-5_size1_merge2_summary.json";
        "model_gpt-5_size1_merge1_id3_summary.json"; "notes.json"])
    (fun path =>
       if path_eqb path ["summary"; "model_gpt-5_size01_merge1_summary.json"] then
         Ok (JObject [("avg_input_tokens", VInt 10); ("number of runs", VInt 3)])
       else if path_eqb path ["summary"; "model_gpt-5_size1_merge1_summary.json"] then
         Ok (JObject [("avg_input_tokens", VInt 20); ("model name", VStr "unknown")])
       else if path_eqb path ["summary"; "model_o3_size2_merge01_summary.json"] then
         Raise JSONDecodeError
       else Raise OSError)
    (fun _ => None) (fun _ => None).

(** A directory of summaries one of whose entries, at merge size 2, is
    dangling: the name is listed, the file is not there. *)
Definition dangling : Directory.world :=
  Directory.mkWorld
    (fun _ => true) (fun _ => true)
    (fun _ =>
       ["model_gpt-5_size1_merge1_summary.json"; "model_gpt-5_size1_merge2_summary.json";
        "notes.json"])
    (fun path =>
       if path_eqb path ["summary"; "model_gpt-5_size1_merge1_summary.json"] then
         Ok (JObject [("avg_input_tokens", VInt 20)])
       else Raise FileNotFoundError)
    (fun _ => None) (fun _ => None).

(** Three summaries of model [a], two of which read as size 1 and merge
    size 2. *)
Definition comparisons : Directory.world :=
  Directory.mkWorld
    (fun _ => true) (fun _ => true)
    (fun _ =>
       ["model_a_size1_merge2_summary.json"; "model_a_size1_merge1_summary.json";
        "model_a_size01_merge02_summary.json"])
    (fun path =>
       if path_eqb path ["data"; "model_a_size1_merge2_summary.json"] then
         Ok (JObject [("latency_ms", VInt 2)])
       else if path_eqb path ["data"; "model_a_size1_merge1_summary.json"] then
         Ok (JObject [("latency_ms", VInt 1)])
       else if path_eqb path ["data"; "model_a_size01_merge02_summary.json"] then
         Ok (JObject [("latency_ms", VInt 3); ("status", VStr "ok")])
       else Raise OSError)
    (fun _ => None) (fun _ => None).

End Examples.

(** * Properties *)

(** ** The result monad and the dictionaries *)

Lemma bind_ok {A B : Type} (m : result A) (k : A -> result B) (b : B) :
  bind m k = Ok b -> exists a, m = Ok a /\ k a = Ok b.
Proof.
  destruct m as [a | e]; simpl; intros H; [eauto | discriminate].
Qed.

Ltac bind_inv H :=
  let a := fresh "a" in
  let Ha := fresh "Ha" in
  apply bind_ok in H; destruct H as (a & Ha & H).

Lemma for_each_app {S X : Type} (body : S -> X -> result S) (xs ys : list X) (st : S) :
  for_each body (xs ++ ys) st = (st' <- for_each body xs st ;; for_each body ys st').
Proof.
  revert st; induction xs as [| x xs IH]; intros st; simpl; [reflexivity |].
  destruct (body st x); simpl; auto.
Qed.

Section DictFacts.
Import PyDict.
Context {V : Type}.
Implicit Types (d : dict V) (k : string) (v : V).

Lemma get_set_same d k v : get (set d k v) k = Some v.
Proof.
  induction d as [| [k' v'] d IH]; simpl.
  - now rewrite String.eqb_refl.
  - destruct (String.eqb k' k) eqn:E; simpl; rewrite E; auto.
Qed.

Lemma get_set_other d k k' v : k <> k' -> get (set d k v) k' = get d k'.
Proof.
  intros Hne; induction d as [| [k0 v0] d IH]; simpl.
  - destruct (String.eqb_spec k k'); congruence.
  - destruct (String.eqb_spec k0 k) as [-> | Hk]; simpl.
    + destruct (String.eqb_spec k k'); congruence.
    + now rewrite IH.
Qed.

Lemma get_set d k k' v :
  get (set d k v) k' = if String.eqb k k' then Some v else get d k'.
Proof.
  destruct (String.eqb_spec k k') as [-> | Hne].
  - apply get_set_same.
  - now apply get_set_other.
Qed.

Lemma mem_set d k k' v : mem (set d k v) k' = String.eqb k k' || mem d k'.
Proof.
  unfold mem; rewrite get_set; now destruct (String.eqb k k').
Qed.

Lemma get_none_keys d k : get d k = None <-> ~ In k (keys d).
Proof.
  induction d as [| [k' v'] d IH]; simpl; [tauto |].
  destruct (String.eqb_spec k' k) as [-> | Hne]; split; intros H.
  - discriminate.
  - exfalso; apply H; now left.
  - intros [Heq | Hin]; [congruence | now apply IH in H].
  - apply IH; intros Hin; apply H; now right.
Qed.

Lemma mem_keys d k : mem d k = true <-> In k (keys d).
Proof.
  unfold mem; destruct (get d k) eqn:E.
  - split; [intros _ | reflexivity].
    destruct (in_dec string_dec k (keys d)) as [Hin | Hnot]; [assumption |].
    apply get_none_keys in Hnot; congruence.
  - split; [discriminate | intros Hin; now apply get_none_keys in E].
Qed.

Lemma keys_set d k v :
  keys (set d k v) = if mem d k then keys d else keys d ++ [k].
Proof.
  unfold mem; induction d as [| [k' v'] d IH]; simpl; [reflexivity |].
  destruct (String.eqb_spec k' k) as [-> | Hne]; simpl; [reflexivity |].
  rewrite IH; now destruct (get d k).
Qed.

Lemma set_absent d k v : get d k = None -> set d k v = d ++ [(k, v)].
Proof.
  induction d as [| [k' v'] d IH]; simpl; [reflexivity |].
  destruct (String.eqb k' k); [discriminate | intros H; now rewrite IH].
Qed.

Lemma NoDup_keys_set d k v : NoDup (keys d) -> NoDup (keys (set d k v)).
Proof.
  intros Hnd; rewrite keys_set; destruct (mem d k) eqn:E; [assumption |].
  apply NoDup_app; [assumption | repeat constructor; auto | ].
  intros x Hx [<- | []]. apply mem_keys in Hx; congruence.
Qed.

Lemma NoDup_keys_of_pairs (pairs : list (string * V)) : NoDup (keys (of_pairs pairs)).
Proof.
  unfold of_pairs.
  assert (H : forall (d : dict V), NoDup (keys d) ->
            NoDup (keys (fold_left (fun d kv => set d (fst kv) (snd kv)) pairs d))).
  { induction pairs as [| kv pairs IH]; intros d Hd; simpl; [assumption |].
    apply IH, NoDup_keys_set, Hd. }
  apply H; constructor.
Qed.

Lemma get_app d d' k :
  get (d ++ d') k = match get d k with Some v => Some v | None => get d' k end.
Proof.
  induction d as [| [k' v'] d IH]; simpl; [reflexivity |].
  now destruct (String.eqb k' k).
Qed.

End DictFacts.

(** ** Cost estimation *)

Section CostFacts.
Import PyDict MergePlots.

Lemma scan_keys_none (ks : list string) (normalized : string) :
  (forall key, In key ks -> PyStr.contains normalized key = false) ->
  scan_keys ks normalized = EmptyString.
Proof.
  induction ks as [| k ks IH]; intros H; simpl; [reflexivity |].
  rewrite (H k (or_introl eq_refl)); apply IH; intros key Hin; apply H; now right.
Qed.

Lemma scan_keys_first (ks before after : list string) (key normalized : string) :
  ks = before ++ key :: after ->
  PyStr.contains normalized key = true ->
  (forall k, In k before -> PyStr.contains normalized k = false) ->
  scan_keys ks normalized = key.
Proof.
  intros -> Hkey; induction before as [| b before IH]; intros Hbefore; simpl.
  - now rewrite Hkey.
  - rewrite (Hbefore b (or_introl eq_refl)); apply IH.
    intros k Hin; apply Hbefore; now right.
Qed.

Lemma scan_keys_in (ks : list string) (normalized : string) :
  scan_keys ks normalized <> EmptyString -> In (scan_keys ks normalized) ks.
Proof.
  induction ks as [| k ks IH]; simpl; [congruence |].
  destruct (PyStr.contains normalized k); [now left | intros H; right; auto].
Qed.

Lemma PRICES_keys_nonempty (key : string) :
  In key (keys PRICES) -> key <> EmptyString.
Proof.
  intros Hin ->.
  apply mem_keys in Hin. vm_compute in Hin. discriminate.
Qed.

Lemma normalize_empty : normalize_model_key EmptyString = EmptyString.
Proof. reflexivity. Qed.

(** The three tiers as equations on a model name that is not empty. *)
Lemma normalize_unfold (model : string) :
  let normalized := PyStr.lower (PyStr.strip model) in
  let tail :=
    PyStr.last_item (PyStr.split "/" (PyStr.last_item (PyStr.split "." normalized))) in
  model <> EmptyString ->
  normalize_model_key model =
    if mem PRICES normalized then normalized
    else if mem PRICES tail then tail
    else scan_keys (keys PRICES) normalized.
Proof.
  intros normalized tail Hne; unfold normalize_model_key.
  destruct (String.eqb_spec model EmptyString); [contradiction | reflexivity].
Qed.

Lemma normalize_resolved_in_table (model : string) :
  normalize_model_key model <> EmptyString ->
  mem PRICES (normalize_model_key model) = true.
Proof.
  destruct (string_dec model EmptyString) as [-> | Hne]; [now rewrite normalize_empty |].
  rewrite (normalize_unfold model Hne).
  destruct (mem PRICES (PyStr.lower (PyStr.strip model))) eqn:Ea; [auto |].
  match goal with |- context [mem PRICES ?t] => destruct (mem PRICES t) eqn:Eb end; [auto |].
  intros H; apply mem_keys, scan_keys_in, H.
Qed.

End CostFacts.

(** ** Resolution of a model name, for every [strip] and [lower] *)

Section ResolutionFacts.
Import PyDict AverageStatistics MergePlots PlotScripts.

Lemma last_item_cons (h : string) (l : list string) :
  l <> [] -> PyStr.last_item (h :: l) = PyStr.last_item l.
Proof.
  destruct l; [congruence | reflexivity].
Qed.

Lemma in_chars_app (sep : ascii) (a b : string) :
  In sep (chars (a ++ String sep b)%string).
Proof.
  induction a as [| c a IH]; simpl; auto.
Qed.

(** The last item of [s.split(sep)] holds no separator; it is [s] when the
    split has one item, and is preceded by a separator in [s] otherwise. *)
Lemma split_last (sep : ascii) (s : string) :
  ~ In sep (chars (PyStr.last_item (PyStr.split sep s))) /\
  (PyStr.split sep s = [s] \/
   exists h rest before,
     PyStr.split sep s = h :: rest /\ rest <> [] /\
     s = (before ++ String sep (PyStr.last_item (PyStr.split sep s)))%string).
Proof.
  induction s as [| c s (IHno & IH)]; cbn [PyStr.split].
  - split; [intros [] | now left].
  - destruct (Ascii.eqb_spec c sep) as [-> | Hne].
    + assert (Hl : PyStr.split sep s <> []).
      { destruct IH as [IH | (h & rest & b & IH & _)]; rewrite IH; discriminate. }
      rewrite (last_item_cons _ _ Hl). split; [exact IHno |]. right.
      exists EmptyString, (PyStr.split sep s).
      destruct IH as [IH | (h & rest & b & IH & Hr & Hs)].
      * exists EmptyString. split; [reflexivity | split; [exact Hl |]].
        rewrite IH. reflexivity.
      * exists (String sep b). split; [reflexivity | split; [exact Hl |]].
        simpl. f_equal. exact Hs.
    + destruct IH as [IH | (h & rest & b & IH & Hr & Hs)].
      * rewrite IH in IHno |- *. split; [| now left].
        unfold PyStr.last_item in *. simpl in *. intros [H | H]; [congruence | auto].
      * rewrite IH in IHno, Hs |- *. cbv iota beta.
        rewrite (last_item_cons h _ Hr) in IHno, Hs.
        rewrite (last_item_cons (String c h) _ Hr). split; [exact IHno |]. right.
        exists (String c h), rest, (String c b). repeat split; auto.
        simpl. f_equal. exact Hs.
Qed.

Lemma after_last_split (sep : ascii) (s : string) :
  after_last sep s (PyStr.last_item (PyStr.split sep s)).
Proof.
  destruct (split_last sep s) as (Hno & [H | (h & rest & b & _ & _ & Hs)]).
  - split; [exact Hno |]. left. now rewrite H.
  - split; [exact Hno |]. right. now exists b.
Qed.

Lemma after_separator_unique (sep : ascii) (a b x y : string) :
  (a ++ String sep x)%string = (b ++ String sep y)%string ->
  ~ In sep (chars x) -> ~ In sep (chars y) -> x = y.
Proof.
  revert b. induction a as [| c a IH]; intros [| d b]; simpl; intros H Hx Hy.
  - now injection H.
  - injection H as _ H. exfalso. apply Hx. rewrite H. apply in_chars_app.
  - injection H as _ H. exfalso. apply Hy. rewrite <- H. apply in_chars_app.
  - injection H as _ H. now apply (IH b).
Qed.

Lemma after_last_unique (sep : ascii) (s x y : string) :
  after_last sep s x -> after_last sep s y -> x = y.
Proof.
  intros (Hx & [Ex | (a & Ex)]) (Hy & [Ey | (b & Ey)]).
  - congruence.
  - exfalso. apply Hx. rewrite <- Ex, Ey. apply in_chars_app.
  - exfalso. apply Hy. rewrite <- Ey, Ex. apply in_chars_app.
  - apply (after_separator_unique sep a b); congruence.
Qed.

Lemma prefix_occurs (key s : string) :
  String.prefix key s = true <-> exists after, s = (key ++ after)%string.
Proof.
  revert s. induction key as [| c key IH]; intros s.
  - split; [intros _; now exists s | intros _; now destruct s].
  - destruct s as [| d s]; simpl; [split; [discriminate | intros (a & H); discriminate] |].
    destruct (ascii_dec c d) as [-> | Hne].
    + rewrite IH. split; intros (a & H); exists a; [now rewrite H | now injection H].
    + split; [discriminate | intros (a & H); injection H as H _; congruence].
Qed.

Lemma contains_eq (s key : string) :
  PyStr.contains s key =
  String.prefix key s ||
  match s with EmptyString => false | String _ s' => PyStr.contains s' key end.
Proof.
  destruct s; reflexivity.
Qed.

(** [key in s] of the code is the occurrence of [key] in [s]. *)
Lemma contains_occurs (s key : string) :
  PyStr.contains s key = true <-> occurs key s.
Proof.
  unfold occurs. induction s as [| c s IH]; rewrite contains_eq, orb_true_iff, prefix_occurs.
  - split.
    + intros [(a & H) | H]; [| discriminate]. now exists EmptyString, a.
    + intros (b & a & H). left. destruct b; [now exists a | discriminate].
  - rewrite IH. split.
    + intros [(a & H) | (b & a & H)]; [now exists EmptyString, a |].
      exists (String c b), a. simpl. now rewrite H.
    + intros (b & a & H). destruct b as [| d b]; [left; now exists a |].
      right. exists b, a. now injection H.
Qed.

Lemma contains_false (s key : string) :
  PyStr.contains s key = false <-> ~ occurs key s.
Proof.
  rewrite <- contains_occurs. destruct (PyStr.contains s key); split; congruence.
Qed.

Lemma scan_keys_empty (ks : list string) (normalized : string) :
  (forall key, In key ks -> key <> EmptyString) ->
  scan_keys ks normalized = EmptyString ->
  forall key, In key ks -> PyStr.contains normalized key = false.
Proof.
  induction ks as [| k ks IH]; simpl; intros Hne H key Hin; [contradiction |].
  destruct (PyStr.contains normalized k) eqn:E.
  - exfalso. apply (Hne k); auto.
  - destruct Hin as [<- | Hin]; [assumption | apply IH; auto].
Qed.

(** The three tiers as equations on a model name that is not empty. *)
Lemma text_normalize_unfold (t : text) (model : string) :
  model <> EmptyString ->
  normalize_model_key t model =
    if mem PRICES (lower t (strip t model)) then lower t (strip t model)
    else if mem PRICES
              (PyStr.last_item
                 (PyStr.split "/"
                    (PyStr.last_item (PyStr.split "." (lower t (strip t model))))))
         then PyStr.last_item
                (PyStr.split "/"
                   (PyStr.last_item (PyStr.split "." (lower t (strip t model)))))
         else scan_keys (keys PRICES) (lower t (strip t model)).
Proof.
  intros Hne. unfold normalize_model_key.
  destruct (String.eqb_spec model EmptyString); [contradiction | reflexivity].
Qed.

(** The tail of the code is the one text after the last dot and then the last
    slash. *)
Lemma tail_of_code (normalized x tail : string) :
  after_last "." normalized x -> after_last "/" x tail ->
  PyStr.last_item (PyStr.split "/" (PyStr.last_item (PyStr.split "." normalized))) = tail.
Proof.
  intros Hx Ht.
  rewrite (after_last_unique _ _ _ _ (after_last_split "." normalized) Hx).
  apply (after_last_unique _ _ _ _ (after_last_split "/" x) Ht).
Qed.

Lemma text_resolved_in_table (t : text) (model : string) :
  normalize_model_key t model <> EmptyString ->
  mem PRICES (normalize_model_key t model) = true.
Proof.
  destruct (string_dec model EmptyString) as [-> | Hne]; [intros H; now contradiction H |].
  rewrite (text_normalize_unfold t model Hne).
  destruct (mem PRICES (lower t (strip t model))) eqn:Ea; [auto |].
  match goal with |- context [mem PRICES ?x] => destruct (mem PRICES x) eqn:Eb end; [auto |].
  intros H; apply mem_keys, scan_keys_in, H.
Qed.

Lemma empty_not_priced : mem PRICES EmptyString = false.
Proof. reflexivity. Qed.

(** On the ASCII range the parametrised functions are those of [MergePlots]. *)
Lemma ascii_instance (model : string) (x y : float) (data : dict value) :
  normalize_model_key ascii_text model = MergePlots.normalize_model_key model /\
  compute_cost_usd ascii_text model x y = MergePlots.compute_cost_usd model x y /\
  file_metrics ascii_text model data = MergePlots.file_metrics model data.
Proof. repeat split; reflexivity. Qed.

(** C6.  A model name resolves to no key exactly when it is empty or no tier
    resolves it: its stripped, lower-cased form is not a key of the price
    table, neither is the text after its last dot and then after the last
    slash, and no key occurs in it.  Such a name costs exactly [0.0] whatever
    the token counts.  This holds for every [strip] and [lower], and
    [compute_cost_usd] is a function into [float]: no path through it
    raises. *)
Theorem cost_fallback_zero (t : text) (model : string) :
  let normalized := lower t (strip t model) in
  let unresolved :=
    model = EmptyString \/
    mem PRICES normalized = false /\
    (exists x tail,
       after_last "." normalized x /\ after_last "/" x tail /\ mem PRICES tail = false) /\
    (forall key, In key (keys PRICES) -> ~ occurs key normalized) in
  (unresolved <-> normalize_model_key t model = EmptyString) /\
  (unresolved ->
   forall avg_input_tokens avg_output_tokens,
     compute_cost_usd t model avg_input_tokens avg_output_tokens = PrimFloat.zero).
Proof.
  intros normalized unresolved.
  assert (Hkey : unresolved <-> normalize_model_key t model = EmptyString).
  { unfold unresolved. split.
    - intros [-> | (Ha & (x & tail & Hx & Ht & Hb) & Hc)]; [reflexivity |].
      destruct (string_dec model EmptyString) as [-> | Hne]; [reflexivity |].
      rewrite (text_normalize_unfold t model Hne). fold normalized.
      rewrite Ha, (tail_of_code normalized x tail Hx Ht), Hb.
      apply scan_keys_none. intros key Hin. now apply contains_false, Hc.
    - intros H.
      destruct (string_dec model EmptyString) as [-> | Hne]; [now left | right].
      rewrite (text_normalize_unfold t model Hne) in H. fold normalized in H.
      destruct (mem PRICES normalized) eqn:Ea.
      { rewrite H in Ea. discriminate Ea. }
      destruct (mem PRICES (PyStr.last_item
                  (PyStr.split "/" (PyStr.last_item (PyStr.split "." normalized))))) eqn:Eb.
      { rewrite H in Eb. discriminate Eb. }
      split; [reflexivity | split].
      + exists (PyStr.last_item (PyStr.split "." normalized)).
        exists (PyStr.last_item
                  (PyStr.split "/" (PyStr.last_item (PyStr.split "." normalized)))).
        split; [apply after_last_split | split; [apply after_last_split | exact Eb]].
      + intros key Hin. apply contains_false.
        apply (scan_keys_empty (keys PRICES)); auto.
        intros k Hk. now apply PRICES_keys_nonempty. }
  split; [exact Hkey |].
  intros Hun x y. unfold compute_cost_usd. now rewrite (proj1 Hkey Hun).
Qed.

Lemma cost_fallback_zero_witness :
  normalize_model_key ascii_text " Meta.Llama-3/70B" = EmptyString /\
  compute_cost_usd ascii_text " Meta.Llama-3/70B" 1200%float 345%float = PrimFloat.zero.
Proof.
  assert (H : " Meta.Llama-3/70B" = EmptyString \/
              mem PRICES "meta.llama-3/70b" = false /\
              (exists x tail,
                 after_last "." "meta.llama-3/70b" x /\ after_last "/" x tail /\
                 mem PRICES tail = false) /\
              (forall key, In key (keys PRICES) -> ~ occurs key "meta.llama-3/70b")).
  { right. split; [reflexivity | split].
    - exists "llama-3/70b", "70b". split; [| split; [| reflexivity]].
      + split; [vm_compute; intuition discriminate | right; now exists "meta"].
      + split; [vm_compute; intuition discriminate | right; now exists "llama-3"].
    - intros key Hin. apply contains_false.
      apply (proj1 (forallb_forall
               (fun k => negb (PyStr.contains "meta.llama-3/70b" k)) (keys PRICES)) eq_refl)
        in Hin.
      now apply negb_true_iff in Hin. }
  split.
  - exact (proj1 (proj1 (cost_fallback_zero ascii_text " Meta.Llama-3/70B")) H).
  - exact (proj2 (cost_fallback_zero ascii_text " Meta.Llama-3/70B") H 1200%float 345%float).
Defined.

(** C7.  Resolution of a name that is not empty runs through three tiers in
    order, whatever [strip] and [lower] do: (a) the stripped, lower-cased name
    when it is a key of the table; (b) else the text after its last dot and
    then after the last slash of that, when it is a key; (c) else the first
    key, in the table's insertion order, that occurs in the normalised name;
    and a name that no tier resolves, like the empty name, gives the empty
    key.  A resolved key is a key of the table, and with its prices
    [(p_in, p_out)] the cost is
    [(input or 0.0) * (p_in / 1e6) + (output or 0.0) * (p_out / 1e6)], which
    is [input * (p_in / 1e6) + output * (p_out / 1e6)] for token counts that
    are not zero. *)
Theorem three_tier_resolution (t : text) (model : string) :
  let normalized := lower t (strip t model) in
  let key := normalize_model_key t model in
  (model = EmptyString -> key = EmptyString) /\
  (model <> EmptyString ->
   (mem PRICES normalized = true -> key = normalized) /\
   (exists x tail, after_last "." normalized x /\ after_last "/" x tail) /\
   (forall x tail,
      after_last "." normalized x -> after_last "/" x tail ->
      mem PRICES normalized = false ->
      (mem PRICES tail = true -> key = tail) /\
      (mem PRICES tail = false ->
       (forall before k after,
          keys PRICES = before ++ k :: after ->
          occurs k normalized ->
          (forall k', In k' before -> ~ occurs k' normalized) ->
          key = k) /\
       ((forall k, In k (keys PRICES) -> ~ occurs k normalized) -> key = EmptyString)))) /\
  (key <> EmptyString ->
   exists p_in p_out,
     get PRICES key = Some (p_in, p_out) /\
     forall avg_input_tokens avg_output_tokens,
       compute_cost_usd t model avg_input_tokens avg_output_tokens =
       PrimFloat.add
         (PrimFloat.mul (PyFloat.or_zero avg_input_tokens) (PrimFloat.div p_in million))
         (PrimFloat.mul (PyFloat.or_zero avg_output_tokens) (PrimFloat.div p_out million)) /\
       (PyFloat.truthy avg_input_tokens = true ->
        PyFloat.truthy avg_output_tokens = true ->
        compute_cost_usd t model avg_input_tokens avg_output_tokens =
        PrimFloat.add
          (PrimFloat.mul avg_input_tokens (PrimFloat.div p_in million))
          (PrimFloat.mul avg_output_tokens (PrimFloat.div p_out million)))).
Proof.
  intros normalized key. split; [| split].
  - intros ->. reflexivity.
  - intros Hne.
    assert (Hkey := text_normalize_unfold t model Hne).
    fold normalized in Hkey. fold key in Hkey.
    split; [| split].
    + intros Ha. now rewrite Ha in Hkey.
    + exists (PyStr.last_item (PyStr.split "." normalized)).
      exists (PyStr.last_item
                (PyStr.split "/" (PyStr.last_item (PyStr.split "." normalized)))).
      split; apply after_last_split.
    + intros x tail Hx Ht Ha.
      rewrite Ha, (tail_of_code normalized x tail Hx Ht) in Hkey.
      split; [intros Hb; now rewrite Hb in Hkey |].
      intros Hb. rewrite Hb in Hkey. split.
      * intros before k after Hks Hk Hbefore. rewrite Hkey.
        apply (scan_keys_first _ before after); auto.
        -- now apply contains_occurs.
        -- intros k' Hin. now apply contains_false, Hbefore.
      * intros Hnone. rewrite Hkey. apply scan_keys_none.
        intros k Hin. now apply contains_false, Hnone.
  - intros Hres.
    pose proof (text_resolved_in_table t model Hres) as Hmem. fold key in Hmem.
    unfold mem in Hmem. destruct (get PRICES key) as [[p_in p_out] |] eqn:Eg;
      [| discriminate].
    exists p_in, p_out; split; [reflexivity |].
    intros x y. unfold compute_cost_usd. fold key.
    destruct (String.eqb_spec key EmptyString) as [He | _]; [contradiction |].
    unfold mem. rewrite Eg. split; [reflexivity |].
    intros Hx Hy. unfold PyFloat.or_zero. now rewrite Hx, Hy.
Qed.

(** Tier (b) on a name that tier (c) alone would resolve to [gpt-5]. *)
Lemma three_tier_resolution_witness :
  normalize_model_key ascii_text "  GPT-4o-Mini " = "gpt-4o-mini" /\
  normalize_model_key ascii_text "Azure.OpenAI/GPT-5-mini" = "gpt-5-mini" /\
  scan_keys (keys PRICES) "azure.openai/gpt-5-mini" = "gpt-5" /\
  normalize_model_key ascii_text "openai.gpt-4.1-nano" = "gpt-4.1" /\
  normalize_model_key ascii_text "mistral-large" = EmptyString /\
  compute_cost_usd ascii_text "openai.gpt-4.1-nano" 100%float 200%float = 0.0018%float.
Proof.
  split; [| split; [| split; [| split; [| split]]]].
  - apply (proj1 (proj2 (three_tier_resolution ascii_text "  GPT-4o-Mini "))).
    + discriminate.
    + reflexivity.
  - destruct (proj1 (proj2 (three_tier_resolution ascii_text "Azure.OpenAI/GPT-5-mini")))
      as (_ & _ & Htiers); [discriminate |].
    apply (Htiers "openai/gpt-5-mini" "gpt-5-mini").
    + split; [vm_compute; intuition discriminate | right; now exists "azure"].
    + split; [vm_compute; intuition discriminate | right; now exists "openai"].
    + reflexivity.
    + reflexivity.
  - reflexivity.
  - destruct (proj1 (proj2 (three_tier_resolution ascii_text "openai.gpt-4.1-nano")))
      as (_ & _ & Htiers); [discriminate |].
    apply (proj1 (proj2 (Htiers "1-nano" "1-nano"
                           ltac:(split; [vm_compute; intuition discriminate
                                        | right; now exists "openai.gpt-4"])
                           ltac:(split; [vm_compute; intuition discriminate | now left])
                           eq_refl) eq_refl)
             (firstn 7 (keys PRICES)) "gpt-4.1" (skipn 8 (keys PRICES))).
    + reflexivity.
    + now exists "openai.", "-nano".
    + intros k' Hin. apply contains_false. vm_compute in Hin.
      repeat (destruct Hin as [<- | Hin]; [reflexivity |]). contradiction.
  - destruct (proj1 (proj2 (three_tier_resolution ascii_text "mistral-large")))
      as (_ & _ & Htiers); [discriminate |].
    apply (proj2 (proj2 (Htiers "mistral-large" "mistral-large"
                           ltac:(split; [vm_compute; intuition discriminate | now left])
                           ltac:(split; [vm_compute; intuition discriminate | now left])
                           eq_refl) eq_refl)).
    intros k Hin. apply contains_false.
    apply (proj1 (forallb_forall
             (fun k => negb (PyStr.contains "mistral-large" k)) (keys PRICES)) eq_refl) in Hin.
    now apply negb_true_iff in Hin.
  - destruct (proj2 (proj2 (three_tier_resolution ascii_text "openai.gpt-4.1-nano")))
      as (p_in & p_out & Hget & Hcost).
    + vm_compute; discriminate.
    + rewrite (proj1 (Hcost _ _)). vm_compute in Hget. injection Hget as <- <-.
      reflexivity.
Defined.

End ResolutionFacts.

(** ** The cost metric of the chart loaders *)

Section MetricsFacts.
Import PyDict AverageStatistics MergePlots.

Lemma collect_metric_other (acc acc' : dict float) (item : string * value) (k : string) :
  collect_metric acc item = Ok acc' -> fst item <> k -> get acc' k = get acc k.
Proof.
  destruct item as [k' v]; unfold collect_metric; intros H Hne; simpl in Hne.
  destruct (existsb (String.eqb k') SKIP_KEYS); [now inversion H |].
  destruct (is_int_or_float v); [| now inversion H].
  bind_inv H. inversion H; subst. now apply get_set_other.
Qed.

Lemma collect_metrics_absent (its : list (string * value)) (acc base : dict float) (k : string) :
  for_each collect_metric its acc = Ok base -> ~ In k (keys its) -> get base k = get acc k.
Proof.
  revert acc; induction its as [| it its IH]; simpl; intros acc H Hk.
  - now inversion H.
  - bind_inv H. unfold keys in *; simpl in Hk.
    rewrite (IH _ H) by tauto.
    eapply collect_metric_other; eauto.
Qed.

Lemma collect_metrics_present (its : list (string * value)) (acc base : dict float)
  (k : string) (v : value) :
  NoDup (keys its) ->
  for_each collect_metric its acc = Ok base ->
  get its k = Some v ->
  is_int_or_float v = true ->
  existsb (String.eqb k) SKIP_KEYS = false ->
  exists f, py_float v = Ok f /\ get base k = Some f.
Proof.
  revert acc; induction its as [| [k' v'] its IH]; simpl; intros acc Hnd H Hget Hnum Hskip.
  - discriminate.
  - inversion Hnd as [| ? ? Hnotin Hnd']; subst. bind_inv H.
    destruct (String.eqb_spec k' k) as [-> | Hne].
    + inversion Hget; subst v'. unfold collect_metric in Ha.
      rewrite Hskip, Hnum in Ha. bind_inv Ha. inversion Ha; subst.
      exists a0; split; [assumption |].
      rewrite (collect_metrics_absent _ _ _ _ H Hnotin). apply get_set_same.
    + eapply IH; eauto.
Qed.

(** C10.  For the metrics [metrics] of a summary file whose JSON object is
    [data], with [base] the metrics before the cost step: every entry other
    than [avg_cost_usd] is that of [base]; when [base] already has
    [avg_cost_usd] the cost step changes nothing, and this is the case as soon
    as [data] carries a numeric [avg_cost_usd], whose own value is then the
    one kept; when [base] has none, either nothing is added or the computed
    cost is appended as the one new entry. *)
Theorem cost_keeps_existing (model : string) (members : list (string * value))
  (metrics : dict float) :
  let data := of_pairs members in
  file_metrics model data = Ok metrics ->
  exists base,
    collect_metrics data = Ok base /\
    (forall key, key <> COST -> get metrics key = get base key) /\
    (mem base COST = true -> metrics = base) /\
    (forall v, get data COST = Some v -> is_int_or_float v = true ->
       exists f, py_float v = Ok f /\ get metrics COST = Some f /\ metrics = base) /\
    (mem base COST = false ->
       metrics = base \/
       exists name_arg,
         model_argument data model = Ok name_arg /\
         (mem base "avg_input_tokens" || mem base "avg_output_tokens" = true) /\
         metrics =
           base ++ [(COST, compute_cost_usd name_arg
                             (get_default PrimFloat.zero base "avg_input_tokens")
                             (get_default PrimFloat.zero base "avg_output_tokens"))]).
Proof.
  intros data H. unfold file_metrics in H. bind_inv H. rename a into base.
  exists base; split; [assumption |].
  assert (Hkeep : mem base COST = true -> metrics = base).
  { intros Hmem. unfold add_cost in H.
    destruct (mem base "avg_input_tokens" || mem base "avg_output_tokens");
      [| now inversion H].
    bind_inv H. inversion H. unfold setdefault. fold COST. now rewrite Hmem. }
  split; [| split; [assumption | split]].
  - intros key Hne. unfold add_cost in H.
    destruct (mem base "avg_input_tokens" || mem base "avg_output_tokens");
      [| now inversion H].
    bind_inv H. inversion H. unfold setdefault. fold COST.
    destruct (mem base COST); [reflexivity |].
    apply get_set_other; congruence.
  - intros v Hget Hnum.
    destruct (collect_metrics_present data empty base COST v) as (f & Hf & Hbase); auto.
    { apply NoDup_keys_of_pairs. }
    exists f. assert (Hm : metrics = base).
    { apply Hkeep. unfold mem. now rewrite Hbase. }
    subst metrics. auto.
  - intros Hmem. unfold add_cost in H.
    destruct (mem base "avg_input_tokens" || mem base "avg_output_tokens") eqn:Etok;
      [| left; now inversion H].
    bind_inv H. inversion H. right. exists a; split; [assumption | split; [reflexivity |]].
    unfold setdefault. fold COST. rewrite Hmem. apply set_absent.
    unfold mem in Hmem. now destruct (get base COST).
Qed.

Lemma cost_keeps_existing_witness :
  exists base,
    collect_metrics
      (of_pairs [("avg_input_tokens", VInt 100); ("model name", VStr "gpt-5");
                 ("avg_cost_usd", VFloat 7%float); ("number of runs", VInt 3)]) = Ok base /\
    get base COST = Some 7%float /\
    file_metrics "gpt-5-mini"
      (of_pairs [("avg_input_tokens", VInt 100); ("model name", VStr "gpt-5");
                 ("avg_cost_usd", VFloat 7%float); ("number of runs", VInt 3)]) = Ok base.
Proof.
  destruct (cost_keeps_existing "gpt-5-mini"
              [("avg_input_tokens", VInt 100); ("model name", VStr "gpt-5");
               ("avg_cost_usd", VFloat 7%float); ("number of runs", VInt 3)]
              [("avg_input_tokens", 100%float); ("avg_cost_usd", 7%float)] eq_refl)
    as (base & Hbase & _ & _ & Hkept & _).
  exists base. split; [assumption |].
  destruct (Hkept (VFloat 7%float) eq_refl eq_refl) as (f & Hf & Hget & Heq).
  inversion Hf; subst f. subst base. split; [assumption | reflexivity].
Defined.

End MetricsFacts.

(** ** Cohort grouping *)

Section PatternFacts.
Import PyDict AverageStatistics.

Lemma chars_app (a b : string) : chars (a ++ b)%string = chars a ++ chars b.
Proof.
  induction a as [| c a IH]; simpl; [reflexivity | now rewrite IH].
Qed.

Lemma chars_inj (a b : string) : chars a = chars b -> a = b.
Proof.
  intros H. rewrite <- (string_of_list_ascii_of_string a),
    <- (string_of_list_ascii_of_string b). unfold chars in H. now rewrite H.
Qed.

Lemma endswith_spec (s suffix : string) :
  PyStr.endswith s suffix = true <-> exists a, s = (a ++ suffix)%string.
Proof.
  induction s as [| c s IH]; simpl.
  - destruct suffix as [| c suffix]; split; try discriminate.
    + intros _. now exists EmptyString.
    + reflexivity.
    + intros [a Ha]. destruct a; discriminate.
  - change (String.eqb (String c s) suffix || PyStr.endswith s suffix = true <->
            exists a, String c s = (a ++ suffix)%string).
    rewrite orb_true_iff, IH. split.
    + intros [H | [a Ha]].
      * apply String.eqb_eq in H. now exists EmptyString.
      * exists (String c a). simpl. now rewrite Ha.
    + intros [a Ha]. destruct a as [| c' a]; simpl in Ha.
      * left. subst. apply String.eqb_refl.
      * right. inversion Ha; subst. now exists a.
Qed.

Lemma literal_spec (lit s r : list ascii) : literal lit s = Some r <-> s = lit ++ r.
Proof.
  revert s; induction lit as [| a lit IH]; intros s; simpl.
  - split; [now intros [= ->] | now intros ->].
  - destruct s as [| b s]; [split; discriminate |].
    destruct (Ascii.eqb_spec a b) as [-> | Hne].
    + rewrite IH. split; [now intros -> | now intros [= ->]].
    + split; [discriminate | intros [= ? ?]; congruence].
Qed.

Lemma token_spec (s : list ascii) :
  s = fst (token s) ++ snd (token s) /\
  ~ In PyStr.underscore (fst (token s)) /\
  (snd (token s) = [] \/ exists r, snd (token s) = PyStr.underscore :: r).
Proof.
  induction s as [| c s (IH1 & IH2 & IH3)]; simpl.
  - repeat split; auto.
  - destruct (Ascii.eqb_spec c PyStr.underscore) as [-> | Hne]; simpl.
    + repeat split; auto. right; eauto.
    + destruct (token s) as [t r]; simpl in *. repeat split.
      * now rewrite <- IH1.
      * intros [H | H]; [congruence | contradiction].
      * assumption.
Qed.

Lemma token_stop (t r : list ascii) :
  ~ In PyStr.underscore t -> token (t ++ PyStr.underscore :: r) = (t, PyStr.underscore :: r).
Proof.
  induction t as [| c t IH]; intros Hno; simpl.
  - reflexivity.
  - destruct (Ascii.eqb_spec c PyStr.underscore) as [-> | Hne].
    + exfalso; apply Hno; now left.
    + rewrite IH; [reflexivity | intros H; apply Hno; now right].
Qed.

Lemma match_tail_spec (s : list ascii) :
  match_tail s = true <-> exists tok e, tail_shape tok e s.
Proof.
  unfold match_tail, tail_shape. split.
  - destruct (literal (chars "_id") s) as [r |] eqn:El; [| discriminate].
    apply literal_spec in El.
    destruct (token_spec r) as (Hr & Hno & _).
    destruct (token r) as [[| c t] rest]; [discriminate |]. simpl in Hr, Hno.
    destruct (literal (chars "_summary.json") rest) as [e |] eqn:Er; [| discriminate].
    apply literal_spec in Er. intros He.
    exists (c :: t), e. split; [| repeat split; [discriminate | assumption | assumption]].
    rewrite El, Hr, Er. reflexivity.
  - intros (tok & e & -> & Hne & Hno & He).
    rewrite (proj2 (literal_spec (chars "_id") _ _) eq_refl).
    change (chars "_summary.json" ++ e)
      with (PyStr.underscore :: chars "summary.json" ++ e).
    rewrite (token_stop tok _ Hno).
    destruct tok as [| c t]; [congruence |].
    change (PyStr.underscore :: chars "summary.json" ++ e)
      with (chars "_summary.json" ++ e).
    now rewrite (proj2 (literal_spec (chars "_summary.json") _ _) eq_refl).
Qed.

Lemma underscores_none (s : list ascii) : ~ In PyStr.underscore s -> underscores s = 0.
Proof. apply count_occ_not_In. Qed.

Lemma at_end_cases (e : list ascii) : at_end e = true -> e = [] \/ e = [PyStr.nl].
Proof.
  destruct e as [| c [| c' e]]; simpl; intros H; auto; [| discriminate].
  right. now apply Ascii.eqb_eq in H; subst.
Qed.

Lemma tail_shape_underscores (tok e s : list ascii) :
  tail_shape tok e s -> exists b, s = PyStr.underscore :: b /\ underscores b = 1.
Proof.
  intros (-> & _ & Hno & He).
  exists (chars "id" ++ tok ++ chars "_summary.json" ++ e); split; [reflexivity |].
  unfold underscores. rewrite !count_occ_app.
  fold (underscores tok). rewrite (underscores_none tok Hno).
  destruct (at_end_cases e He) as [-> | ->]; reflexivity.
Qed.

Lemma split_unique (a a' b b' : list ascii) :
  a ++ PyStr.underscore :: b = a' ++ PyStr.underscore :: b' ->
  underscores b = underscores b' -> a = a'.
Proof.
  unfold underscores.
  revert a'; induction a as [| x a IH]; intros [| y a'] H Hc; simpl in H.
  - reflexivity.
  - exfalso. injection H as <- ->. rewrite count_occ_app in Hc. simpl in Hc.
    destruct (ascii_dec PyStr.underscore PyStr.underscore); [lia | congruence].
  - exfalso. injection H as -> <-. rewrite count_occ_app in Hc. simpl in Hc.
    destruct (ascii_dec PyStr.underscore PyStr.underscore); [lia | congruence].
  - injection H as <- H. f_equal. now apply IH.
Qed.

Lemma match_tail_unique (s : list ascii) (m m' : nat) :
  match_tail (skipn m s) = true -> match_tail (skipn m' s) = true -> m = m'.
Proof.
  intros H H'.
  assert (Hlen : forall n, match_tail (skipn n s) = true -> n < List.length s).
  { intros n Hn. destruct (Nat.lt_ge_cases n (List.length s)) as [| Hge]; [assumption |].
    rewrite skipn_all2 in Hn by assumption. discriminate. }
  pose proof (Hlen _ H) as Hm. pose proof (Hlen _ H') as Hm'.
  apply match_tail_spec in H, H'.
  destruct H as (tok & e & Hs). destruct H' as (tok' & e' & Hs').
  apply tail_shape_underscores in Hs, Hs'.
  destruct Hs as (b & Hb & Hcb). destruct Hs' as (b' & Hb' & Hcb').
  assert (Heq : firstn m s = firstn m' s).
  { apply (split_unique _ _ b b'); [| congruence].
    rewrite <- Hb, <- Hb'. now rewrite !firstn_skipn. }
  apply (f_equal (@List.length ascii)) in Heq.
  rewrite !firstn_length_le in Heq by lia. assumption.
Qed.

Lemma backtrack_some (s p : list ascii) (n : nat) :
  backtrack s n = Some p ->
  exists m, 1 <= m <= n /\ p = firstn m s /\ match_tail (skipn m s) = true.
Proof.
  induction n as [| n IH]; simpl; [discriminate |].
  destruct (match_tail _) eqn:E.
  - intros [= <-]. exists (S n). repeat split; auto; lia.
  - intros H. destruct (IH H) as (m & Hm & Hp & Ht). exists m. repeat split; auto; lia.
Qed.

Lemma backtrack_found (s : list ascii) (m n : nat) :
  1 <= m <= n -> match_tail (skipn m s) = true -> backtrack s n = Some (firstn m s).
Proof.
  intros Hm Ht. induction n as [| n IH]; [lia |].
  cbn [backtrack]. destruct (match_tail (skipn (S n) s)) eqn:E.
  - now rewrite (match_tail_unique s m (S n) Ht E).
  - apply IH. destruct (Nat.eq_dec m (S n)) as [-> | Hne]; [congruence | lia].
Qed.

Lemma dot_run_firstn (s : list ascii) (m : nat) :
  m <= dot_run s -> ~ In PyStr.nl (firstn m s).
Proof.
  revert m; induction s as [| c s IH]; intros m Hm; simpl in Hm.
  - rewrite firstn_nil. auto.
  - destruct m as [| m]; [simpl; auto |].
    destruct (Ascii.eqb_spec c PyStr.nl) as [-> | Hne]; [lia |].
    simpl. intros [H | H]; [congruence |]. apply (IH m); [lia | assumption].
Qed.

Lemma dot_run_prefix (a b : list ascii) :
  ~ In PyStr.nl a -> List.length a <= dot_run (a ++ b).
Proof.
  induction a as [| c a IH]; intros Hno; simpl; [lia |].
  destruct (Ascii.eqb_spec c PyStr.nl) as [-> | Hne].
  - exfalso; apply Hno; now left.
  - apply le_n_S, IH. intros H; apply Hno; now right.
Qed.

Lemma firstn_length_app (a b : list ascii) : firstn (List.length a) (a ++ b) = a.
Proof.
  induction a as [| c a IH]; simpl; [now destruct b | now rewrite IH].
Qed.

Lemma skipn_length_app (a b : list ascii) : skipn (List.length a) (a ++ b) = b.
Proof.
  induction a as [| c a IH]; simpl; auto.
Qed.

(** The [prefix] group of a match, on character lists. *)
Lemma backtrack_spec (s p : list ascii) :
  backtrack s (dot_run s) = Some p <->
  p <> [] /\ ~ In PyStr.nl p /\ exists tok e, tail_shape tok e (skipn (List.length p) s)
                                      /\ s = p ++ skipn (List.length p) s.
Proof.
  split.
  - intros H. destruct (backtrack_some _ _ _ H) as (m & Hm & -> & Ht).
    assert (Hlen : m < List.length s).
    { destruct (Nat.lt_ge_cases m (List.length s)) as [| Hge]; [assumption |].
      rewrite skipn_all2 in Ht by assumption. discriminate. }
    assert (Hl : List.length (firstn m s) = m) by (apply firstn_length_le; lia).
    repeat split.
    + intros E. rewrite E in Hl. simpl in Hl. lia.
    + apply dot_run_firstn; lia.
    + rewrite Hl. apply match_tail_spec in Ht. destruct Ht as (tok & e & Hs).
      exists tok, e. split; [assumption | now rewrite firstn_skipn].
  - intros (Hne & Hnl & tok & e & Hs & Hsplit).
    assert (Hp : firstn (List.length p) s = p).
    { rewrite Hsplit at 1. apply firstn_length_app. }
    rewrite <- Hp at 1. apply backtrack_found.
    + split.
      * destruct p; [congruence | simpl; lia].
      * rewrite Hsplit at 1. now apply dot_run_prefix.
    + apply match_tail_spec. eauto.
Qed.

End PatternFacts.

Section GroupingFacts.
Import PyDict AverageStatistics.

Lemma chars_nonempty (a : string) : chars a <> [] <-> a <> EmptyString.
Proof.
  destruct a; simpl; split; congruence.
Qed.

Lemma pattern_of_shape (key token file_name : string) :
  summary_shape key token file_name -> SUMMARY_PATTERN file_name = Some key.
Proof.
  intros (-> & Hkey & Hnl & Htok & Hus). unfold SUMMARY_PATTERN.
  assert (Hs : chars (key ++ "_id" ++ token ++ "_summary.json")%string =
               chars key ++ chars "_id" ++ chars token ++ chars "_summary.json" ++ []).
  { rewrite !chars_app. now rewrite app_nil_r. }
  rewrite Hs.
  rewrite (proj2 (backtrack_spec _ (chars key))).
  - simpl. f_equal. apply string_of_list_ascii_of_string.
  - split; [now apply chars_nonempty | split; [assumption |]].
    exists (chars token), []. rewrite skipn_length_app. split; [| reflexivity].
    repeat split; auto. now apply chars_nonempty.
Qed.

Lemma shape_of_pattern (prefix file_name : string) :
  PyStr.endswith file_name ".json" = true ->
  SUMMARY_PATTERN file_name = Some prefix ->
  exists token, summary_shape prefix token file_name.
Proof.
  intros Hend Hpat. unfold SUMMARY_PATTERN in Hpat.
  destruct (backtrack (chars file_name) (dot_run (chars file_name))) as [p |] eqn:Eb;
    [| discriminate].
  simpl in Hpat. injection Hpat as <-.
  apply backtrack_spec in Eb. destruct Eb as (Hne & Hnl & tok & e & Hshape & Hsplit).
  destruct Hshape as (Hrest & Htok & Hus & He).
  rewrite Hrest in Hsplit.
  assert (e = []) as ->.
  { destruct (at_end_cases e He) as [-> | ->]; [reflexivity | exfalso].
    apply endswith_spec in Hend. destruct Hend as [a Ha].
    apply (f_equal chars) in Ha. rewrite chars_app in Ha.
    change (chars ".json") with (chars ".jso" ++ ["n"%char]) in Ha.
    rewrite Hsplit in Ha.
    apply (f_equal (fun l => List.last l " "%char)) in Ha.
    rewrite !app_assoc in Ha. rewrite !last_last in Ha. discriminate. }
  exists (string_of_list_ascii tok). unfold summary_shape.
  assert (Hp : chars (string_of_list_ascii p) = p)
    by apply list_ascii_of_string_of_list_ascii.
  assert (Ht : chars (string_of_list_ascii tok) = tok)
    by apply list_ascii_of_string_of_list_ascii.
  repeat split.
  - apply chars_inj. rewrite !chars_app, Hp, Ht.
    rewrite Hsplit at 1. now rewrite app_nil_r.
  - apply chars_nonempty. now rewrite Hp.
  - now rewrite Hp.
  - apply chars_nonempty. now rewrite Ht.
  - now rewrite Ht.
Qed.

Lemma shape_endswith (key token file_name : string) :
  summary_shape key token file_name -> PyStr.endswith file_name ".json" = true.
Proof.
  intros (-> & _). apply endswith_spec.
  exists (key ++ "_id" ++ token ++ "_summary")%string.
  apply chars_inj. rewrite !chars_app. rewrite <- !app_assoc. reflexivity.
Qed.

Lemma in_cohort_default (groups : dict (list Path)) (prefix : string) (path : Path) :
  in_cohort groups prefix path <-> In path (get_default [] groups prefix).
Proof.
  unfold in_cohort, get_default. destruct (get groups prefix) as [paths |].
  - split; [intros (ps & [= <-] & H); assumption | eauto].
  - split; [intros (ps & H & _); discriminate | intros []].
Qed.

Lemma in_cohort_set (groups : dict (list Path)) (p0 prefix : string) (x path : Path) :
  in_cohort (set groups p0 (get_default [] groups p0 ++ [x])) prefix path <->
  in_cohort groups prefix path \/ (p0 = prefix /\ path = x).
Proof.
  rewrite !in_cohort_default. unfold get_default at 1. rewrite get_set.
  destruct (String.eqb_spec p0 prefix) as [-> | Hne].
  - rewrite in_app_iff. simpl. intuition congruence.
  - fold (get_default [] groups prefix). intuition congruence.
Qed.

Lemma collect_groups_in_cohort (data_dir : Path) (listing : list string)
  (prefix : string) (path : Path) :
  in_cohort (collect_groups data_dir listing) prefix path <->
  exists file_name,
    In file_name listing /\ PyStr.endswith file_name ".json" = true /\
    SUMMARY_PATTERN file_name = Some prefix /\ path = data_dir ++ [file_name].
Proof.
  pose (step := fun (groups : dict (list Path)) file_name =>
                 match SUMMARY_PATTERN file_name with
                 | Some prefix =>
                     set groups prefix
                       (get_default [] groups prefix ++ [data_dir ++ [file_name]])
                 | None => groups
                 end).
  assert (H : forall names groups,
             in_cohort (fold_left step names groups) prefix path <->
             in_cohort groups prefix path \/
             exists file_name, In file_name names /\
               SUMMARY_PATTERN file_name = Some prefix /\ path = data_dir ++ [file_name]).
  { induction names as [| n names IH]; intros groups; simpl.
    - split; [auto | intros [H | (f & [] & _)]; assumption].
    - rewrite IH. unfold step at 1.
      destruct (SUMMARY_PATTERN n) as [p0 |] eqn:Ep.
      + rewrite in_cohort_set. split.
        * intros [[H | [-> ->]] | (f & Hin & Hf)]; eauto 8.
        * intros [H | (f & [-> | Hin] & Hf & Hpath)]; eauto 8.
          left; right. split; congruence.
      + split.
        * intros [H | (f & Hin & Hf)]; eauto 8.
        * intros [H | (f & [-> | Hin] & Hf & Hpath)]; eauto 8. congruence. }
  change (collect_groups data_dir listing)
    with (fold_left step (glob_json listing) (@empty (list Path))).
  rewrite H. unfold glob_json. split.
  - intros [(ps & Hget & _) | (f & Hin & Hf)]; [discriminate |].
    apply filter_In in Hin. exists f. tauto.
  - intros (f & Hin & Hend & Hf). right. exists f. rewrite filter_In. tauto.
Qed.

(** C4 (amended).  A file name is placed in a cohort exactly when the
    directory lists it and it has the shape [<key>_id<token>_summary.json]
    with a key that is not empty and holds no line feed and a token that is
    not empty and holds no underscore; the cohort it is placed in is the one
    keyed by that [<key>], and no other. *)
Theorem grouping_by_shape (data_dir : Path) (listing : list string) (file_name : string) :
  let groups := collect_groups data_dir listing in
  ((exists prefix, in_cohort groups prefix (data_dir ++ [file_name])) <->
   (In file_name listing /\ exists key token, summary_shape key token file_name)) /\
  (forall key token,
     In file_name listing -> summary_shape key token file_name ->
     forall prefix, in_cohort groups prefix (data_dir ++ [file_name]) <-> prefix = key).
Proof.
  intros groups. subst groups. split; [split |].
  - intros (prefix & H). apply collect_groups_in_cohort in H.
    destruct H as (f & Hin & Hend & Hpat & Hpath).
    apply app_inv_head in Hpath. injection Hpath as <-.
    split; [assumption |]. exists prefix. now apply shape_of_pattern.
  - intros (Hin & key & token & Hshape). exists key.
    apply collect_groups_in_cohort. exists file_name.
    repeat split; auto; [eapply shape_endswith | eapply pattern_of_shape]; eauto.
  - intros key token Hin Hshape prefix. rewrite collect_groups_in_cohort. split.
    + intros (f & _ & _ & Hpat & Hpath).
      apply app_inv_head in Hpath. injection Hpath as <-.
      rewrite (pattern_of_shape _ _ _ Hshape) in Hpat. congruence.
    + intros ->. exists file_name.
      repeat split; auto; [eapply shape_endswith | eapply pattern_of_shape]; eauto.
Qed.

Lemma grouping_by_shape_witness :
  in_cohort
    (collect_groups ["data"]
       ["notes.json"; "model_x_size1_merge2_id211_summary.json";
        "model_x_size1_merge2_id218_summary.json"])
    "model_x_size1_merge2" ["data"; "model_x_size1_merge2_id218_summary.json"].
Proof.
  apply (proj2 (grouping_by_shape ["data"]
                  ["notes.json"; "model_x_size1_merge2_id211_summary.json";
                   "model_x_size1_merge2_id218_summary.json"]
                  "model_x_size1_merge2_id218_summary.json")
           "model_x_size1_merge2" "218").
  - simpl; auto.
  - unfold summary_shape. repeat split; try discriminate.
    + simpl. intros H.
      repeat (destruct H as [H | H]; [discriminate |]). contradiction.
    + simpl. intros H.
      repeat (destruct H as [H | H]; [discriminate |]). contradiction.
  - reflexivity.
Defined.

(** C4 as stated fails: [_id7_summary.json] and a name whose key holds a
    line feed both have the stated shape (token not empty, no underscore), are
    listed, and are placed in no cohort. *)
Lemma grouping_by_shape_counterexample :
  let listing :=
    ["_id7_summary.json"; String "a" (String PyStr.nl "b_id7_summary.json")] in
  Forall
    (fun file_name =>
       In file_name listing /\
       (exists key token,
          file_name = (key ++ "_id" ++ token ++ "_summary.json")%string /\
          token <> EmptyString /\ ~ In PyStr.underscore (chars token)) /\
       ~ exists prefix, in_cohort (collect_groups ["data"] listing) prefix
                          (["data"] ++ [file_name]))
    listing.
Proof.
  cbv zeta. constructor; [| constructor; [| constructor]].
  - split; [simpl; auto | split].
    + exists EmptyString, "7". repeat split; [discriminate |].
      simpl. intros [H | []]. discriminate.
    + intros (prefix & paths & H & _). discriminate.
  - split; [simpl; auto | split].
    + exists (String "a" (String PyStr.nl "b")), "7". repeat split; [discriminate |].
      simpl. intros [H | []]. discriminate.
    + intros (prefix & paths & H & _). discriminate.
Qed.

End GroupingFacts.

(** ** The zero-count guard *)

Section CountedFacts.
Import PyDict AverageStatistics Cohort.

Lemma visit_item_counted (nm : string) (st st' : state) (item : string * value) :
  visit_item nm st item = Ok st' ->
  counted st -> Forall consistency_only (warnings st) ->
  counted st' /\ Forall consistency_only (warnings st') /\ key_order st' = key_order st.
Proof.
  destruct item as [key v]. unfold visit_item. intros H Hc Hw.
  bind_inv H. destruct a.
  - bind_inv H. inversion H; subst; clear H. simpl. repeat split; auto.
    intros k Hk. simpl in *. unfold get_default. rewrite get_set.
    destruct (String.eqb_spec key k) as [-> | Hne]; [lia |].
    rewrite mem_set in Hk. destruct (String.eqb_spec key k); [contradiction |].
    apply Hc, Hk.
  - destruct (get (non_numeric st) key) as [first |].
    + destruct (py_ne v first); inversion H; subst; clear H; simpl; repeat split; auto.
      apply Forall_app; split; [assumption | repeat constructor].
    + inversion H; subst; clear H. simpl. repeat split; auto.
Qed.

Lemma visit_items_counted (nm : string) (its : list (string * value)) (st st' : state) :
  for_each (visit_item nm) its st = Ok st' ->
  counted st -> Forall consistency_only (warnings st) ->
  counted st' /\ Forall consistency_only (warnings st') /\ key_order st' = key_order st.
Proof.
  revert st; induction its as [| it its IH]; simpl; intros st H Hc Hw.
  - inversion H; subst; auto.
  - bind_inv H. destruct (visit_item_counted _ _ _ _ Ha Hc Hw) as (Hc' & Hw' & Hk).
    destruct (IH _ H Hc' Hw') as (? & ? & ?). repeat split; auto. congruence.
Qed.

Lemma check_missing_counted (nm : string) (st : state) (ks : list string)
  (ws : list diagnostic) :
  counted st -> (forall k, In k ks -> mem (sums st) k = true) ->
  fold_left (check_missing nm st) ks ws = ws.
Proof.
  intros Hc. revert ws; induction ks as [| k ks IH]; intros ws Hks; simpl; [reflexivity |].
  unfold check_missing at 2.
  pose proof (Hc k (Hks k (or_introl eq_refl))) as Hk.
  destruct (Nat.eqb_spec (get_default 0 (counts st) k) 0); [lia |].
  apply IH. intros k' Hin. apply Hks. now right.
Qed.

Lemma process_file_counted (fs : filesystem) (st st' : state) (path : Path) :
  process_file fs st path = Ok st' ->
  counted st -> Forall consistency_only (warnings st) ->
  counted st' /\ Forall consistency_only (warnings st').
Proof.
  unfold process_file. intros H Hc Hw. bind_inv H. bind_inv H.
  inversion H; subst; clear H.
  destruct (visit_items_counted _ _ _ _ Ha0 Hc Hw) as (Hc' & Hw' & _).
  rewrite check_missing_counted; auto.
  intros k Hin. now apply mem_keys.
Qed.

Lemma process_files_counted (fs : filesystem) (paths : list Path) (st st' : state) :
  for_each (process_file fs) paths st = Ok st' ->
  counted st -> Forall consistency_only (warnings st) ->
  counted st' /\ Forall consistency_only (warnings st').
Proof.
  revert st; induction paths as [| p paths IH]; simpl; intros st H Hc Hw.
  - inversion H; subst; auto.
  - bind_inv H. destruct (process_file_counted _ _ _ _ Ha Hc Hw) as (Hc' & Hw').
    eauto.
Qed.

Lemma consistency_not_missing (d : diagnostic) : consistency_only d -> not_missing d.
Proof. now destruct d. Qed.

Lemma counted_initial : counted initial.
Proof. intros k Hk. discriminate. Qed.

End CountedFacts.

(** ** The loops that build the result *)

Section FinishFacts.
Import PyDict AverageStatistics Cohort.

Lemma emit_key_eq (total : nat) (st : state) (res : dict value) (ws : list diagnostic)
  (key : string) :
  emit_key total st (res, ws) key = (store st res key, ws ++ coverage total st key).
Proof.
  unfold emit_key, store, emitted, coverage.
  destruct (mem (sums st) key).
  - destruct (Nat.eqb (get_default 0 (counts st) key) 0); simpl.
    + now rewrite app_nil_r.
    + destruct (Nat.eqb (get_default 0 (counts st) key) total); simpl;
        [now rewrite app_nil_r | reflexivity].
  - rewrite app_nil_r. now destruct (get (non_numeric st) key).
Qed.

Lemma emit_keys_eq (total : nat) (st : state) (ks : list string) (res : dict value)
  (ws : list diagnostic) :
  fold_left (emit_key total st) ks (res, ws) =
  (fold_left (store st) ks res, ws ++ flat_map (coverage total st) ks).
Proof.
  revert res ws; induction ks as [| k ks IH]; intros res ws; cbn [fold_left flat_map].
  - now rewrite app_nil_r.
  - rewrite emit_key_eq, IH. now rewrite <- app_assoc.
Qed.

Lemma get_store_fold (st : state) (ks : list string) (res : dict value) (key : string) :
  get (fold_left (store st) ks res) key =
  if existsb (String.eqb key) ks
  then match emitted st key with Some v => Some v | None => get res key end
  else get res key.
Proof.
  revert res; induction ks as [| k ks IH]; intros res; cbn [fold_left existsb];
    [reflexivity |].
  rewrite IH. unfold store.
  destruct (String.eqb_spec key k) as [<- | Hne]; simpl.
  - destruct (emitted st key) as [v |] eqn:E.
    + rewrite get_set_same. now destruct (existsb (String.eqb key) ks).
    + now destruct (existsb (String.eqb key) ks).
  - destruct (emitted st k) as [v |]; [| reflexivity].
    rewrite get_set_other by congruence. reflexivity.
Qed.

Lemma emit_unordered_skip (st : state) (its : list (string * float)) (res : dict value) :
  (forall kv, In kv its -> mem res (fst kv) = true) ->
  fold_left (emit_unordered st) its res = res.
Proof.
  induction its as [| [k total] its IH]; intros H; cbn [fold_left]; [reflexivity |].
  pose proof (H (k, total) (or_introl eq_refl)) as Hm. simpl in Hm.
  unfold emit_unordered at 2. rewrite Hm. simpl. apply IH.
  intros kv Hin. apply H. now right.
Qed.

Lemma existsb_eqb_In (key : string) (ks : list string) :
  existsb (String.eqb key) ks = true <-> In key ks.
Proof.
  rewrite existsb_exists. split.
  - intros (x & Hin & Heq). apply String.eqb_eq in Heq. now subst.
  - intros Hin. exists key. split; [assumption | apply String.eqb_refl].
Qed.

Lemma coverage_not_missing (total : nat) (st : state) (ks : list string) :
  Forall not_missing (flat_map (coverage total st) ks).
Proof.
  induction ks as [| k ks IH]; simpl; [constructor |].
  apply Forall_app; split; [| assumption].
  unfold coverage. destruct (mem (sums st) k); [| constructor].
  destruct (_ || _); repeat constructor.
Qed.

Lemma render_not_missing (d : diagnostic) :
  not_missing d -> String.prefix MISSING_PREFIX (render d) = false.
Proof.
  destruct d; simpl; [reflexivity | contradiction | reflexivity].
Qed.

Lemma average_group_diags_inv (fs : filesystem) (files : list Path)
  (res : dict value) (ws : list diagnostic) :
  average_group_diags fs files = Ok (res, ws) ->
  files = [] /\ res = empty /\ ws = [] \/
  files <> [] /\
  exists st,
    for_each (process_file fs) (sorted files) initial = Ok st /\
    finish (List.length files) st = (res, ws).
Proof.
  unfold average_group_diags. destruct files as [| p files].
  - intros [= <- <-]. now left.
  - intros H. bind_inv H. right. split; [discriminate |]. exists a. split; congruence.
Qed.

(** The result and the diagnostics of [finish], for a state in which every
    summed key is counted and is in [key_order]. *)
Lemma finish_spec (total : nat) (st : state) :
  counted st ->
  (forall k, mem (sums st) k = true -> In k (key_order st)) ->
  finish total st =
  (set (fold_left (store st) (key_order st) empty) RUNS (VInt (Z.of_nat total)),
   warnings st ++ flat_map (coverage total st) (key_order st)).
Proof.
  intros Hc Hk. unfold finish. rewrite emit_keys_eq.
  rewrite emit_unordered_skip; [reflexivity |].
  intros [k total'] Hin. simpl. unfold mem at 1. rewrite get_store_fold.
  assert (Hmem : mem (sums st) k = true).
  { apply mem_keys. unfold keys. change k with (fst (k, total')). now apply in_map. }
  rewrite (proj2 (existsb_eqb_In k (key_order st)) (Hk k Hmem)).
  unfold emitted. rewrite Hmem. pose proof (Hc k Hmem) as Hcount.
  destruct (Nat.eqb_spec (get_default 0 (counts st) k) 0); [lia | reflexivity].
Qed.

End FinishFacts.

(** ** Keys are tracked in first-seen order *)

Section TrackedFacts.
Import PyDict AverageStatistics Cohort.

Lemma note_key_In (order : list string) (key k : string) :
  In k (note_key order key) <-> In k order \/ k = key.
Proof.
  unfold note_key. destruct (existsb (String.eqb key) order) eqn:E.
  - apply existsb_eqb_In in E. split; [auto | intros [H | ->]; assumption].
  - rewrite in_app_iff. simpl. intuition congruence.
Qed.

Lemma note_keys_In (ks order : list string) (k : string) :
  In k (fold_left note_key ks order) <-> In k order \/ In k ks.
Proof.
  revert order; induction ks as [| k0 ks IH]; intros order; simpl.
  - tauto.
  - rewrite IH, note_key_In. intuition congruence.
Qed.

Lemma note_key_NoDup (order : list string) (key : string) :
  NoDup order -> NoDup (note_key order key).
Proof.
  intros Hnd. unfold note_key. destruct (existsb (String.eqb key) order) eqn:E;
    [assumption |].
  apply NoDup_app; [assumption | repeat constructor; auto |].
  intros x Hx [<- | []]. apply existsb_eqb_In in Hx. congruence.
Qed.

Lemma note_keys_NoDup (ks order : list string) :
  NoDup order -> NoDup (fold_left note_key ks order).
Proof.
  revert order; induction ks as [| k ks IH]; intros order Hnd; simpl; [assumption |].
  apply IH, note_key_NoDup, Hnd.
Qed.

Lemma visit_item_key_order (nm : string) (st st' : state) (item : string * value) :
  visit_item nm st item = Ok st' -> key_order st' = key_order st.
Proof.
  destruct item as [key v]. unfold visit_item. intros H. bind_inv H. destruct a.
  - bind_inv H. now inversion H.
  - destruct (get (non_numeric st) key) as [first |];
      [destruct (py_ne v first) |]; now inversion H.
Qed.

Lemma visit_items_key_order (nm : string) (its : list (string * value)) (st st' : state) :
  for_each (visit_item nm) its st = Ok st' -> key_order st' = key_order st.
Proof.
  revert st; induction its as [| it its IH]; simpl; intros st H.
  - now inversion H.
  - bind_inv H. rewrite (IH _ H). eapply visit_item_key_order; eauto.
Qed.

Lemma visit_item_tracked (nm : string) (st st' : state) (item : string * value) :
  visit_item nm st item = Ok st' ->
  In (fst item) (key_order st) -> tracked st -> tracked st'.
Proof.
  destruct item as [key v]. unfold visit_item, tracked. simpl. intros H Hin Ht k.
  bind_inv H. destruct a.
  - bind_inv H. inversion H; subst; clear H. simpl. rewrite mem_set.
    destruct (String.eqb_spec key k) as [<- | Hne]; simpl; auto.
  - destruct (get (non_numeric st) key) as [first |].
    + destruct (py_ne v first); inversion H; subst; clear H; simpl; auto.
    + inversion H; subst; clear H. simpl. rewrite mem_set.
      destruct (String.eqb_spec key k) as [<- | Hne]; simpl; auto.
Qed.

Lemma visit_items_tracked (nm : string) (its : list (string * value)) (st st' : state) :
  for_each (visit_item nm) its st = Ok st' ->
  (forall kv, In kv its -> In (fst kv) (key_order st)) -> tracked st -> tracked st'.
Proof.
  revert st; induction its as [| it its IH]; simpl; intros st H Hin Ht.
  - now inversion H; subst.
  - bind_inv H.
    assert (Hk : key_order a = key_order st) by (eapply visit_item_key_order; eauto).
    apply (IH a H).
    + intros kv Hkv. rewrite Hk. auto.
    + eapply visit_item_tracked; eauto.
Qed.

Lemma process_file_tracked (fs : filesystem) (st st' : state) (path : Path) :
  process_file fs st path = Ok st' ->
  tracked st -> NoDup (key_order st) -> tracked st' /\ NoDup (key_order st').
Proof.
  unfold process_file. intros H Ht Hnd. bind_inv H. bind_inv H.
  inversion H; subst; clear H. rename a into data, a0 into st2.
  set (st1 := mkState (sums st) (counts st) (non_numeric st)
                (fold_left note_key (keys data) (key_order st)) (warnings st)) in *.
  assert (Ht1 : tracked st1).
  { intros k Hk. simpl. apply note_keys_In. left. apply Ht, Hk. }
  assert (Hko : key_order st2 = key_order st1)
    by (eapply visit_items_key_order; eauto).
  split.
  - unfold tracked. simpl.
    apply (visit_items_tracked _ _ _ _ Ha0); [| assumption].
    intros kv Hkv. simpl. apply note_keys_In. right.
    unfold keys. now apply in_map.
  - simpl. rewrite Hko. simpl. now apply note_keys_NoDup.
Qed.

Lemma process_files_tracked (fs : filesystem) (paths : list Path) (st st' : state) :
  for_each (process_file fs) paths st = Ok st' ->
  tracked st -> NoDup (key_order st) -> tracked st' /\ NoDup (key_order st').
Proof.
  revert st; induction paths as [| p paths IH]; simpl; intros st H Ht Hnd.
  - inversion H; subst; auto.
  - bind_inv H. destruct (process_file_tracked _ _ _ _ Ha Ht Hnd). eauto.
Qed.

Lemma tracked_initial : tracked initial.
Proof. intros k [H | H]; discriminate. Qed.

(** C9.  Each item keeps the invariant that a summed key is counted at least
    once; so every state the file loop reaches from the initial one has it and
    holds no "Numeric key ... missing" diagnostic; and whenever
    [average_group] returns, none of its diagnostics is that one, none of its
    warning strings opens with its words, and every key of [key_order] that
    has a sum is in the result: the zero-count branch dropped nothing. *)
Theorem zero_count_guard_unreachable (fs : filesystem) (files : list Path) :
  (forall file_name st item st',
     visit_item file_name st item = Ok st' -> counted st -> counted st') /\
  (forall paths st,
     for_each (process_file fs) paths initial = Ok st ->
     counted st /\ Forall not_missing (warnings st)) /\
  (forall res ws,
     average_group_diags fs files = Ok (res, ws) ->
     Forall not_missing ws /\
     (forall w, In w (map render ws) -> String.prefix MISSING_PREFIX w = false) /\
     (forall st key,
        for_each (process_file fs) (sorted files) initial = Ok st ->
        In key (key_order st) -> mem (sums st) key = true -> mem res key = true)).
Proof.
  split; [| split].
  - intros nm st [key v] st' H Hc. unfold visit_item in H. bind_inv H. destruct a.
    + bind_inv H. inversion H; subst; clear H. intros k Hk. simpl in *.
      unfold get_default. rewrite get_set.
      destruct (String.eqb_spec key k) as [-> | Hne]; [lia |].
      rewrite mem_set in Hk. destruct (String.eqb_spec key k); [contradiction |].
      apply Hc, Hk.
    + destruct (get (non_numeric st) key) as [first |];
        [destruct (py_ne v first) |]; inversion H; subst; assumption.
  - intros paths st H.
    destruct (process_files_counted _ _ _ _ H counted_initial) as (Hc & Hw);
      [constructor |].
    split; [assumption | eapply Forall_impl; [apply consistency_not_missing | eassumption]].
  - intros res ws H.
    destruct (average_group_diags_inv _ _ _ _ H) as [(-> & -> & ->) | (Hne & st & Hrun & Hfin)].
    + repeat split; [constructor | intros w [] |].
      intros st key Hst. simpl in Hst. inversion Hst; subst. intros [].
    + destruct (process_files_counted _ _ _ _ Hrun counted_initial) as (Hc & Hw);
        [constructor |].
      destruct (process_files_tracked _ _ _ _ Hrun tracked_initial) as (Ht & Hnd);
        [constructor |].
      rewrite finish_spec in Hfin by (auto; intros k Hk; apply Ht; auto).
      injection Hfin as <- <-.
      assert (Hws : Forall not_missing
                      (warnings st ++ flat_map (coverage (List.length files) st)
                                        (key_order st))).
      { apply Forall_app; split; [| apply coverage_not_missing].
        eapply Forall_impl; [apply consistency_not_missing | eassumption]. }
      repeat split; [assumption | |].
      * intros w Hin. apply in_map_iff in Hin. destruct Hin as (d & <- & Hd).
        apply render_not_missing. rewrite Forall_forall in Hws. auto.
      * intros st0 key Hst0 Hkey Hsum. rewrite Hrun in Hst0. injection Hst0 as <-.
        rewrite mem_set. apply orb_true_iff. right.
        unfold mem at 1. rewrite get_store_fold.
        rewrite (proj2 (existsb_eqb_In key (key_order st)) Hkey).
        unfold emitted. rewrite Hsum. pose proof (Hc key Hsum).
        destruct (Nat.eqb_spec (get_default 0 (counts st) key) 0); [lia | reflexivity].
Qed.

Lemma zero_count_guard_unreachable_witness :
  exists res ws,
    average_group_diags Examples.disk [Examples.m1; Examples.m2; Examples.m3] = Ok (res, ws) /\
    Forall not_missing ws /\
    mem res "latency_ms" = true.
Proof.
  destruct (zero_count_guard_unreachable Examples.disk
              [Examples.m1; Examples.m2; Examples.m3]) as (_ & _ & Hout).
  assert (Hrun : exists res ws,
             average_group_diags Examples.disk
               [Examples.m1; Examples.m2; Examples.m3] = Ok (res, ws))
    by (eexists; eexists; vm_compute; reflexivity).
  destruct Hrun as (res & ws & Hrun).
  destruct (Hout res ws Hrun) as (Hnm & _ & Hkeep).
  exists res, ws. split; [exact Hrun | split; [exact Hnm |]].
  assert (Hst : exists st,
             for_each (process_file Examples.disk)
               (sorted [Examples.m1; Examples.m2; Examples.m3]) initial = Ok st /\
             In "latency_ms" (key_order st) /\ mem (sums st) "latency_ms" = true).
  { eexists. split; [vm_compute; reflexivity | split].
    - do 3 right. left. reflexivity.
    - vm_compute. reflexivity. }
  destruct Hst as (st & Hst & Hin & Hsum).
  exact (Hkeep st "latency_ms" Hst Hin Hsum).
Defined.

End TrackedFacts.

(** ** The file loop, key by key *)

Section ViewFacts.
Import PyDict AverageStatistics Cohort.

Lemma is_number_true (v : value) :
  is_number v = Ok true -> exists f, py_float v = Ok f /\ numeric_value v = Some f.
Proof.
  unfold numeric_value. intros H. rewrite H.
  destruct v; simpl in H; try discriminate.
  - bind_inv H. exists a. simpl. rewrite Ha. auto.
  - exists f. auto.
Qed.

Lemma is_number_false (v : value) : is_number v = Ok false -> numeric_value v = None.
Proof.
  unfold numeric_value. now intros ->.
Qed.

Lemma inconsistencies_app (key : string) (ws ws' : list diagnostic) :
  inconsistencies key (ws ++ ws') = inconsistencies key ws ++ inconsistencies key ws'.
Proof. apply filter_app. Qed.

Lemma visit_item_view (nm : string) (st : state) (k0 : string) (v : value) :
  classified v = true ->
  exists st',
    visit_item nm st (k0, v) = Ok st' /\
    forall k,
      view_of k st' =
      if String.eqb k0 k then view_step nm k v (view_of k st) else view_of k st.
Proof.
  unfold classified. intros Hcl. unfold visit_item.
  destruct (is_number v) as [[|] | e] eqn:En; [| | discriminate]; simpl.
  - destruct (is_number_true v En) as (f & Hf & Hnv). rewrite Hf. simpl.
    eexists; split; [reflexivity |]. intros k. unfold view_of, view_step. simpl.
    rewrite Hnv, !get_set. unfold get_default, or_default.
    destruct (String.eqb_spec k0 k) as [<- | Hne]; reflexivity.
  - pose proof (is_number_false v En) as Hnv.
    destruct (get (non_numeric st) k0) as [first |] eqn:Eg.
    + destruct (py_ne v first) eqn:Ene.
      * eexists; split; [reflexivity |]. intros k. unfold view_of, view_step. simpl.
        rewrite Hnv, inconsistencies_app. simpl.
        destruct (String.eqb_spec k0 k) as [<- | Hne].
        -- now rewrite Eg, Ene.
        -- now rewrite app_nil_r.
      * exists st; split; [reflexivity |]. intros k. unfold view_of, view_step.
        rewrite Hnv. destruct (String.eqb_spec k0 k) as [<- | Hne]; [| reflexivity].
        now rewrite Eg, Ene.
    + eexists; split; [reflexivity |]. intros k. unfold view_of, view_step. simpl.
      rewrite Hnv, get_set.
      destruct (String.eqb_spec k0 k) as [<- | Hne]; [| reflexivity].
      now rewrite Eg.
Qed.

Lemma visit_items_view (nm : string) (its : list (string * value)) (st : state) :
  NoDup (keys its) ->
  forallb (fun kv => classified (snd kv)) its = true ->
  exists st',
    for_each (visit_item nm) its st = Ok st' /\
    forall k,
      view_of k st' =
      match get its k with
      | Some v => view_step nm k v (view_of k st)
      | None => view_of k st
      end.
Proof.
  revert st; induction its as [| [k0 v] its IH]; intros st Hnd Hcl.
  - exists st. split; reflexivity.
  - unfold keys in Hnd. simpl in Hnd, Hcl. apply andb_true_iff in Hcl.
    destruct Hcl as [Hv Hrest]. inversion Hnd as [| ? ? Hnotin Hnd']; subst.
    destruct (visit_item_view nm st k0 v Hv) as (st1 & H1 & Hview1).
    destruct (IH st1 Hnd' Hrest) as (st2 & H2 & Hview2).
    exists st2. split.
    + cbn [for_each]. rewrite H1. exact H2.
    + intros k. rewrite Hview2, Hview1. cbn [get].
      destruct (String.eqb_spec k0 k) as [<- | Hne]; [| reflexivity].
      apply get_none_keys in Hnotin. now rewrite Hnotin.
Qed.

Lemma check_missing_inconsistencies (nm : string) (st : state) (ks : list string)
  (ws : list diagnostic) (k : string) :
  inconsistencies k (fold_left (check_missing nm st) ks ws) = inconsistencies k ws.
Proof.
  revert ws; induction ks as [| k0 ks IH]; intros ws; simpl; [reflexivity |].
  rewrite IH. unfold check_missing.
  destruct (Nat.eqb _ 0); [| reflexivity].
  rewrite inconsistencies_app. simpl. apply app_nil_r.
Qed.

Lemma read_json_NoDup (fs : filesystem) (path : Path) (data : dict value) :
  read_json fs path = Ok data -> NoDup (keys data).
Proof.
  unfold read_json. intros H. bind_inv H. destruct a; [| discriminate].
  injection H as <-. apply NoDup_keys_of_pairs.
Qed.

Lemma process_file_view (fs : filesystem) (st : state) (path : Path) :
  loadable fs path = true ->
  exists st',
    process_file fs st path = Ok st' /\
    forall k,
      view_of k st' =
      match get (content fs path) k with
      | Some v => view_step (name path) k v (view_of k st)
      | None => view_of k st
      end.
Proof.
  unfold loadable, content, process_file. intros Hl.
  destruct (read_json fs path) as [data | e] eqn:Er; [| discriminate]. simpl.
  set (st1 := mkState _ _ _ _ _).
  destruct (visit_items_view (name path) data st1 (read_json_NoDup _ _ _ Er) Hl)
    as (st2 & H2 & Hview).
  unfold items. rewrite H2. simpl. eexists; split; [reflexivity |].
  intros k. specialize (Hview k). unfold view_of in *. simpl.
  rewrite check_missing_inconsistencies. exact Hview.
Qed.

Lemma occurrences_snoc (k : string) (recs : list record) (nm : string) (data : dict value) :
  occurrences k (recs ++ [(nm, data)]) =
  occurrences k recs ++ match get data k with Some v => [(nm, v)] | None => [] end.
Proof.
  unfold occurrences. rewrite flat_map_app. simpl. now rewrite app_nil_r.
Qed.

Lemma float_sum_snoc (vs : list float) (f : float) :
  float_sum (vs ++ [f]) = PrimFloat.add (float_sum vs) f.
Proof.
  unfold float_sum. now rewrite fold_left_app.
Qed.

Lemma view_after_snoc (k : string) (recs : list record) (nm : string) (data : dict value) :
  view_after k (recs ++ [(nm, data)]) =
  match get data k with
  | Some v => view_step nm k v (view_after k recs)
  | None => view_after k recs
  end.
Proof.
  unfold view_after, first_seen, conflicts, numeric_values, non_numeric_occurrences.
  rewrite occurrences_snoc.
  destruct (get data k) as [v |]; [| now rewrite app_nil_r].
  rewrite flat_map_app, filter_app. unfold view_step. simpl.
  destruct (numeric_value v) as [f |] eqn:Ev; simpl.
  - rewrite app_nil_r.
    set (vs := flat_map _ (occurrences k recs)).
    destruct vs as [| f0 l]; [reflexivity |].
    cbn [app]. change (f0 :: l ++ [f]) with ((f0 :: l) ++ [f]).
    rewrite float_sum_snoc, length_app. cbn [or_default List.length].
    reflexivity.
  - rewrite app_nil_r.
    destruct (filter _ (occurrences k recs)) as [| [nm0 first] later]; simpl.
    + reflexivity.
    + rewrite flat_map_app. simpl. rewrite app_nil_r.
      destruct (py_ne v first); [reflexivity | now rewrite app_nil_r].
Qed.

Lemma process_files_view (fs : filesystem) (paths : list Path) (st : state)
  (recs : list record) :
  forallb (loadable fs) paths = true ->
  (forall k, view_of k st = view_after k recs) ->
  exists st',
    for_each (process_file fs) paths st = Ok st' /\
    forall k,
      view_of k st' =
      view_after k (recs ++ map (fun path => (name path, content fs path)) paths).
Proof.
  revert st recs; induction paths as [| p paths IH]; intros st recs Hl Hview.
  - exists st. split; [reflexivity |]. intros k. simpl. now rewrite app_nil_r.
  - simpl in Hl. apply andb_true_iff in Hl. destruct Hl as [Hp Hrest].
    destruct (process_file_view fs st p Hp) as (st1 & H1 & Hview1).
    destruct (IH st1 (recs ++ [(name p, content fs p)]) Hrest) as (st2 & H2 & Hview2).
    { intros k. rewrite Hview1, view_after_snoc, Hview. reflexivity. }
    exists st2. split.
    + cbn [for_each]. rewrite H1. exact H2.
    + intros k. rewrite Hview2. simpl. now rewrite <- app_assoc.
Qed.

End ViewFacts.

(** ** Sorting the files *)

Section SortingFacts.
Import AverageStatistics.

Lemma ascii_compare_refl (a : ascii) : Ascii.compare a a = Eq.
Proof. unfold Ascii.compare. apply N.compare_refl. Qed.

Lemma ascii_compare_lt_trans (a b c : ascii) :
  Ascii.compare a b = Lt -> Ascii.compare b c = Lt -> Ascii.compare a c = Lt.
Proof.
  unfold Ascii.compare. rewrite !N.compare_lt_iff. apply N.lt_trans.
Qed.

Lemma string_compare_refl (s : string) : String.compare s s = Eq.
Proof.
  induction s as [| c s IH]; simpl; [reflexivity |].
  now rewrite ascii_compare_refl.
Qed.

Lemma string_compare_eq (s t : string) : String.compare s t = Eq <-> s = t.
Proof.
  split; [apply String.compare_eq_iff | intros ->; apply string_compare_refl].
Qed.

Lemma string_compare_lt_trans (s t u : string) :
  String.compare s t = Lt -> String.compare t u = Lt -> String.compare s u = Lt.
Proof.
  revert t u; induction s as [| a s IH]; intros [| b t] [| c u]; simpl;
    try discriminate; auto.
  destruct (Ascii.compare a b) eqn:Eab; try discriminate;
    destruct (Ascii.compare b c) eqn:Ebc; try discriminate; intros H1 H2.
  - apply Ascii.compare_eq_iff in Eab, Ebc. subst.
    rewrite ascii_compare_refl. eauto.
  - apply Ascii.compare_eq_iff in Eab. subst. now rewrite Ebc.
  - apply Ascii.compare_eq_iff in Ebc. subst. now rewrite Eab.
  - now rewrite (ascii_compare_lt_trans _ _ _ Eab Ebc).
Qed.

Lemma string_compare_trans (s t u : string) (c : comparison) :
  String.compare s t = c -> String.compare t u = c -> String.compare s u = c.
Proof.
  destruct c; intros H1 H2.
  - apply string_compare_eq in H1, H2. subst. apply string_compare_refl.
  - eapply string_compare_lt_trans; eauto.
  - rewrite String.compare_antisym in H1, H2 |- *.
    destruct (String.compare t s) eqn:E1; try discriminate.
    destruct (String.compare u t) eqn:E2; try discriminate.
    now rewrite (string_compare_lt_trans _ _ _ E2 E1).
Qed.

Lemma path_compare_eq (p q : Path) : path_compare p q = Eq <-> p = q.
Proof. apply list_compare_refl, string_compare_eq. Qed.

Lemma path_compare_antisym (p q : Path) : path_compare q p = CompOpp (path_compare p q).
Proof.
  apply list_compare_antisym; [apply string_compare_eq |].
  intros x y. apply String.compare_antisym.
Qed.

Lemma path_compare_trans (p q r : Path) (c : comparison) :
  path_compare p q = c -> path_compare q r = c -> path_compare p r = c.
Proof.
  apply list_compare_trans.
  - apply string_compare_eq.
  - intros x y z c0. apply string_compare_trans.
  - intros x y. apply String.compare_antisym.
Qed.

Lemma path_lt_compare (p q : Path) : path_lt p q = true <-> path_compare p q = Lt.
Proof.
  unfold path_lt. destruct (path_compare p q); split; congruence.
Qed.

Lemma path_lt_asym (p q : Path) : path_lt p q = true -> path_lt q p = false.
Proof.
  rewrite path_lt_compare. intros H. apply not_true_is_false.
  rewrite path_lt_compare, path_compare_antisym, H. discriminate.
Qed.

Lemma path_lt_antisym (p q : Path) : path_lt p q = false -> path_lt q p = false -> p = q.
Proof.
  intros H1 H2. apply path_compare_eq.
  destruct (path_compare p q) eqn:E; [reflexivity | |].
  - apply path_lt_compare in E. congruence.
  - assert (path_lt q p = true); [| congruence].
    apply path_lt_compare. now rewrite path_compare_antisym, E.
Qed.

Lemma path_le_lt_trans (x q y : Path) :
  path_lt q x = false -> path_lt q y = true -> path_lt x y = true.
Proof.
  intros H1 H2. apply path_lt_compare in H2. apply path_lt_compare.
  destruct (path_compare q x) eqn:E.
  - apply path_compare_eq in E. now subst.
  - apply path_lt_compare in E. congruence.
  - apply (path_compare_trans x q y); [| assumption].
    now rewrite path_compare_antisym, E.
Qed.

Lemma insert_two (x y : Path) (l : list Path) :
  (if path_lt y x then y :: x :: l else x :: y :: l) =
  (if path_lt x y then x :: y :: l else y :: x :: l).
Proof.
  destruct (path_lt y x) eqn:Eyx, (path_lt x y) eqn:Exy; auto.
  - apply path_lt_asym in Eyx. congruence.
  - now rewrite (path_lt_antisym _ _ Exy Eyx).
Qed.

Lemma insert_insert (x y : Path) (l : list Path) :
  insert x (insert y l) = insert y (insert x l).
Proof.
  induction l as [| q l IH]; cbn [insert].
  - apply insert_two.
  - destruct (path_lt q y) eqn:Eqy, (path_lt q x) eqn:Eqx; cbn [insert];
      rewrite ?Eqy, ?Eqx.
    + now rewrite IH.
    + now rewrite (path_le_lt_trans _ _ _ Eqx Eqy).
    + now rewrite (path_le_lt_trans _ _ _ Eqy Eqx).
    + apply insert_two.
Qed.

Lemma insert_Permutation (x : Path) (l : list Path) : Permutation (insert x l) (x :: l).
Proof.
  induction l as [| q l IH]; simpl; [reflexivity |].
  destruct (path_lt q x); [| reflexivity].
  rewrite IH. apply perm_swap.
Qed.

Lemma sorted_Permutation (l : list Path) : Permutation (sorted l) l.
Proof.
  induction l as [| x l IH]; simpl; [reflexivity |].
  rewrite insert_Permutation. now constructor.
Qed.

Lemma sorted_permuted (l l' : list Path) : Permutation l l' -> sorted l = sorted l'.
Proof.
  induction 1 as [| x l l' _ IH | x y l | l l' l'' _ IH1 _ IH2]; simpl.
  - reflexivity.
  - now rewrite IH.
  - apply insert_insert.
  - congruence.
Qed.

Lemma sorted_length (l : list Path) : List.length (sorted l) = List.length l.
Proof. apply Permutation_length, sorted_Permutation. Qed.

(** The sorted list is in order: no later path is below an earlier one. *)
Lemma insert_ordered (x : Path) (l : list Path) :
  StronglySorted (fun p q => path_lt q p = false) l ->
  StronglySorted (fun p q => path_lt q p = false) (insert x l).
Proof.
  induction 1 as [| q l Hs IH Hq]; simpl.
  - repeat constructor.
  - destruct (path_lt q x) eqn:E.
    + constructor; [assumption |].
      rewrite Forall_forall in *. intros z Hz.
      apply (Permutation_in _ (insert_Permutation x l)) in Hz.
      destruct Hz as [<- | Hz]; [now apply path_lt_asym | auto].
    + constructor; [now constructor |].
      constructor; [assumption |].
      rewrite Forall_forall in *. intros z Hz.
      destruct (path_lt z x) eqn:Ez; [| reflexivity].
      rewrite (path_le_lt_trans q z x (Hq z Hz) Ez) in E. discriminate.
Qed.

Lemma sorted_ordered (l : list Path) :
  StronglySorted (fun p q => path_lt q p = false) (sorted l).
Proof.
  induction l as [| x l IH]; simpl; [constructor | now apply insert_ordered].
Qed.

End SortingFacts.

(** ** What [average_group] returns on a cohort that loads *)

Section AggregateFacts.
Import PyDict AverageStatistics Cohort.

Lemma coverages_app (key : string) (ws ws' : list diagnostic) :
  coverages key (ws ++ ws') = coverages key ws ++ coverages key ws'.
Proof. apply filter_app. Qed.

Lemma coverages_consistency (key : string) (ws : list diagnostic) :
  Forall consistency_only ws -> coverages key ws = [].
Proof.
  induction 1 as [| d ws Hd _ IH]; simpl; [reflexivity |].
  destruct d; simpl in *; try contradiction. assumption.
Qed.

Lemma coverages_coverage (total : nat) (st : state) (k0 key : string) :
  coverages key (coverage total st k0) =
  if String.eqb k0 key then coverage total st k0 else [].
Proof.
  unfold coverage. destruct (mem (sums st) k0); [| now destruct (String.eqb k0 key)].
  destruct (_ || _); simpl; now destruct (String.eqb k0 key).
Qed.

Lemma coverages_flat_map (total : nat) (st : state) (ks : list string) (key : string) :
  NoDup ks ->
  coverages key (flat_map (coverage total st) ks) =
  if existsb (String.eqb key) ks then coverage total st key else [].
Proof.
  induction 1 as [| k0 ks Hnotin _ IH]; simpl; [reflexivity |].
  rewrite coverages_app, coverages_coverage, IH.
  destruct (String.eqb_spec k0 key) as [-> | Hne].
  - rewrite String.eqb_refl. simpl.
    destruct (existsb (String.eqb key) ks) eqn:E.
    + apply existsb_eqb_In in E. contradiction.
    + apply app_nil_r.
  - destruct (String.eqb_spec key k0); [congruence | reflexivity].
Qed.

Lemma inconsistencies_coverage (total : nat) (st : state) (ks : list string) (key : string) :
  inconsistencies key (flat_map (coverage total st) ks) = [].
Proof.
  induction ks as [| k0 ks IH]; simpl; [reflexivity |].
  rewrite inconsistencies_app, IH, app_nil_r. unfold coverage.
  destruct (mem (sums st) k0); [| reflexivity]. now destruct (_ || _).
Qed.

Lemma loadable_sorted (fs : filesystem) (files : list Path) :
  forallb (loadable fs) files = true -> forallb (loadable fs) (sorted files) = true.
Proof.
  rewrite !forallb_forall. intros H p Hp. apply H.
  eapply Permutation_in; [apply sorted_Permutation | assumption].
Qed.

(** The aggregate record and the diagnostics in terms of the records. *)
Lemma average_group_diags_spec (fs : filesystem) (files : list Path) :
  files <> [] ->
  forallb (loadable fs) files = true ->
  exists res ws,
    average_group_diags fs files = Ok (res, ws) /\
    get res RUNS = Some (VInt (Z.of_nat (List.length files))) /\
    (forall k, k <> RUNS -> get res k = expected k (records fs files)) /\
    (forall k, inconsistencies k ws = conflicts k (records fs files)) /\
    (forall k,
       coverages k ws =
       match numeric_values k (records fs files) with
       | [] => []
       | vs =>
           if Nat.eqb (List.length vs) (List.length files) then []
           else [Coverage k (List.length vs) (List.length files)]
       end) /\
    Forall not_missing ws.
Proof.
  intros Hne Hload.
  destruct (process_files_view fs (sorted files) initial [] (loadable_sorted _ _ Hload))
    as (st & Hrun & Hview); [reflexivity |].
  simpl in Hview. fold (records fs files) in Hview.
  destruct (process_files_counted _ _ _ _ Hrun counted_initial) as (Hc & Hw);
    [constructor |].
  destruct (process_files_tracked _ _ _ _ Hrun tracked_initial) as (Ht & Hnd);
    [constructor |].
  exists (set (fold_left (store st) (key_order st) empty) RUNS
            (VInt (Z.of_nat (List.length files)))),
    (warnings st ++ flat_map (coverage (List.length files) st) (key_order st)).
  assert (Hsum : forall k,
             get (sums st) k =
             match numeric_values k (records fs files) with
             | [] => None | vs => Some (float_sum vs) end)
    by (intros k; specialize (Hview k); unfold view_of, view_after in Hview; congruence).
  assert (Hcount : forall k,
             get (counts st) k =
             match numeric_values k (records fs files) with
             | [] => None | vs => Some (List.length vs) end)
    by (intros k; specialize (Hview k); unfold view_of, view_after in Hview; congruence).
  assert (Hfirst : forall k, get (non_numeric st) k = first_seen k (records fs files))
    by (intros k; specialize (Hview k); unfold view_of, view_after in Hview; congruence).
  assert (Hconf : forall k,
             inconsistencies k (warnings st) = conflicts k (records fs files))
    by (intros k; specialize (Hview k); unfold view_of, view_after in Hview; congruence).
  assert (Hemit : forall k, In k (key_order st) -> emitted st k = expected k (records fs files)).
  { intros k _. unfold emitted, expected, mem, get_default, average.
    rewrite Hsum, Hcount, Hfirst.
    destruct (numeric_values k (records fs files)); reflexivity. }
  split; [| split; [| split; [| split; [| split]]]].
  - unfold average_group_diags. destruct files as [| p files]; [congruence |].
    rewrite Hrun. simpl. f_equal. apply finish_spec; [assumption |].
    intros k Hk. apply Ht. now left.
  - apply get_set_same.
  - intros k Hk. rewrite get_set_other by congruence. rewrite get_store_fold.
    destruct (existsb (String.eqb k) (key_order st)) eqn:E.
    + apply existsb_eqb_In in E. rewrite (Hemit k E).
      now destruct (expected k (records fs files)).
    + assert (Hnot : ~ In k (key_order st))
        by (intros Hin; apply existsb_eqb_In in Hin; congruence).
      unfold expected. simpl.
      assert (Hs : mem (sums st) k = false)
        by (apply not_true_is_false; intros Hm; apply Hnot, Ht; now left).
      assert (Hn : mem (non_numeric st) k = false)
        by (apply not_true_is_false; intros Hm; apply Hnot, Ht; now right).
      unfold mem in Hs, Hn. rewrite Hsum in Hs. rewrite Hfirst in Hn.
      destruct (numeric_values k (records fs files)); [| discriminate].
      now destruct (first_seen k (records fs files)).
  - intros k. rewrite inconsistencies_app, inconsistencies_coverage, app_nil_r. apply Hconf.
  - intros k. rewrite coverages_app, (coverages_consistency k _ Hw).
    rewrite (coverages_flat_map _ _ _ _ Hnd). simpl.
    destruct (existsb (String.eqb k) (key_order st)) eqn:E.
    + unfold coverage, mem, get_default. rewrite Hsum, Hcount.
      destruct (numeric_values k (records fs files)) as [| f vs]; [reflexivity |].
      reflexivity.
    + assert (Hs : mem (sums st) k = false).
      { apply not_true_is_false. intros Hm.
        assert (Hin : In k (key_order st)) by (apply Ht; now left).
        apply existsb_eqb_In in Hin. congruence. }
      unfold mem in Hs. rewrite Hsum in Hs.
      now destruct (numeric_values k (records fs files)).
  - apply Forall_app. split; [| apply coverage_not_missing].
    eapply Forall_impl; [apply consistency_not_missing | eassumption].
Qed.

Lemma average_group_render (fs : filesystem) (files : list Path)
  (res : dict value) (ws : list diagnostic) :
  average_group_diags fs files = Ok (res, ws) ->
  average_group fs files = Ok (res, map render ws).
Proof.
  unfold average_group. now intros ->.
Qed.

Lemma occurrences_length (key : string) (recs : list record) :
  List.length (occurrences key recs) <= List.length recs.
Proof.
  unfold occurrences. induction recs as [| r recs IH]; simpl; [lia |].
  rewrite length_app. destruct (get (snd r) key); simpl; lia.
Qed.

Lemma numeric_values_length (key : string) (recs : list record) :
  List.length (numeric_values key recs) <= List.length recs.
Proof.
  apply Nat.le_trans with (List.length (occurrences key recs));
    [| apply occurrences_length].
  unfold numeric_values. induction (occurrences key recs) as [| o os IH]; simpl; [lia |].
  rewrite length_app. destruct (numeric_value (snd o)); simpl; lia.
Qed.

Lemma records_length (fs : filesystem) (files : list Path) :
  List.length (records fs files) = List.length files.
Proof.
  unfold records. now rewrite length_map, sorted_length.
Qed.

End AggregateFacts.

(** ** The claims about [average_group] *)

Section AggregateClaims.
Import PyDict AverageStatistics Cohort Examples.

Lemma coverages_In (key : string) (ws : list diagnostic) (c t : nat) :
  In (Coverage key c t) ws <-> In (Coverage key c t) (coverages key ws).
Proof.
  unfold coverages. rewrite filter_In, String.eqb_refl. tauto.
Qed.

(** C1 (amended).  In a cohort of [N] files that loads, let [vs] be the
    values of the numeric occurrences of a field other than
    ["number of runs"], in processing order, and [M] their number, at least
    one.  Then [M <= N], [average_group] returns, the aggregate record maps
    the field to [(v1 + ... + vM) / M], and the diagnostics hold the coverage
    one for the field, [M/N], exactly once when [M < N] and not at all
    otherwise. *)
Theorem average_correct (fs : filesystem) (files : list Path) (key : string) :
  files <> [] ->
  forallb (loadable fs) files = true ->
  key <> RUNS ->
  numeric_values key (records fs files) <> [] ->
  let vs := numeric_values key (records fs files) in
  let M := List.length vs in
  let N := List.length files in
  M <= N /\
  exists res ws,
    average_group_diags fs files = Ok (res, ws) /\
    average_group fs files = Ok (res, map render ws) /\
    get res key = Some (VFloat (PyFloat.div_count (float_sum vs) M)) /\
    coverages key ws = (if (M <? N)%nat then [Coverage key M N] else []) /\
    ((exists c t, In (Coverage key c t) ws) <-> M < N).
Proof.
  intros Hne Hload Hkey Hvs. cbv zeta.
  pose proof (numeric_values_length key (records fs files)) as HMN.
  rewrite records_length in HMN.
  destruct (average_group_diags_spec fs files Hne Hload)
    as (res & ws & Hrun & _ & Hres & _ & Hcov & _).
  specialize (Hres key Hkey). specialize (Hcov key). unfold expected in Hres.
  destruct (numeric_values key (records fs files)) as [| f l] eqn:E; [congruence |].
  cbv zeta in Hcov.
  set (M := List.length (f :: l)) in *. set (N := List.length files) in *.
  assert (Hc : coverages key ws = (if (M <? N)%nat then [Coverage key M N] else [])).
  { rewrite Hcov. destruct (Nat.eqb_spec M N), (Nat.ltb_spec M N); try reflexivity; lia. }
  split; [assumption |]. exists res, ws. repeat split.
  - assumption.
  - now apply average_group_render.
  - assumption.
  - assumption.
  - intros (c & t & Hin). apply coverages_In in Hin. rewrite Hc in Hin.
    destruct (Nat.ltb_spec M N); [assumption | contradiction].
  - intros Hlt. exists M, N. apply coverages_In. rewrite Hc.
    destruct (Nat.ltb_spec M N); [now left | lia].
Qed.

Lemma average_correct_witness :
  exists res ws,
    average_group disk [m3; m1; m2] = Ok (res, map render ws) /\
    get res "latency_ms" = Some (VFloat 15%float) /\
    coverages "latency_ms" ws = [Coverage "latency_ms" 2 3].
Proof.
  destruct (average_correct disk [m3; m1; m2] "latency_ms")
    as (_ & res & ws & _ & Hrun & Hres & Hcov & _).
  - discriminate.
  - reflexivity.
  - discriminate.
  - vm_compute. discriminate.
  - exists res, ws. split; [exact Hrun | split].
    + rewrite Hres. reflexivity.
    + rewrite Hcov. reflexivity.
Defined.

(** C1 as stated fails for the field ["number of runs"]: one file holding
    [5] there gives the numeric values [[5.0]], whose average is [5.0], while
    the aggregate record maps the field to the run count [1]. *)
Lemma average_correct_counterexample :
  numeric_values RUNS (records disk [r1]) = [5%float] /\
  exists res ws,
    average_group disk [r1] = Ok (res, ws) /\
    get res RUNS = Some (VInt 1) /\
    get res RUNS <> Some (VFloat (PyFloat.div_count (float_sum [5%float]) 1)).
Proof.
  split; [vm_compute; reflexivity |].
  eexists; eexists. split; [vm_compute; reflexivity |].
  split; [vm_compute; reflexivity | vm_compute; discriminate].
Qed.

(** C2.  For a cohort that is not empty, whenever [average_group] returns,
    the aggregate record maps ["number of runs"] to the number of files,
    whatever the records hold under that name; and it does return on every
    cohort that loads. *)
Theorem run_count_invariant (fs : filesystem) (files : list Path) :
  files <> [] ->
  (forall res warns,
     average_group fs files = Ok (res, warns) ->
     get res RUNS = Some (VInt (Z.of_nat (List.length files)))) /\
  (forallb (loadable fs) files = true ->
   exists res warns, average_group fs files = Ok (res, warns)).
Proof.
  intros Hne. split.
  - intros res warns H. unfold average_group in H. bind_inv H.
    destruct a as [res' ws]. injection H as <- <-.
    destruct (average_group_diags_inv _ _ _ _ Ha) as [(-> & _) | (_ & st & _ & Hfin)];
      [congruence |].
    unfold finish in Hfin. destruct (fold_left _ (key_order st) _) as [r w].
    injection Hfin as <- <-. apply get_set_same.
  - intros Hload.
    destruct (average_group_diags_spec fs files Hne Hload) as (res & ws & Hrun & _).
    exists res, (map render ws). now apply average_group_render.
Qed.

Lemma run_count_invariant_witness :
  exists res warns,
    average_group disk [r1; r2; r3] = Ok (res, warns) /\
    get res RUNS = Some (VInt 3).
Proof.
  destruct (run_count_invariant disk [r1; r2; r3]) as (Hret & Htotal);
    [discriminate |].
  destruct (Htotal eq_refl) as (res & warns & Hrun).
  exists res, warns. split; [exact Hrun | exact (Hret res warns Hrun)].
Defined.

Lemma numeric_value_bool (b : bool) : numeric_value (VBool b) = None.
Proof. reflexivity. Qed.

Lemma numeric_value_not_finite (f : float) :
  PrimFloat.is_finite f = false -> numeric_value (VFloat f) = None.
Proof.
  intros H. unfold numeric_value. simpl. now rewrite H.
Qed.

(** C3 (amended).  In a cohort that loads, take a field with at least one
    non-numeric occurrence, [first] being the value of the first in processing
    order and [later] the others.  [average_group] returns; the file loop ends
    with [first] as the retained value; the consistency diagnostics about the
    field are, in order, exactly one for each occurrence of [later] whose
    value is [!=] to [first], naming the field and the file of that
    occurrence; and when the field has no numeric occurrence and is not
    ["number of runs"], the aggregate record maps it to [first]. *)
Theorem first_seen_wins (fs : filesystem) (files : list Path) (key : string)
  (file0 : string) (first : value) (later : list (string * value)) :
  files <> [] ->
  forallb (loadable fs) files = true ->
  non_numeric_occurrences key (records fs files) = (file0, first) :: later ->
  exists res ws st,
    average_group_diags fs files = Ok (res, ws) /\
    average_group fs files = Ok (res, map render ws) /\
    for_each (process_file fs) (sorted files) initial = Ok st /\
    get (non_numeric st) key = Some first /\
    inconsistencies key ws =
      flat_map
        (fun o : string * value =>
           if py_ne (snd o) first then [Inconsistent key (fst o)] else [])
        later /\
    (key <> RUNS -> numeric_values key (records fs files) = [] ->
     get res key = Some first).
Proof.
  intros Hne Hload Hocc.
  destruct (average_group_diags_spec fs files Hne Hload)
    as (res & ws & Hrun & _ & Hres & Hconf & _).
  destruct (process_files_view fs (sorted files) initial [] (loadable_sorted _ _ Hload))
    as (st & Hst & Hview); [reflexivity |].
  exists res, ws, st. repeat split.
  - assumption.
  - now apply average_group_render.
  - assumption.
  - specialize (Hview key). simpl in Hview. fold (records fs files) in Hview.
    unfold view_of, view_after in Hview.
    injection Hview as _ _ Hfirst _. rewrite Hfirst. unfold first_seen. now rewrite Hocc.
  - rewrite Hconf. unfold conflicts. now rewrite Hocc.
  - intros Hkey Hnum. rewrite (Hres key Hkey). unfold expected, first_seen.
    now rewrite Hnum, Hocc.
Qed.

Lemma first_seen_wins_witness :
  exists res ws,
    average_group disk [m2; m3; m1] = Ok (res, map render ws) /\
    inconsistencies "status" ws =
      [Inconsistent "status" "model_x_size1_merge2_id218_summary.json"] /\
    get res "status" = Some (VStr "ok").
Proof.
  destruct (first_seen_wins disk [m2; m3; m1] "status"
              "model_x_size1_merge2_id211_summary.json" (VStr "ok")
              [("model_x_size1_merge2_id218_summary.json", VStr "retry");
               ("model_x_size1_merge2_id305_summary.json", VStr "ok")])
    as (res & ws & st & _ & Hrun & _ & _ & Hconf & Hres).
  - discriminate.
  - reflexivity.
  - reflexivity.
  - exists res, ws. split; [exact Hrun | split].
    + rewrite Hconf. reflexivity.
    + apply Hres; [discriminate | reflexivity].
Defined.

(** C3 as stated fails for a field that also has a numeric occurrence: [x]
    is ["ok"], then ["retry"], then [1]; it has two non-numeric occurrences,
    but the aggregate record holds the average [1.0], not the first-seen
    ["ok"]. *)
Lemma first_seen_wins_counterexample :
  non_numeric_occurrences "x" (records disk [r1; r2; r3]) =
    [("rerun_id1_summary.json", VStr "ok"); ("rerun_id2_summary.json", VStr "retry")] /\
  exists res ws,
    average_group disk [r1; r2; r3] = Ok (res, ws) /\
    get res "x" = Some (VFloat 1%float) /\
    get res "x" <> Some (VStr "ok").
Proof.
  split; [vm_compute; reflexivity |].
  eexists; eexists. split; [vm_compute; reflexivity |].
  split; [vm_compute; reflexivity | vm_compute; discriminate].
Qed.

(** C5 (amended).  Classification is per occurrence: a [bool] and a float
    that is not finite are never numeric.  In a cohort that loads, for a field
    other than ["number of runs"] with at least one numeric occurrence, the
    aggregate record holds the average of the numeric occurrences alone,
    while the consistency diagnostics about the field are those of its
    non-numeric occurrences alone, first-seen against later. *)
Theorem per_occurrence_classification (fs : filesystem) (files : list Path)
  (key : string) :
  files <> [] ->
  forallb (loadable fs) files = true ->
  key <> RUNS ->
  numeric_values key (records fs files) <> [] ->
  (forall b, is_number (VBool b) = Ok false) /\
  (forall f, PrimFloat.is_finite f = false -> is_number (VFloat f) = Ok false) /\
  exists res ws,
    average_group_diags fs files = Ok (res, ws) /\
    average_group fs files = Ok (res, map render ws) /\
    get res key =
      Some (VFloat (PyFloat.div_count
                      (float_sum (numeric_values key (records fs files)))
                      (List.length (numeric_values key (records fs files))))) /\
    inconsistencies key ws =
      match non_numeric_occurrences key (records fs files) with
      | [] => []
      | (_, first) :: later =>
          flat_map
            (fun o : string * value =>
               if py_ne (snd o) first then [Inconsistent key (fst o)] else [])
            later
      end.
Proof.
  intros Hne Hload Hkey Hvs.
  split; [reflexivity | split].
  - intros f Hf. simpl. now rewrite Hf.
  - destruct (average_group_diags_spec fs files Hne Hload)
      as (res & ws & Hrun & _ & Hres & Hconf & _).
    exists res, ws. repeat split.
    + assumption.
    + now apply average_group_render.
    + rewrite (Hres key Hkey). unfold expected.
      destruct (numeric_values key (records fs files)); [congruence | reflexivity].
    + apply Hconf.
Qed.

Lemma per_occurrence_classification_witness :
  exists res ws,
    average_group mixed [m1; m2; m3] = Ok (res, map render ws) /\
    get res "cache" = Some (VFloat 3%float) /\
    inconsistencies "cache" ws =
      [Inconsistent "cache" "model_x_size1_merge2_id305_summary.json"] /\
    get res "score" = Some (VFloat 6%float).
Proof.
  destruct (per_occurrence_classification mixed [m1; m2; m3] "cache")
    as (_ & _ & res & ws & Hd & Hrun & Hres & Hconf).
  - discriminate.
  - reflexivity.
  - discriminate.
  - vm_compute. discriminate.
  - exists res, ws. split; [exact Hrun | split; [| split]].
    + rewrite Hres. reflexivity.
    + rewrite Hconf. reflexivity.
    + destruct (per_occurrence_classification mixed [m1; m2; m3] "score")
        as (_ & _ & res' & ws' & Hd' & _ & Hres' & _).
      * discriminate.
      * reflexivity.
      * discriminate.
      * vm_compute. discriminate.
      * rewrite Hd in Hd'. injection Hd' as <- <-. rewrite Hres'. reflexivity.
Defined.

(** C5 as stated fails for the field ["number of runs"]: with the numeric
    occurrence [5] and the non-numeric occurrence [True] the average of the
    numeric occurrences is [5.0], and the aggregate record holds the run
    count [2]. *)
Lemma per_occurrence_classification_counterexample :
  numeric_values RUNS (records disk [r1; r2]) = [5%float] /\
  non_numeric_occurrences RUNS (records disk [r1; r2]) =
    [("rerun_id2_summary.json", VBool true)] /\
  exists res ws,
    average_group disk [r1; r2] = Ok (res, ws) /\
    get res RUNS = Some (VInt 2) /\
    get res RUNS <> Some (VFloat (average [5%float])).
Proof.
  split; [vm_compute; reflexivity | split; [vm_compute; reflexivity |]].
  eexists; eexists. split; [vm_compute; reflexivity |].
  split; [vm_compute; reflexivity | vm_compute; discriminate].
Qed.

Lemma average_group_permuted (fs : filesystem) (files files' : list Path) :
  Permutation files files' -> average_group fs files' = average_group fs files.
Proof.
  intros Hp. unfold average_group, average_group_diags.
  destruct files as [| p files], files' as [| p' files'].
  - reflexivity.
  - apply Permutation_nil in Hp. discriminate.
  - apply Permutation_sym, Permutation_nil in Hp. discriminate.
  - now rewrite (sorted_permuted _ _ Hp), (Permutation_length Hp).
Qed.

Lemma occurrences_first (fs : filesystem) (key : string) (paths : list Path)
  (path : Path) (v : value) :
  StronglySorted (fun p q => path_lt q p = false) paths ->
  In path paths ->
  get (content fs path) key = Some v ->
  (forall q, In q paths -> get (content fs q) key <> None -> path_lt q path = false) ->
  exists rest,
    occurrences key (map (fun p => (name p, content fs p)) paths) = (name path, v) :: rest.
Proof.
  induction 1 as [| x l Hs IH Hx]; intros Hin Hget Hmin; [contradiction |].
  unfold occurrences. cbn [map flat_map fst snd].
  destruct (get (content fs x) key) as [vx |] eqn:Ex.
  - assert (x = path) as ->.
    { destruct Hin as [-> | Hin]; [reflexivity |].
      apply path_lt_antisym.
      - apply Hmin; [now left | congruence].
      - rewrite Forall_forall in Hx. now apply Hx. }
    rewrite Hget in Ex. injection Ex as <-. simpl. eauto.
  - destruct Hin as [-> | Hin]; [congruence |].
    destruct IH as (rest & Hrest); auto.
    { intros q Hq. apply Hmin. now right. }
    exists rest. exact Hrest.
Qed.

Lemma never_numeric_occurrences (key : string) (recs : list record) :
  numeric_values key recs = [] ->
  non_numeric_occurrences key recs = occurrences key recs.
Proof.
  unfold numeric_values, non_numeric_occurrences.
  induction (occurrences key recs) as [| o os IH]; simpl; [reflexivity |].
  destruct (numeric_value (snd o)); [discriminate |].
  simpl. intros H. now rewrite IH.
Qed.

(** C8 (amended).  [average_group] gives the same outcome on any
    permutation of the file list.  In a cohort that loads, a field other than
    ["number of runs"] that is never numeric is mapped by the aggregate record
    to the value it has in the first file, in path order, that carries it. *)
Theorem reordering_invariant (fs : filesystem) (files files' : list Path) :
  Permutation files files' ->
  average_group fs files' = average_group fs files /\
  (forallb (loadable fs) files = true ->
   forall key path v,
     key <> RUNS ->
     numeric_values key (records fs files) = [] ->
     In path files ->
     get (content fs path) key = Some v ->
     (forall q, In q files -> get (content fs q) key <> None -> path_lt q path = false) ->
     exists res warns,
       average_group fs files' = Ok (res, warns) /\ get res key = Some v).
Proof.
  intros Hp. split; [now apply average_group_permuted |].
  intros Hload key path v Hkey Hnum Hin Hget Hmin.
  assert (Hne : files <> []) by (intros ->; contradiction).
  destruct (average_group_diags_spec fs files Hne Hload)
    as (res & ws & Hrun & _ & Hres & _).
  exists res, (map render ws). split.
  - rewrite (average_group_permuted _ _ _ Hp). now apply average_group_render.
  - rewrite (Hres key Hkey). unfold expected, first_seen.
    rewrite Hnum, (never_numeric_occurrences _ _ Hnum).
    destruct (occurrences_first fs key (sorted files) path v) as (rest & Hrest).
    + apply sorted_ordered.
    + eapply Permutation_in; [apply Permutation_sym, sorted_Permutation | assumption].
    + assumption.
    + intros q Hq. apply Hmin.
      eapply Permutation_in; [apply sorted_Permutation | assumption].
    + unfold records. now rewrite Hrest.
Qed.

Lemma reordering_invariant_witness :
  average_group disk [m3; m1; m2] = average_group disk [m1; m2; m3] /\
  exists res warns,
    average_group disk [m3; m1; m2] = Ok (res, warns) /\
    get res "status" = Some (VStr "ok").
Proof.
  assert (Hp : Permutation [m1; m2; m3] [m3; m1; m2]).
  { apply Permutation_sym. apply (Permutation_cons_app [m1; m2] [] m3). reflexivity. }
  destruct (reordering_invariant disk [m1; m2; m3] [m3; m1; m2] Hp) as (Heq & Hfirst).
  split; [exact Heq |].
  apply (Hfirst eq_refl "status" m1 (VStr "ok")).
  - discriminate.
  - reflexivity.
  - simpl. auto.
  - reflexivity.
  - intros q [<- | [<- | [<- | []]]] _; reflexivity.
Defined.

(** C8 as stated fails for the field ["number of runs"]: it is never
    numeric in the one-file cohort below, the first file that carries it holds
    ["three"], and the aggregate record holds the run count [1]. *)
Lemma reordering_invariant_counterexample :
  numeric_values RUNS (records disk [r3]) = [] /\
  get (content disk r3) RUNS = Some (VStr "three") /\
  exists res ws,
    average_group disk [r3] = Ok (res, ws) /\
    get res RUNS = Some (VInt 1) /\
    get res RUNS <> Some (VStr "three").
Proof.
  split; [vm_compute; reflexivity | split; [vm_compute; reflexivity |]].
  eexists; eexists. split; [vm_compute; reflexivity |].
  split; [vm_compute; reflexivity | vm_compute; discriminate].
Qed.

End AggregateClaims.

(** ** The scenarios of the specification, run *)

Section Scenarios.
Import PyDict AverageStatistics Cohort Examples MergePlots.

(** Three records: averaged tokens, one mismatch on [status], [latency_ms]
    present in two files of three. *)
Example scenario_three_records :
  average_group disk [m3; m2; m1] =
  Ok ([("avg_input_tokens", VFloat 150%float);
       ("model name", VStr "openai.gpt-4.1-nano");
       ("status", VStr "ok");
       ("latency_ms", VFloat 15%float);
       ("number of runs", VInt 3)],
      ["Inconsistent non-numeric value for 'status' in model_x_size1_merge2_id218_summary.json; using first encountered.";
       "Key 'latency_ms' appears in 2/3 files; averaged over available values."]).
Proof. vm_compute. reflexivity. Qed.

Example scenario_empty : average_group disk [] = Ok (empty, []).
Proof. reflexivity. Qed.

(** A file that cannot be read, a document that is not an object and an
    integer beyond the floats each end the aggregation of the cohort. *)
Example scenario_unreadable :
  average_group disk [m1; ["data"; "absent_id1_summary.json"]] = Raise OSError.
Proof. vm_compute. reflexivity. Qed.

Example scenario_not_an_object :
  average_group (fun _ => Ok JOther) [m1] = Raise ValueError.
Proof. vm_compute. reflexivity. Qed.

Example scenario_huge_int :
  average_group (fun _ => Ok (JObject [("n", VInt (10 ^ 400))])) [m1] = Raise OverflowError.
Proof. vm_compute. reflexivity. Qed.

(** [NaN] is not numeric and differs from itself. *)
Example scenario_nan :
  average_group (fun _ => Ok (JObject [("x", VFloat nan)])) [m1; m2] =
  Ok ([("x", VFloat nan); ("number of runs", VInt 2)],
      ["Inconsistent non-numeric value for 'x' in model_x_size1_merge2_id218_summary.json; using first encountered."]).
Proof. vm_compute. reflexivity. Qed.

Example scenario_groups :
  collect_groups ["data"]
    ["model_x_size1_merge2_id218_summary.json"; "notes.json";
     "model_x_size1_merge2_id211_summary.json"; "model_x_size1_merge2_summary.json";
     "a_b_id_x_summary.json"; "a_idid_summary.json"] =
  [("model_x_size1_merge2", [m2; m1]); ("a", [["data"; "a_idid_summary.json"]])].
Proof. vm_compute. reflexivity. Qed.

(** The loose third tier: the first key in table order wins. *)
Example scenario_loose_match :
  normalize_model_key "openai.gpt-4.1-nano" = "gpt-4.1" /\
  compute_cost_usd "openai.gpt-4.1-nano" 1000000%float 1000000%float = 10%float.
Proof. split; vm_compute; reflexivity. Qed.

Example scenario_cost_added :
  file_metrics "gpt-5"
    (of_pairs [("avg_output_tokens", VInt 1000000); ("model name", VNull);
               ("number of runs", VInt 3)]) =
  Ok [("avg_output_tokens", 1000000%float); (COST, 10%float)].
Proof. vm_compute. reflexivity. Qed.

Example scenario_model_name_not_a_string :
  file_metrics "gpt-5"
    (of_pairs [("avg_output_tokens", VInt 1000000); ("model name", VInt 3)]) =
  Raise AttributeError.
Proof. vm_compute. reflexivity. Qed.

End Scenarios.

(** * Further properties *)

(** ** When [average_group] returns *)

Section LoadingFacts.
Import PyDict AverageStatistics Cohort Examples.

(** The exceptions classifying a value can raise. *)
Lemma is_number_raises (v : value) (e : exn) :
  is_number v = Raise e -> e = OverflowError /\ exists z, v = VInt z.
Proof.
  destruct v as [| b | z | f | s]; simpl; try discriminate.
  unfold PyFloat.of_int. destruct (PrimFloat.is_infinity _); simpl; [| discriminate].
  intros [= <-]. eauto.
Qed.

Lemma visit_item_ok_classified (nm : string) (st st' : state) (item : string * value) :
  visit_item nm st item = Ok st' -> classified (snd item) = true.
Proof.
  destruct item as [k v]. unfold visit_item, classified. simpl. intros H.
  bind_inv H. now rewrite Ha.
Qed.

Lemma visit_items_ok_classified (nm : string) (its : list (string * value))
  (st st' : state) :
  for_each (visit_item nm) its st = Ok st' ->
  forallb (fun kv => classified (snd kv)) its = true.
Proof.
  revert st; induction its as [| it its IH]; simpl; intros st H; [reflexivity |].
  bind_inv H. rewrite (visit_item_ok_classified _ _ _ _ Ha). simpl. eauto.
Qed.

Lemma process_file_ok_loadable (fs : filesystem) (st st' : state) (path : Path) :
  process_file fs st path = Ok st' -> loadable fs path = true.
Proof.
  unfold process_file, loadable. intros H. bind_inv H. rewrite Ha. bind_inv H.
  eapply visit_items_ok_classified; eauto.
Qed.

Lemma process_files_ok_loadable (fs : filesystem) (paths : list Path) (st st' : state) :
  for_each (process_file fs) paths st = Ok st' -> forallb (loadable fs) paths = true.
Proof.
  revert st; induction paths as [| p paths IH]; simpl; intros st H; [reflexivity |].
  bind_inv H. rewrite (process_file_ok_loadable _ _ _ _ Ha). simpl. eauto.
Qed.

Lemma average_group_diags_ok_loadable (fs : filesystem) (files : list Path)
  (out : dict value * list diagnostic) :
  average_group_diags fs files = Ok out -> forallb (loadable fs) files = true.
Proof.
  destruct out as [res ws]. intros H.
  destruct (average_group_diags_inv _ _ _ _ H) as [(-> & _) | (_ & st & Hrun & _)];
    [reflexivity |].
  apply process_files_ok_loadable in Hrun. rewrite forallb_forall in *.
  intros p Hp. apply Hrun.
  eapply Permutation_in; [apply Permutation_sym, sorted_Permutation | assumption].
Qed.

Lemma average_group_ok_diags (fs : filesystem) (files : list Path)
  (res : dict value) (warns : list string) :
  average_group fs files = Ok (res, warns) ->
  exists ws, average_group_diags fs files = Ok (res, ws) /\ warns = map render ws.
Proof.
  unfold average_group. intros H. bind_inv H. destruct a as [r ws].
  injection H as <- <-. eauto.
Qed.

Lemma visit_item_raises (nm : string) (st : state) (item : string * value) (e : exn) :
  visit_item nm st item = Raise e -> e = OverflowError.
Proof.
  destruct item as [k v]. unfold visit_item.
  destruct (is_number v) as [[|] |e'] eqn:En; simpl.
  - destruct (is_number_true v En) as (f & Hf & _). rewrite Hf. discriminate.
  - destruct (get (non_numeric st) k); [destruct (py_ne v v0) |]; discriminate.
  - intros [= <-]. now apply is_number_raises in En.
Qed.

Lemma visit_items_raises (nm : string) (its : list (string * value)) (st : state)
  (e : exn) :
  for_each (visit_item nm) its st = Raise e -> e = OverflowError.
Proof.
  revert st; induction its as [| it its IH]; simpl; intros st H; [discriminate |].
  destruct (visit_item nm st it) eqn:Ev; simpl in H.
  - eauto.
  - injection H as <-. eapply visit_item_raises; eauto.
Qed.

Lemma process_files_raises (fs : filesystem) (paths : list Path) (st : state) (e : exn) :
  for_each (process_file fs) paths st = Raise e ->
  e = OverflowError \/ e = ValueError \/ exists p, In p paths /\ fs p = Raise e.
Proof.
  revert st; induction paths as [| p paths IH]; simpl; intros st H; [discriminate |].
  destruct (process_file fs st p) as [st1 | e1] eqn:Ep; simpl in H.
  - destruct (IH _ H) as [? | [? | (q & Hq & Hfs)]]; eauto 6.
  - injection H as <-. unfold process_file, read_json in Ep.
    destruct (fs p) as [[members |] | e2] eqn:Efs; simpl in Ep.
    + destruct (for_each _ _ _) eqn:Ev in Ep; simpl in Ep; [discriminate |].
      injection Ep as <-. left. eapply visit_items_raises; eauto.
    + injection Ep as <-. auto.
    + injection Ep as <-. right; right. exists p. auto.
Qed.

(** X1.  [average_group] returns exactly when every file of the list loads:
    it reads as a JSON object and none of its values is an [int] beyond the
    float range.  What it raises otherwise is what reading one of the files
    raised, [ValueError] for a document that is not an object, or
    [OverflowError]. *)
Theorem average_group_returns_iff (fs : filesystem) (files : list Path) :
  ((exists out, average_group fs files = Ok out) <->
   forallb (loadable fs) files = true) /\
  (forall e,
     average_group fs files = Raise e ->
     e = OverflowError \/ e = ValueError \/ exists p, In p files /\ fs p = Raise e).
Proof.
  split; [split |].
  - intros ([res warns] & H). apply average_group_ok_diags in H.
    destruct H as (ws & H & _). eapply average_group_diags_ok_loadable; eauto.
  - intros Hload. destruct files as [| p files].
    + eexists. reflexivity.
    + destruct (average_group_diags_spec fs (p :: files)) as (res & ws & H & _);
        [discriminate | assumption |].
      exists (res, map render ws). now apply average_group_render.
  - intros e H. unfold average_group, average_group_diags in H.
    destruct files as [| p files]; [discriminate |].
    destruct (for_each _ _ _) as [st | e'] eqn:Er; simpl in H; [discriminate |].
    injection H as <-. apply process_files_raises in Er.
    destruct Er as [? | [? | (q & Hq & Hfs)]]; auto.
    right; right. exists q. split; [| assumption].
    eapply Permutation_in; [apply sorted_Permutation | assumption].
Qed.

End LoadingFacts.

Lemma average_group_returns_iff_witness :
  ~ (exists out,
       AverageStatistics.average_group Examples.disk
         [Examples.m1; ["data"; "absent_id1_summary.json"]] = Ok out).
Proof.
  intros H.
  apply (proj1 (proj1 (average_group_returns_iff Examples.disk
                         [Examples.m1; ["data"; "absent_id1_summary.json"]]))) in H.
  vm_compute in H. discriminate.
Defined.

(** ** The fields and the diagnostics of the aggregate record *)

Section FieldFacts.
Import PyDict AverageStatistics Cohort Fields Examples.

Lemma process_file_key_order (fs : filesystem) (st st' : state) (path : Path) :
  process_file fs st path = Ok st' ->
  key_order st' = fold_left note_key (keys (content fs path)) (key_order st).
Proof.
  unfold process_file, content. intros H. bind_inv H. rewrite Ha. bind_inv H.
  injection H as <-. simpl. now rewrite (visit_items_key_order _ _ _ _ Ha0).
Qed.

Lemma process_files_key_order (fs : filesystem) (paths : list Path) (st st' : state) :
  for_each (process_file fs) paths st = Ok st' ->
  key_order st' =
  fold_left (fun order (r : record) => fold_left note_key (keys (snd r)) order)
    (map (fun path => (name path, content fs path)) paths) (key_order st).
Proof.
  revert st; induction paths as [| p paths IH]; simpl; intros st H.
  - now injection H as <-.
  - bind_inv H. rewrite (IH _ H). now rewrite (process_file_key_order _ _ _ _ Ha).
Qed.

Lemma field_order_fold_In (recs : list record) (order : list string) (k : string) :
  In k (fold_left (fun order (r : record) => fold_left note_key (keys (snd r)) order)
          recs order) <->
  In k order \/ carried k recs.
Proof.
  unfold carried.
  revert order; induction recs as [| r recs IH]; intros order; simpl.
  - split; [auto | intros [H | (r & [] & _)]; assumption].
  - rewrite IH, note_keys_In. rewrite <- mem_keys. split.
    + intros [[H | H] | (r' & Hin & Hm)]; eauto 6.
    + intros [H | (r' & [<- | Hin] & Hm)]; eauto 6.
Qed.

Lemma field_order_In (recs : list record) (k : string) :
  In k (field_order recs) <-> carried k recs.
Proof.
  unfold field_order. rewrite field_order_fold_In. simpl. tauto.
Qed.

Lemma field_order_fold_NoDup (recs : list record) (order : list string) :
  NoDup order ->
  NoDup (fold_left (fun order (r : record) => fold_left note_key (keys (snd r)) order)
           recs order).
Proof.
  revert order; induction recs as [| r recs IH]; intros order H; simpl; [assumption |].
  apply IH, note_keys_NoDup, H.
Qed.

Lemma note_keys_extends (ks order : list string) :
  exists more, fold_left note_key ks order = order ++ more.
Proof.
  revert order; induction ks as [| k ks IH]; intros order; simpl.
  - exists []. now rewrite app_nil_r.
  - destruct (IH (note_key order k)) as (more & ->). unfold note_key.
    destruct (existsb (String.eqb k) order); [eauto |].
    exists ([k] ++ more). now rewrite app_assoc.
Qed.

Lemma field_order_fold_extends (recs : list record) (order : list string) :
  exists more,
    fold_left (fun order (r : record) => fold_left note_key (keys (snd r)) order)
      recs order = order ++ more.
Proof.
  revert order; induction recs as [| r recs IH]; intros order; simpl.
  - exists []. now rewrite app_nil_r.
  - destruct (note_keys_extends (keys (snd r)) order) as (m1 & ->).
    destruct (IH (order ++ m1)) as (m2 & ->).
    exists (m1 ++ m2). now rewrite app_assoc.
Qed.

Lemma note_keys_fresh (ks : list string) : NoDup ks -> fold_left note_key ks [] = ks.
Proof.
  intros Hnd.
  assert (H : forall order, NoDup (order ++ ks) -> fold_left note_key ks order = order ++ ks).
  { clear Hnd.
    induction ks as [| k ks IH]; intros order Ho; simpl; [now rewrite app_nil_r |].
    unfold note_key at 2. destruct (existsb (String.eqb k) order) eqn:E.
    - apply existsb_eqb_In in E. apply NoDup_remove_2 in Ho.
      exfalso. apply Ho. apply in_or_app. now left.
    - rewrite IH; rewrite <- app_assoc; [reflexivity | assumption]. }
  apply (H []). assumption.
Qed.

Lemma carried_occurrences (k : string) (recs : list record) :
  carried k recs <-> occurrences k recs <> [].
Proof.
  unfold carried, occurrences, mem. induction recs as [| r recs IH]; simpl.
  - split; [intros (r & [] & _) | congruence].
  - destruct (get (snd r) k) as [v |] eqn:E; simpl.
    + split; [discriminate | intros _]. exists r. rewrite E. auto.
    + rewrite <- IH. split.
      * intros (r' & [<- | Hin] & Hm); [rewrite E in Hm; discriminate | eauto].
      * intros (r' & Hin & Hm). eauto.
Qed.

Lemma expected_carried (k : string) (recs : list record) :
  carried k recs -> expected k recs <> None.
Proof.
  rewrite carried_occurrences. unfold expected, first_seen. intros Hocc.
  destruct (numeric_values k recs) eqn:Ev; [| discriminate].
  rewrite (never_numeric_occurrences _ _ Ev).
  destruct (occurrences k recs) as [| [nm v] os]; [congruence | discriminate].
Qed.

(** The state the file loop ends in, on a cohort that loads. *)
Lemma file_loop_spec (fs : filesystem) (files : list Path) :
  forallb (loadable fs) files = true ->
  exists st,
    for_each (process_file fs) (sorted files) initial = Ok st /\
    counted st /\ tracked st /\ Forall consistency_only (warnings st) /\
    key_order st = field_order (records fs files) /\
    (forall k, view_of k st = view_after k (records fs files)) /\
    (forall k, emitted st k = expected k (records fs files)).
Proof.
  intros Hload.
  destruct (process_files_view fs (sorted files) initial [] (loadable_sorted _ _ Hload))
    as (st & Hrun & Hview); [reflexivity |].
  simpl in Hview. fold (records fs files) in Hview.
  destruct (process_files_counted _ _ _ _ Hrun counted_initial) as (Hc & Hw);
    [constructor |].
  destruct (process_files_tracked _ _ _ _ Hrun tracked_initial) as (Ht & Hnd);
    [constructor |].
  exists st. repeat split; auto.
  - apply (process_files_key_order _ _ _ _ Hrun).
  - intros k. specialize (Hview k). unfold view_of, view_after in Hview.
    injection Hview as Hs Hcn Hf _.
    unfold emitted, expected, mem, get_default, average. rewrite Hs, Hcn, Hf.
    destruct (numeric_values k (records fs files)); reflexivity.
Qed.

Lemma keys_store_fold (st : state) (ks : list string) (res : dict value) :
  (forall k, In k ks -> emitted st k <> None) ->
  NoDup (keys res ++ ks) ->
  keys (fold_left (store st) ks res) = keys res ++ ks.
Proof.
  revert res; induction ks as [| k ks IH]; intros res Hem Hnd; simpl.
  - now rewrite app_nil_r.
  - unfold store at 2. destruct (emitted st k) as [v |] eqn:E.
    + assert (Hk : mem res k = false).
      { apply not_true_is_false. intros Hm. apply mem_keys in Hm.
        apply NoDup_remove_2 in Hnd. apply Hnd, in_or_app. now left. }
      rewrite IH.
      * rewrite keys_set, Hk. now rewrite <- app_assoc.
      * intros k' Hin. apply Hem. now right.
      * rewrite keys_set, Hk. now rewrite <- app_assoc.
    + exfalso. apply (Hem k); [now left | assumption].
Qed.

Lemma records_carried (fs : filesystem) (files : list Path) (k : string) :
  carried k (records fs files) <->
  exists p, In p files /\ mem (content fs p) k = true.
Proof.
  unfold carried, records. split.
  - intros (r & Hin & Hm). apply in_map_iff in Hin. destruct Hin as (p & <- & Hp).
    exists p. split; [| assumption].
    eapply Permutation_in; [apply sorted_Permutation | assumption].
  - intros (p & Hp & Hm). exists (name p, content fs p). split; [| assumption].
    apply in_map_iff. exists p. split; [reflexivity |].
    eapply Permutation_in; [apply Permutation_sym, sorted_Permutation | assumption].
Qed.

(** X2.  On a cohort that loads and is not empty, the keys of the aggregate
    record are the field names of the records in first-seen order, followed
    by ["number of runs"] unless a record already carries it: no key is
    repeated, a key is in the record exactly when it is ["number of runs"] or
    a field of some file, and the fields of the first file in path order come
    first, in their own order. *)
Theorem aggregate_keys (fs : filesystem) (files : list Path) :
  files <> [] ->
  forallb (loadable fs) files = true ->
  exists res ws,
    average_group_diags fs files = Ok (res, ws) /\
    keys res =
      field_order (records fs files) ++
      (if existsb (String.eqb RUNS) (field_order (records fs files)) then [] else [RUNS]) /\
    NoDup (keys res) /\
    (forall k, In k (keys res) <->
               k = RUNS \/ exists p, In p files /\ mem (content fs p) k = true) /\
    (forall p rest, sorted files = p :: rest ->
                    exists more, keys res = keys (content fs p) ++ more).
Proof.
  intros Hne Hload.
  destruct (file_loop_spec fs files Hload)
    as (st & Hrun & Hc & Ht & Hw & Hko & Hview & Hem).
  assert (Hnd : NoDup (field_order (records fs files)))
    by (apply field_order_fold_NoDup; constructor).
  assert (Hkeys : keys (fold_left (store st) (key_order st) empty) =
                  field_order (records fs files)).
  { rewrite keys_store_fold; rewrite Hko; simpl; auto.
    intros k Hk. rewrite Hem. apply expected_carried, field_order_In, Hk. }
  exists (set (fold_left (store st) (key_order st) empty) RUNS
            (VInt (Z.of_nat (List.length files)))),
    (warnings st ++ flat_map (coverage (List.length files) st) (key_order st)).
  split.
  - unfold average_group_diags. destruct files as [| p files]; [congruence |].
    rewrite Hrun. simpl. f_equal. apply finish_spec; [assumption |].
    intros k Hk. apply Ht. now left.
  - assert (Hall : keys (set (fold_left (store st) (key_order st) empty) RUNS
                           (VInt (Z.of_nat (List.length files)))) =
                   field_order (records fs files) ++
                   (if existsb (String.eqb RUNS) (field_order (records fs files))
                    then [] else [RUNS])).
    { rewrite keys_set, Hkeys.
      destruct (mem _ RUNS) eqn:Em.
      - apply mem_keys in Em. rewrite Hkeys in Em.
        apply existsb_eqb_In in Em. rewrite Em. now rewrite app_nil_r.
      - destruct (existsb (String.eqb RUNS) _) eqn:Ex; [| reflexivity].
        apply existsb_eqb_In in Ex. rewrite <- Hkeys in Ex.
        apply mem_keys in Ex. congruence. }
    split; [exact Hall | split; [| split]].
    + rewrite Hall. destruct (existsb (String.eqb RUNS) _) eqn:Ex.
      * now rewrite app_nil_r.
      * apply NoDup_app; [assumption | repeat constructor; auto |].
        intros k Hk [<- | []]. apply existsb_eqb_In in Hk. congruence.
    + intros k. rewrite Hall, in_app_iff, field_order_In, records_carried.
      destruct (existsb (String.eqb RUNS) _) eqn:Ex; simpl.
      * apply existsb_eqb_In in Ex. apply field_order_In, records_carried in Ex.
        split; [tauto | intros [-> | H]; auto].
      * intuition congruence.
    + intros p rest Hs. rewrite Hall. unfold field_order, records. rewrite Hs. simpl.
      assert (Hp : NoDup (keys (content fs p))).
      { unfold content. destruct (read_json fs p) eqn:Er; [| constructor].
        eapply read_json_NoDup; eauto. }
      rewrite (note_keys_fresh _ Hp).
      destruct (field_order_fold_extends
                  (map (fun path => (name path, content fs path)) rest)
                  (keys (content fs p))) as (more & ->).
      eexists. rewrite <- app_assoc. reflexivity.
Qed.

Lemma aggregate_keys_witness :
  exists res ws,
    average_group_diags disk [m3; m1; m2] = Ok (res, ws) /\
    keys res = ["avg_input_tokens"; "model name"; "status"; "latency_ms"; RUNS].
Proof.
  destruct (aggregate_keys disk [m3; m1; m2]) as (res & ws & Hrun & Hkeys & _).
  - discriminate.
  - reflexivity.
  - exists res, ws. split; [exact Hrun |]. rewrite Hkeys. vm_compute. reflexivity.
Defined.

End FieldFacts.

Section DiagnosticFacts.
Import PyDict AverageStatistics Cohort Fields Examples.

(** The output of [average_group] on a list that is not empty, from the state
    the file loop ends in. *)
Lemma average_group_diags_form (fs : filesystem) (files : list Path)
  (res : dict value) (ws : list diagnostic) :
  files <> [] ->
  average_group_diags fs files = Ok (res, ws) ->
  exists st,
    counted st /\ Forall consistency_only (warnings st) /\
    key_order st = field_order (records fs files) /\
    (forall k, view_of k st = view_after k (records fs files)) /\
    res = set (fold_left (store st) (key_order st) empty) RUNS
            (VInt (Z.of_nat (List.length files))) /\
    ws = warnings st ++ flat_map (coverage (List.length files) st) (key_order st).
Proof.
  intros Hne H.
  pose proof (average_group_diags_ok_loadable _ _ _ H) as Hload.
  destruct (file_loop_spec fs files Hload)
    as (st & Hrun & Hc & Ht & Hw & Hko & Hview & _).
  assert (Hout : (res, ws) =
                 (set (fold_left (store st) (key_order st) empty) RUNS
                    (VInt (Z.of_nat (List.length files))),
                  warnings st ++ flat_map (coverage (List.length files) st) (key_order st))).
  { rewrite <- (finish_spec (List.length files) st Hc)
      by (intros k Hk; apply Ht; now left).
    unfold average_group_diags in H. destruct files as [| p files]; [congruence |].
    rewrite Hrun in H. cbn [bind] in H. congruence. }
  injection Hout as -> ->.
  exists st. repeat split; auto.
Qed.

Lemma coverage_flat_map_In (total : nat) (st : state) (ks : list string)
  (k : string) (c t : nat) :
  In (Coverage k c t) (flat_map (coverage total st) ks) ->
  mem (sums st) k = true /\ c = get_default 0 (counts st) k /\ t = total /\
  c <> 0 /\ c <> total.
Proof.
  rewrite in_flat_map. intros (k' & _ & Hin). unfold coverage in Hin.
  destruct (mem (sums st) k') eqn:Em; [| contradiction].
  destruct (Nat.eqb_spec (get_default 0 (counts st) k') 0) as [| Hz]; [contradiction |].
  destruct (Nat.eqb_spec (get_default 0 (counts st) k') total) as [| Ht]; [contradiction |].
  destruct Hin as [[= <- <- <-] | []]. auto.
Qed.

Lemma consistency_not_coverage (ws : list diagnostic) (k : string) (c t : nat) :
  Forall consistency_only ws -> ~ In (Coverage k c t) ws.
Proof.
  intros H Hin. rewrite Forall_forall in H. exact (H _ Hin).
Qed.

Lemma coverage_is_coverage (total : nat) (st : state) (ks : list string) :
  Forall is_coverage (flat_map (coverage total st) ks).
Proof.
  induction ks as [| k ks IH]; simpl; [constructor |].
  apply Forall_app. split; [| assumption]. unfold coverage.
  destruct (mem (sums st) k); [| constructor].
  destruct (_ || _); repeat constructor.
Qed.

Lemma occurrences_In (k nm : string) (v : value) (recs : list record) :
  In (nm, v) (occurrences k recs) ->
  exists r, In r recs /\ fst r = nm /\ get (snd r) k = Some v.
Proof.
  unfold occurrences. rewrite in_flat_map. intros (r & Hr & Hin).
  destruct (get (snd r) k) as [v' |] eqn:E; [| contradiction].
  destruct Hin as [[= <- <-] | []]. eauto.
Qed.

Lemma conflicts_In (k k' nm : string) (recs : list record) :
  In (Inconsistent k' nm) (conflicts k recs) ->
  k' = k /\
  exists v first,
    In (nm, v) (occurrences k recs) /\ numeric_value v = None /\
    first_seen k recs = Some first /\ py_ne v first = true.
Proof.
  unfold conflicts, first_seen, non_numeric_occurrences.
  destruct (filter _ (occurrences k recs)) as [| [nm0 first] later] eqn:E; [contradiction |].
  rewrite in_flat_map. intros ([nm' v] & Hl & Hin). simpl in Hin.
  destruct (py_ne v first) eqn:Ene; [| contradiction].
  destruct Hin as [[= <- <-] | []]. split; [reflexivity |].
  assert (Hf : In (nm', v) (filter
                (fun o : string * value =>
                   match numeric_value (snd o) with Some _ => false | None => true end)
                (occurrences k recs))) by (rewrite E; now right).
  apply filter_In in Hf. destruct Hf as (Hocc & Hnv). simpl in Hnv.
  exists v, first. repeat split; auto.
  now destruct (numeric_value v).
Qed.

Lemma inconsistencies_In (k nm : string) (ws : list diagnostic) :
  In (Inconsistent k nm) ws <-> In (Inconsistent k nm) (inconsistencies k ws).
Proof.
  unfold inconsistencies. rewrite filter_In, String.eqb_refl. tauto.
Qed.

Lemma records_In (fs : filesystem) (files : list Path) (r : record) :
  In r (records fs files) ->
  exists p, In p files /\ fst r = name p /\ snd r = content fs p.
Proof.
  unfold records. rewrite in_map_iff. intros (p & <- & Hp). exists p.
  repeat split. eapply Permutation_in; [apply sorted_Permutation | assumption].
Qed.

Lemma coverage_bounds (fs : filesystem) (files : list Path)
  (res : dict value) (ws : list diagnostic) (k : string) (c t : nat) :
  average_group_diags fs files = Ok (res, ws) ->
  In (Coverage k c t) ws ->
  t = List.length files /\ 1 <= c < t /\
  c = List.length (numeric_values k (records fs files)).
Proof.
  intros H Hin. destruct files as [| p0 files].
  { injection H as <- <-. contradiction. }
  destruct (average_group_diags_form fs (p0 :: files) res ws) as
    (st & Hc & Hw & Hko & Hview & -> & ->); [discriminate | assumption |].
  apply in_app_or in Hin.
  destruct Hin as [Hin | Hin]; [exfalso; eapply consistency_not_coverage; eauto |].
  apply coverage_flat_map_In in Hin. destruct Hin as (Hm & -> & -> & Hz & Hn).
  specialize (Hview k). unfold view_of, view_after in Hview.
  injection Hview as _ Hcount _ _. unfold get_default in *. rewrite Hcount in *.
  pose proof (numeric_values_length k (records fs (p0 :: files))) as Hle.
  rewrite records_length in Hle.
  destruct (numeric_values k (records fs (p0 :: files))) as [| f vs]; [congruence |].
  cbn [List.length] in *. repeat split; lia.
Qed.

(** X3.  Whenever [average_group] returns, its diagnostics are consistency
    ones followed by coverage ones.  A consistency diagnostic names a file of
    the list that holds the field with a non-numeric value [!=] to the
    first-seen one.  A coverage diagnostic [c/t] has [t] the number of files
    and [c] the number of numeric occurrences of its field, with
    [1 <= c < t]. *)
Theorem diagnostics_shape (fs : filesystem) (files : list Path)
  (res : dict value) (ws : list diagnostic) :
  average_group_diags fs files = Ok (res, ws) ->
  (exists cs cv, ws = cs ++ cv /\ Forall consistency_only cs /\ Forall is_coverage cv) /\
  (forall k nm,
     In (Inconsistent k nm) ws ->
     exists p v first,
       In p files /\ name p = nm /\ get (content fs p) k = Some v /\
       numeric_value v = None /\
       first_seen k (records fs files) = Some first /\ py_ne v first = true) /\
  (forall k c t,
     In (Coverage k c t) ws ->
     t = List.length files /\ 1 <= c < t /\
     c = List.length (numeric_values k (records fs files))).
Proof.
  intros H. destruct files as [| p0 files].
  { injection H as <- <-. split; [| split].
    - exists [], []. repeat split; constructor.
    - intros k nm [].
    - intros k c t []. }
  destruct (average_group_diags_form fs (p0 :: files) res ws) as
    (st & Hc & Hw & Hko & Hview & -> & ->); [discriminate | assumption |].
  pose proof (average_group_diags_ok_loadable _ _ _ H) as Hload.
  split; [| split].
  - eexists; eexists. split; [reflexivity | split; [assumption |]].
    apply coverage_is_coverage.
  - intros k nm Hin. apply inconsistencies_In in Hin.
    rewrite inconsistencies_app, inconsistencies_coverage, app_nil_r in Hin.
    specialize (Hview k). unfold view_of, view_after in Hview.
    injection Hview as _ _ _ Hconf. rewrite Hconf in Hin.
    apply conflicts_In in Hin. destruct Hin as (_ & v & first & Hocc & Hnv & Hf & Hne).
    apply occurrences_In in Hocc. destruct Hocc as (r & Hr & Hnm & Hget).
    apply records_In in Hr. destruct Hr as (p & Hp & Hname & Hcontent).
    exists p, v, first. rewrite <- Hcontent. repeat split; auto; congruence.
  - intros k c t Hin. eapply coverage_bounds; eauto.
Qed.

Lemma diagnostics_shape_witness :
  exists res ws,
    average_group_diags disk [m1; m2; m3] = Ok (res, ws) /\
    In (Coverage "latency_ms" 2 3) ws /\
    2 = List.length (numeric_values "latency_ms" (records disk [m1; m2; m3])).
Proof.
  assert (Hrun : exists res ws, average_group_diags disk [m1; m2; m3] = Ok (res, ws) /\
                                In (Coverage "latency_ms" 2 3) ws).
  { eexists; eexists. split; [vm_compute; reflexivity |]. right. left. reflexivity. }
  destruct Hrun as (res & ws & Hrun & Hin).
  exists res, ws. split; [exact Hrun | split; [exact Hin |]].
  destruct (diagnostics_shape disk [m1; m2; m3] res ws Hrun) as (_ & _ & Hcov).
  exact (proj2 (proj2 (Hcov "latency_ms" 2 3 Hin))).
Defined.

(** X4.  A cohort of one file gives no diagnostic at all, and its aggregate
    record maps every non-numeric field other than ["number of runs"] to the
    file's own value and every numeric one to [(0.0 + float(v)) / 1]. *)
Theorem single_file_cohort (fs : filesystem) (path : Path)
  (res : dict value) (ws : list diagnostic) :
  average_group_diags fs [path] = Ok (res, ws) ->
  ws = [] /\
  forall k,
    k <> RUNS ->
    get res k =
    match get (content fs path) k with
    | Some v =>
        match numeric_value v with
        | Some f =>
            Some (VFloat (PyFloat.div_count (PrimFloat.add PrimFloat.zero f) 1))
        | None => Some v
        end
    | None => None
    end.
Proof.
  intros H.
  pose proof (average_group_diags_ok_loadable _ _ _ H) as Hload.
  destruct (average_group_diags_spec fs [path]) as (res' & ws' & H' & _ & Hres & Hconf & _);
    [discriminate | assumption |].
  rewrite H' in H. injection H as -> ->.
  split.
  - destruct ws as [| d ws]; [reflexivity | exfalso].
    destruct d as [k nm | k nm | k c t].
    + assert (Hin : In (Inconsistent k nm) (inconsistencies k (Inconsistent k nm :: ws)))
        by (apply (proj1 (inconsistencies_In _ _ _)); simpl; auto).
      rewrite Hconf in Hin. unfold conflicts, non_numeric_occurrences, occurrences in Hin.
      simpl in Hin. destruct (get (content fs path) k) as [v |]; simpl in Hin;
        [| contradiction].
      destruct (numeric_value v); simpl in Hin; contradiction.
    + destruct (average_group_diags_spec fs [path])
        as (r2 & w2 & H2 & _ & _ & _ & _ & Hnm); [discriminate | assumption |].
      rewrite H' in H2. injection H2 as <- <-. inversion Hnm as [| ? ? Hd _]. exact Hd.
    + destruct (coverage_bounds fs [path] res _ k c t H' (or_introl eq_refl))
        as (-> & Hc & _).
      simpl in Hc. lia.
  - intros k Hk. rewrite (Hres k Hk).
    unfold expected, first_seen, numeric_values, non_numeric_occurrences, occurrences.
    simpl. destruct (get (content fs path) k) as [v |]; simpl; [| reflexivity].
    destruct (numeric_value v); reflexivity.
Qed.

Lemma single_file_cohort_witness :
  exists res,
    average_group_diags disk [m2] = Ok (res, []) /\
    get res "status" = Some (VStr "retry") /\
    get res "latency_ms" = Some (VFloat 20%float).
Proof.
  assert (Hrun : exists res ws, average_group_diags disk [m2] = Ok (res, ws))
    by (eexists; eexists; vm_compute; reflexivity).
  destruct Hrun as (res & ws & Hrun).
  destruct (single_file_cohort disk m2 res ws Hrun) as (-> & Hres).
  exists res. split; [exact Hrun | split].
  - rewrite Hres by discriminate. vm_compute. reflexivity.
  - rewrite Hres by discriminate. vm_compute. reflexivity.
Defined.

End DiagnosticFacts.

(** ** The cohorts of a directory *)

Section CohortFacts.
Import PyDict AverageStatistics Directory Examples.

Lemma add_to_group_get (data_dir : Path) (groups : dict (list Path))
  (file_name prefix : string) :
  get (add_to_group data_dir groups file_name) prefix =
  if under prefix file_name
  then Some (get_default [] groups prefix ++ [data_dir ++ [file_name]])
  else get groups prefix.
Proof.
  unfold add_to_group, under. destruct (SUMMARY_PATTERN file_name) as [p |]; [| reflexivity].
  rewrite get_set. destruct (String.eqb_spec p prefix) as [-> | Hne]; reflexivity.
Qed.

Lemma fold_groups_get (data_dir : Path) (names : list string) (groups : dict (list Path))
  (prefix : string) :
  get (fold_left (add_to_group data_dir) names groups) prefix =
  match filter (under prefix) names with
  | [] => get groups prefix
  | ns => Some (get_default [] groups prefix ++ map (fun n => data_dir ++ [n]) ns)
  end.
Proof.
  revert groups; induction names as [| n names IH]; intros groups; simpl; [reflexivity |].
  rewrite IH. unfold get_default. rewrite add_to_group_get.
  destruct (under prefix n); simpl.
  - destruct (filter (under prefix) names); simpl.
    + reflexivity.
    + now rewrite <- app_assoc.
  - reflexivity.
Qed.

Lemma fold_groups_NoDup (data_dir : Path) (names : list string) (groups : dict (list Path)) :
  NoDup (keys groups) -> NoDup (keys (fold_left (add_to_group data_dir) names groups)).
Proof.
  revert groups; induction names as [| n names IH]; intros groups H; simpl; [assumption |].
  apply IH. unfold add_to_group. destruct (SUMMARY_PATTERN n); [| assumption].
  now apply NoDup_keys_set.
Qed.

Lemma filter_glob_under (prefix : string) (names : list string) :
  filter (under prefix) (glob_json names) = filter (grouped_under prefix) names.
Proof.
  unfold glob_json, grouped_under, under.
  induction names as [| n names IH]; simpl; [reflexivity |].
  destruct (PyStr.endswith n ".json"); simpl; [| assumption].
  destruct (SUMMARY_PATTERN n) as [p |]; [| assumption].
  destruct (String.eqb p prefix); simpl; now rewrite IH.
Qed.

Lemma collect_groups_get (data_dir : Path) (names : list string) (prefix : string) :
  get (collect_groups data_dir names) prefix =
  match filter (grouped_under prefix) names with
  | [] => None
  | ns => Some (map (fun n => data_dir ++ [n]) ns)
  end.
Proof.
  change (collect_groups data_dir names)
    with (fold_left (add_to_group data_dir) (glob_json names) (@empty (list Path))).
  rewrite fold_groups_get, filter_glob_under. reflexivity.
Qed.

Lemma collect_groups_NoDup (data_dir : Path) (names : list string) :
  NoDup (keys (collect_groups data_dir names)).
Proof.
  change (collect_groups data_dir names)
    with (fold_left (add_to_group data_dir) (glob_json names) (@empty (list Path))).
  apply fold_groups_NoDup. constructor.
Qed.

Lemma get_In_items {V : Type} (d : dict V) (k : string) (v : V) :
  NoDup (keys d) -> (get d k = Some v <-> In (k, v) d).
Proof.
  induction d as [| [k' v'] d IH]; simpl; intros Hnd.
  - split; [discriminate | contradiction].
  - inversion Hnd as [| ? ? Hnotin Hnd']; subst.
    destruct (String.eqb_spec k' k) as [-> | Hne].
    + split; [intros [= ->]; now left |].
      intros [[= ->] | Hin]; [reflexivity |].
      exfalso. apply Hnotin. unfold keys. change k with (fst (k, v)). now apply in_map.
    + rewrite (IH Hnd'). split; [now right | intros [[= ? ?]| H]; [contradiction | assumption]].
Qed.

(** X5.  The cohort under a key is exactly the listed names that end in
    [.json] and whose pattern prefix is that key, in the order the directory
    lists them, each placed under [data_dir]; a key with no such name has no
    cohort, so no cohort is empty; and no key occurs twice. *)
Theorem cohort_contents (data_dir : Path) (names : list string) :
  (forall prefix,
     get (collect_groups data_dir names) prefix =
     match filter (grouped_under prefix) names with
     | [] => None
     | ns => Some (map (fun n => data_dir ++ [n]) ns)
     end) /\
  (forall prefix paths, In (prefix, paths) (collect_groups data_dir names) -> paths <> []) /\
  NoDup (keys (collect_groups data_dir names)).
Proof.
  split; [apply collect_groups_get | split; [| apply collect_groups_NoDup]].
  intros prefix paths Hin.
  apply (get_In_items _ _ _ (collect_groups_NoDup data_dir names)) in Hin.
  rewrite collect_groups_get in Hin.
  destruct (filter (grouped_under prefix) names); [discriminate |].
  injection Hin as <-. discriminate.
Qed.

Lemma cohort_contents_witness :
  get (collect_groups ["data"]
         ["rerun_id2_summary.json"; "notes.json"; "rerun_id1_summary.json";
          "rerun_summary.json"])
      "rerun" =
  Some [["data"; "rerun_id2_summary.json"]; ["data"; "rerun_id1_summary.json"]].
Proof.
  rewrite (proj1 (cohort_contents ["data"]
                    ["rerun_id2_summary.json"; "notes.json"; "rerun_id1_summary.json";
                     "rerun_summary.json"])).
  vm_compute. reflexivity.
Defined.

End CohortFacts.

(** ** Aggregating a directory *)

Section DirectoryFacts.
Import PyDict AverageStatistics Cohort Directory Examples.

Lemma average_group_has_runs (fs : filesystem) (file_list : list Path)
  (res : dict value) (warns : list string) :
  file_list <> [] ->
  average_group fs file_list = Ok (res, warns) ->
  get res RUNS = Some (VInt (Z.of_nat (List.length file_list))).
Proof.
  intros Hne H. apply average_group_ok_diags in H. destruct H as (ws & H & _).
  destruct (average_group_diags_inv _ _ _ _ H) as [(-> & _) | (_ & st & _ & Hfin)];
    [congruence |].
  unfold finish in Hfin. destruct (fold_left _ (key_order st) _) as [r w0].
  injection Hfin as <- <-. apply get_set_same.
Qed.

Lemma insert_item_Permutation (it : string * list Path) (l : list (string * list Path)) :
  Permutation (insert_item it l) (it :: l).
Proof.
  induction l as [| x l IH]; simpl; [reflexivity |].
  destruct (item_lt x it); [| reflexivity].
  rewrite IH. apply perm_swap.
Qed.

Lemma sorted_items_Permutation (groups : dict (list Path)) :
  Permutation (sorted_items groups) groups.
Proof.
  unfold sorted_items, items. induction groups as [| g groups IH]; simpl; [reflexivity |].
  rewrite insert_item_Permutation. now constructor.
Qed.

Lemma insert_item_ascending (it : string * list Path) (l : list (string * list Path)) :
  ~ In (fst it) (map fst l) ->
  StronglySorted key_below l -> StronglySorted key_below (insert_item it l).
Proof.
  intros Hfresh Hs. induction Hs as [| x l Hs IH Hx]; simpl.
  - repeat constructor.
  - simpl in Hfresh. unfold item_lt.
    destruct (String.compare (fst x) (fst it)) eqn:E.
    + apply String.compare_eq_iff in E. tauto.
    + constructor; [apply IH; tauto |].
      rewrite Forall_forall in *. intros z Hz.
      apply (Permutation_in _ (insert_item_Permutation it l)) in Hz.
      destruct Hz as [<- | Hz]; [exact E | auto].
    + assert (Hlt : key_below it x).
      { unfold key_below. rewrite String.compare_antisym, E. reflexivity. }
      constructor; [now constructor |].
      constructor; [assumption |].
      rewrite Forall_forall in *. intros z Hz.
      eapply string_compare_lt_trans; [exact Hlt | now apply Hx].
Qed.

Lemma sorted_items_ascending (groups : dict (list Path)) :
  NoDup (keys groups) -> StronglySorted key_below (sorted_items groups).
Proof.
  unfold sorted_items, items, keys. induction groups as [| g groups IH]; simpl; intros Hnd.
  - constructor.
  - inversion Hnd as [| ? ? Hnotin Hnd']; subst.
    apply insert_item_ascending; [| auto].
    intros Hin. apply Hnotin.
    apply (Permutation_in (fst g)
             (Permutation_map fst (sorted_items_Permutation groups))).
    exact Hin.
Qed.

Lemma write_groups_never_skips (w : world) (summary_dir : Path)
  (groups : list (string * list Path)) (prefix : string) :
  (forall g, In g groups -> snd g <> []) ->
  ~ In (Printed (Skipping prefix)) (fst (write_groups w summary_dir groups)).
Proof.
  induction groups as [| [k fl] groups IH]; intros Hne; simpl; [tauto |].
  assert (Hfl : fl <> []) by (apply (Hne (k, fl)); now left).
  assert (Hrest : forall g, In g groups -> snd g <> [])
    by (intros g Hg; apply Hne; now right).
  destruct (average_group (files w) fl) as [[averaged warns] | e] eqn:Ea; simpl; [| tauto].
  destruct averaged as [| kv averaged].
  - apply (average_group_has_runs _ _ _ _ Hfl) in Ea. discriminate.
  - destruct (open_for_writing w _); simpl; [tauto |].
    specialize (IH Hrest). destruct (write_groups w summary_dir groups) as [effs out].
    simpl in *. intros [Hin | [Hin | Hin]]; try discriminate.
    apply in_app_or in Hin. destruct Hin as [Hin | Hin]; [| auto].
    apply in_map_iff in Hin. destruct Hin as (t & Ht & _). discriminate.
Qed.

Lemma collect_groups_nonempty_lists (data_dir : Path) (names : list string)
  (g : string * list Path) :
  In g (sorted_items (collect_groups data_dir names)) -> snd g <> [].
Proof.
  intros H. apply (Permutation_in _ (sorted_items_Permutation _)) in H.
  destruct g as [k fl]. simpl.
  apply (get_In_items _ _ _ (collect_groups_NoDup data_dir names)) in H.
  rewrite collect_groups_get in H.
  destruct (filter (grouped_under k) names); [discriminate |].
  injection H as <-. discriminate.
Qed.

(** X6.  [aggregate_directory] never takes its "Skipping ...: no data to
    write" branch: whatever the directory holds, that line is not printed. *)
Theorem never_skips (w : world) (data_dir summary_dir : Path) (prefix : string) :
  ~ In (Printed (Skipping prefix)) (fst (aggregate_directory w data_dir summary_dir)).
Proof.
  unfold aggregate_directory.
  destruct (exists_ w data_dir); simpl; [| tauto].
  destruct (is_dir w data_dir); simpl; [| tauto].
  destruct (makedirs w summary_dir); simpl; [tauto |].
  destruct (collect_groups data_dir (listing w data_dir)) as [| g gs] eqn:Eg.
  - simpl. intros [H | [H | []]]; discriminate.
  - rewrite <- Eg.
    pose proof (write_groups_never_skips w summary_dir
                  (sorted_items (collect_groups data_dir (listing w data_dir))) prefix
                  (collect_groups_nonempty_lists data_dir (listing w data_dir))) as H.
    destruct (write_groups w summary_dir _) as [effs out]. simpl in *.
    intros [Hd | Hin]; [discriminate | auto].
Qed.

Lemma write_groups_outcome (w : world) (summary_dir : Path)
  (groups : list (string * list Path)) (f : failure) :
  snd (write_groups w summary_dir groups) = Some f -> exists e, f = Propagated e.
Proof.
  induction groups as [| [k fl] groups IH]; simpl; [discriminate |].
  destruct (average_group (files w) fl) as [[averaged warns] | e0]; simpl.
  - destruct averaged.
    + destruct (write_groups w summary_dir groups) as [effs out]. simpl in *. auto.
    + destruct (open_for_writing w _); simpl; [intros [= <-]; eauto |].
      destruct (write_groups w summary_dir groups) as [effs out]. simpl in *. auto.
  - intros [= <-]. eauto.
Qed.

Lemma aggregate_directory_started (w : world) (data_dir summary_dir : Path) :
  exists_ w data_dir = true -> is_dir w data_dir = true ->
  (makedirs w summary_dir <> None ->
   fst (aggregate_directory w data_dir summary_dir) = []) /\
  (forall f, snd (aggregate_directory w data_dir summary_dir) = Some f ->
             exists e, f = Propagated e).
Proof.
  intros He Hd. unfold aggregate_directory. rewrite He, Hd. simpl.
  destruct (makedirs w summary_dir) as [e |]; simpl.
  - split; [reflexivity | intros f [= <-]; eauto].
  - split; [congruence |].
    destruct (collect_groups data_dir (listing w data_dir)) as [| g gs]; simpl;
      [discriminate |].
    pose proof (write_groups_outcome w summary_dir (sorted_items (g :: gs))) as Hw.
    destruct (write_groups w summary_dir (sorted_items (g :: gs))) as [effs out].
    exact Hw.
Qed.













(** X10.  With the data directory in place and the summary directory made:
    when no listed name is grouped, [aggregate_directory] prints its "No
    matching summary files" line, writes nothing and returns; and that line
    is printed in no other case. *)
Theorem directory_without_match (w : world) (data_dir summary_dir : Path) :
  exists_ w data_dir = true ->
  is_dir w data_dir = true ->
  makedirs w summary_dir = None ->
  ((forall n prefix, In n (listing w data_dir) -> grouped_under prefix n = false) <->
   aggregate_directory w data_dir summary_dir =
     ([MadeDirs summary_dir; Printed (NoMatching data_dir)], None)) /\
  (In (Printed (NoMatching data_dir)) (fst (aggregate_directory w data_dir summary_dir)) ->
   forall n prefix, In n (listing w data_dir) -> grouped_under prefix n = false).
Proof.
  intros He Hd Hm.
  assert (Hempty : collect_groups data_dir (listing w data_dir) = [] <->
                   forall n prefix, In n (listing w data_dir) -> grouped_under prefix n = false).
  { split.
    - intros Hg n prefix Hin. pose proof (collect_groups_get data_dir (listing w data_dir) prefix) as Hget.
      rewrite Hg in Hget. simpl in Hget.
      destruct (filter (grouped_under prefix) (listing w data_dir)) as [| x xs] eqn:Ef;
        [| discriminate].
      destruct (grouped_under prefix n) eqn:Egu; [| reflexivity].
      assert (Hx : In n (filter (grouped_under prefix) (listing w data_dir)))
        by (apply filter_In; auto).
      rewrite Ef in Hx. contradiction.
    - intros Hno. destruct (collect_groups data_dir (listing w data_dir)) as [| [k fl] gs] eqn:Eg;
        [reflexivity | exfalso].
      pose proof (collect_groups_get data_dir (listing w data_dir) k) as Hget.
      rewrite Eg in Hget. simpl in Hget. rewrite String.eqb_refl in Hget.
      destruct (filter (grouped_under k) (listing w data_dir)) as [| x xs] eqn:Ef;
        [discriminate |].
      assert (Hx : In x (filter (grouped_under k) (listing w data_dir)))
        by (rewrite Ef; now left).
      apply filter_In in Hx. destruct Hx as (Hin & Hgu). rewrite (Hno x k Hin) in Hgu.
      discriminate. }
  assert (Hprint : forall groups,
             ~ In (Printed (NoMatching data_dir)) (fst (write_groups w summary_dir groups))).
  { induction groups as [| [k fl] groups IH]; simpl; [tauto |].
    destruct (average_group (files w) fl) as [[averaged warns] | e0]; simpl; [| tauto].
    destruct averaged.
    - destruct (write_groups w summary_dir groups) as [effs out]. simpl in *.
      intros [Hx | Hx]; [discriminate | auto].
    - destruct (open_for_writing w _); simpl; [tauto |].
      destruct (write_groups w summary_dir groups) as [effs out]. simpl in *.
      intros [Hx | [Hx | Hx]]; try discriminate.
      apply in_app_or in Hx. destruct Hx as [Hx | Hx]; [| auto].
      apply in_map_iff in Hx. destruct Hx as (t & Ht & _). discriminate. }
  assert (Hcase : In (Printed (NoMatching data_dir))
                    (fst (aggregate_directory w data_dir summary_dir)) ->
                  collect_groups data_dir (listing w data_dir) = []).
  { unfold aggregate_directory. rewrite He, Hd, Hm. simpl.
    destruct (collect_groups data_dir (listing w data_dir)) as [| g gs]; [reflexivity |].
    specialize (Hprint (sorted_items (g :: gs))).
    destruct (write_groups w summary_dir (sorted_items (g :: gs))) as [effs out].
    simpl in *. intros [Hx | Hx]; [discriminate | contradiction]. }
  split; [split |].
  - intros Hno. apply Hempty in Hno. unfold aggregate_directory.
    now rewrite He, Hd, Hm, Hno.
  - intros Hagg. apply Hempty, Hcase. rewrite Hagg. simpl. auto.
  - intros Hin. now apply Hempty, Hcase.
Qed.

Lemma directory_without_match_witness :
  aggregate_directory
    (mkWorld (fun _ => true) (fun _ => true)
       (fun _ => ["notes.json"; "model_x_size1_merge2_summary.json"])
       disk (fun _ => None) (fun _ => None))
    ["data"] ["summary"] =
  ([MadeDirs ["summary"]; Printed (NoMatching ["data"])], None).
Proof.
  apply (proj1 (directory_without_match
                  (mkWorld (fun _ => true) (fun _ => true)
                     (fun _ => ["notes.json"; "model_x_size1_merge2_summary.json"])
                     disk (fun _ => None) (fun _ => None))
                  ["data"] ["summary"] eq_refl eq_refl eq_refl)).
  intros n prefix [<- | [<- | []]]; reflexivity.
Defined.

End DirectoryFacts.

(** ** The metrics of a summary file *)

Section FileMetricsFacts.
Import PyDict AverageStatistics MergePlots Metrics.

Lemma collect_metric_get (acc acc' : dict float) (k0 : string) (v : value) (k : string) :
  collect_metric acc (k0, v) = Ok acc' ->
  get acc' k =
  if String.eqb k0 k
  then match metric_of k0 v with
       | Some (Ok f) => Some f
       | _ => get acc k
       end
  else get acc k.
Proof.
  unfold collect_metric, metric_of, skipped.
  destruct (existsb (String.eqb k0) SKIP_KEYS).
  - intros [= <-]. now destruct (String.eqb k0 k).
  - destruct (is_int_or_float v).
    + intros H. bind_inv H. injection H as <-. rewrite Ha, get_set.
      now destruct (String.eqb k0 k).
    + intros [= <-]. now destruct (String.eqb k0 k).
Qed.

Lemma collect_metrics_get (its : list (string * value)) (acc base : dict float) (k : string) :
  NoDup (keys its) ->
  for_each collect_metric its acc = Ok base ->
  get base k =
  match get its k with
  | Some v => match metric_of k v with
              | Some (Ok f) => Some f
              | _ => get acc k
              end
  | None => get acc k
  end.
Proof.
  revert acc; induction its as [| [k0 v] its IH]; intros acc Hnd H.
  - simpl in H. now injection H as <-.
  - unfold keys in Hnd. simpl in Hnd. inversion Hnd as [| ? ? Hnotin Hnd']; subst.
    cbn [for_each] in H. bind_inv H. cbn [get].
    destruct (String.eqb_spec k0 k) as [<- | Hne].
    + rewrite (collect_metrics_absent _ _ _ _ H Hnotin).
      rewrite (collect_metric_get _ _ _ _ k0 Ha), String.eqb_refl. reflexivity.
    + rewrite (IH _ Hnd' H). rewrite (collect_metric_get _ _ _ _ k Ha).
      destruct (String.eqb_spec k0 k); [contradiction | reflexivity].
Qed.

Lemma add_cost_get (model : string) (data : dict value) (base metrics : dict float)
  (k : string) :
  add_cost model data base = Ok metrics -> k <> COST -> get metrics k = get base k.
Proof.
  unfold add_cost. intros H Hk.
  destruct (mem base "avg_input_tokens" || mem base "avg_output_tokens");
    [| now injection H as <-].
  bind_inv H. injection H as <-. unfold setdefault.
  destruct (mem base COST); [reflexivity |]. apply get_set_other. congruence.
Qed.

Lemma add_cost_mem_cost (model : string) (data : dict value) (base metrics : dict float) :
  add_cost model data base = Ok metrics ->
  mem metrics COST = mem base COST || has_tokens base.
Proof.
  unfold add_cost, has_tokens. intros H.
  destruct (mem base "avg_input_tokens" || mem base "avg_output_tokens").
  - bind_inv H. injection H as <-. unfold setdefault.
    destruct (mem base COST) eqn:E; [now rewrite E |].
    rewrite mem_set, String.eqb_refl. reflexivity.
  - injection H as <-. now rewrite orb_false_r.
Qed.

Lemma get_In {V : Type} (d : dict V) (k : string) (v : V) :
  get d k = Some v -> In (k, v) d.
Proof.
  induction d as [| [k' v'] d IH]; simpl; [discriminate |].
  destruct (String.eqb_spec k' k) as [-> | Hne]; [intros [= ->]; now left | auto].
Qed.

Lemma collect_metrics_converts (its : list (string * value)) (acc base : dict float)
  (k : string) (v : value) :
  for_each collect_metric its acc = Ok base ->
  In (k, v) its -> skipped k = false -> is_int_or_float v = true ->
  exists f, py_float v = Ok f.
Proof.
  revert acc; induction its as [| [k' v'] its IH]; intros acc H Hin Hs Hnum;
    [contradiction |].
  cbn [for_each] in H. bind_inv H. destruct Hin as [[= -> ->] | Hin]; [| eauto].
  unfold collect_metric in Ha. fold (skipped k) in Ha. rewrite Hs, Hnum in Ha.
  bind_inv Ha. eauto.
Qed.

(** X11.  The metrics of a summary file never include ["number of runs"];
    apart from [avg_cost_usd], a key is a metric exactly when the record
    holds it with an [int], [float] or [bool] value, and the metric is the
    float of that value. *)
Theorem metrics_follow_record (model : string) (members : list (string * value))
  (metrics : dict float) :
  let data := of_pairs members in
  file_metrics model data = Ok metrics ->
  get metrics "number of runs" = None /\
  (forall k, k <> COST ->
     get metrics k =
     match get data k with
     | Some v => if negb (skipped k) && is_int_or_float v
                 then match py_float v with Ok f => Some f | Raise _ => None end
                 else None
     | None => None
     end) /\
  (forall k v, k <> COST -> get data k = Some v ->
               skipped k = false -> is_int_or_float v = true ->
               exists f, py_float v = Ok f /\ get metrics k = Some f).
Proof.
  intros data H. unfold file_metrics in H. bind_inv H. rename a into base.
  assert (Hbase : forall k,
             get base k =
             match get data k with
             | Some v => match metric_of k v with Some (Ok f) => Some f | _ => None end
             | None => None
             end).
  { intros k. unfold collect_metrics in Ha.
    apply (collect_metrics_get data empty base k (NoDup_keys_of_pairs members) Ha). }
  assert (Hmet : forall k, k <> COST ->
             get metrics k =
             match get data k with
             | Some v => if negb (skipped k) && is_int_or_float v
                         then match py_float v with Ok f => Some f | Raise _ => None end
                         else None
             | None => None
             end).
  { intros k Hk. rewrite (add_cost_get _ _ _ _ k H Hk), Hbase.
    destruct (get data k) as [v |]; [| reflexivity]. unfold metric_of.
    destruct (skipped k); [reflexivity |]. simpl.
    destruct (is_int_or_float v); [| reflexivity]. now destruct (py_float v). }
  split; [| split].
  - rewrite Hmet by discriminate. now destruct (get data "number of runs").
  - exact Hmet.
  - intros k v Hk Hget Hs Hnum. rewrite (Hmet k Hk), Hget, Hs, Hnum. simpl.
    destruct (collect_metrics_converts data empty base k v Ha) as (f & Hf); auto.
    { now apply get_In. }
    rewrite Hf. eauto.
Qed.

Lemma metrics_follow_record_witness :
  exists metrics,
    file_metrics "gpt-5"
      (of_pairs [("passed", VBool true); ("number of runs", VInt 3);
                 ("model name", VStr "gpt-5"); ("latency_ms", VInt 12)]) = Ok metrics /\
    get metrics "passed" = Some 1%float /\
    get metrics "number of runs" = None.
Proof.
  eexists. split; [vm_compute; reflexivity |].
  destruct (metrics_follow_record "gpt-5"
              [("passed", VBool true); ("number of runs", VInt 3);
               ("model name", VStr "gpt-5"); ("latency_ms", VInt 12)]
              [("passed", 1%float); ("latency_ms", 12%float)] eq_refl)
    as (Hruns & _ & Hnum).
  split; [| exact Hruns].
  destruct (Hnum "passed" (VBool true) ltac:(discriminate) eq_refl eq_refl eq_refl)
    as (f & Hf & Hget).
  injection Hf as <-. exact Hget.
Defined.

(** X12.  Whenever the metrics of a summary file are returned, they hold
    [avg_cost_usd] exactly when the record holds it with an [int], [float] or
    [bool] value or one of the two token averages is a metric. *)
Theorem cost_present_iff (model : string) (members : list (string * value))
  (metrics : dict float) :
  let data := of_pairs members in
  file_metrics model data = Ok metrics ->
  (mem metrics COST = true <->
   (exists v, get data COST = Some v /\ is_int_or_float v = true) \/
   mem metrics "avg_input_tokens" = true \/ mem metrics "avg_output_tokens" = true).
Proof.
  intros data H. unfold file_metrics in H. bind_inv H. rename a into base.
  pose proof (collect_metrics_get data empty base COST (NoDup_keys_of_pairs members) Ha)
    as Hbase.
  assert (Htok : has_tokens base = true <->
                 mem metrics "avg_input_tokens" = true \/
                 mem metrics "avg_output_tokens" = true).
  { unfold has_tokens, mem.
    rewrite (add_cost_get _ _ _ _ "avg_input_tokens" H) by discriminate.
    rewrite (add_cost_get _ _ _ _ "avg_output_tokens" H) by discriminate.
    apply orb_true_iff. }
  rewrite (add_cost_mem_cost _ _ _ _ H), orb_true_iff, Htok.
  assert (Hcost : mem base COST = true <->
                  exists v, get data COST = Some v /\ is_int_or_float v = true).
  { unfold mem. rewrite Hbase. simpl. split.
    - destruct (get data COST) as [v |]; [| discriminate].
      unfold metric_of. simpl. destruct (is_int_or_float v) eqn:E; [eauto | discriminate].
    - intros (v & Hget & Hnum). rewrite Hget. unfold metric_of. simpl. rewrite Hnum.
      destruct (collect_metrics_converts data empty base COST v Ha) as (f & ->); auto.
      now apply get_In. }
  rewrite Hcost. tauto.
Qed.

Lemma cost_present_iff_witness :
  exists metrics,
    file_metrics "gpt-5" (of_pairs [("avg_output_tokens", VInt 7)]) = Ok metrics /\
    mem metrics COST = true.
Proof.
  eexists. split; [vm_compute; reflexivity |].
  apply (proj2 (cost_present_iff "gpt-5" [("avg_output_tokens", VInt 7)]
                  [("avg_output_tokens", 7%float); (COST, 7.0000000000000007e-05%float)]
                  eq_refl)).
  right. right. reflexivity.
Defined.

Lemma py_float_raises (v : value) (e : exn) :
  is_int_or_float v = true -> py_float v = Raise e ->
  e = OverflowError /\ exists z, v = VInt z.
Proof.
  destruct v as [| b | z | f | s]; simpl; try discriminate.
  unfold PyFloat.of_int. destruct (PrimFloat.is_infinity _); [| discriminate].
  intros _ [= <-]. eauto.
Qed.

Lemma collect_metrics_raises (its : list (string * value)) (acc : dict float) (e : exn) :
  for_each collect_metric its acc = Raise e ->
  e = OverflowError /\
  exists k z, In (k, VInt z) its /\ skipped k = false /\
              PyFloat.of_int z = Raise OverflowError.
Proof.
  revert acc; induction its as [| [k v] its IH]; intros acc H; [discriminate |].
  cbn [for_each] in H. destruct (collect_metric acc (k, v)) as [acc' | e'] eqn:Ec.
  - simpl in H. destruct (IH _ H) as (He & k' & z & Hin & Hs & Hz).
    split; [assumption |]. exists k', z. simpl. auto.
  - simpl in H. injection H as <-. unfold collect_metric in Ec. fold (skipped k) in Ec.
    destruct (skipped k) eqn:Es; [discriminate |].
    destruct (is_int_or_float v) eqn:En; [| discriminate].
    destruct (py_float v) as [f | e1] eqn:Ef; [discriminate |].
    simpl in Ec. injection Ec as <-.
    destruct (py_float_raises v e1 En Ef) as (-> & z & ->).
    split; [reflexivity |]. exists k, z. simpl. auto.
Qed.

Lemma collect_metrics_returns (its : list (string * value)) (acc : dict float) :
  (forall k z, In (k, VInt z) its -> skipped k = false ->
               exists f, PyFloat.of_int z = Ok f) ->
  exists base, for_each collect_metric its acc = Ok base.
Proof.
  intros Hok. destruct (for_each collect_metric its acc) as [base | e] eqn:E; [eauto |].
  destruct (collect_metrics_raises _ _ _ E) as (_ & k & z & Hin & Hs & Hz).
  destruct (Hok k z Hin Hs) as (f & Hf). congruence.
Qed.

Lemma file_metrics_raises (model : string) (data : dict value) (e : exn) :
  file_metrics model data = Raise e ->
  (e = OverflowError /\
   exists k z, In (k, VInt z) (items data) /\ skipped k = false /\
               PyFloat.of_int z = Raise OverflowError) \/
  (e = AttributeError /\
   exists base v,
     collect_metrics data = Ok base /\ has_tokens base = true /\
     get data "model name" = Some v /\ truthy v = true /\
     forall s, v <> VStr s).
Proof.
  intros H. unfold file_metrics in H.
  destruct (collect_metrics data) as [base | e0] eqn:Ec; simpl in H.
  - right. unfold add_cost in H. fold (has_tokens base) in H.
    destruct (has_tokens base) eqn:Et; [| discriminate].
    unfold model_argument in H.
    destruct (get data "model name") as [v |] eqn:Eg; [| discriminate].
    destruct (truthy v) eqn:Etr; [| discriminate].
    destruct v; simpl in H; try discriminate; injection H as <-;
      (split; [reflexivity |]); eexists; eexists; repeat split; eauto;
      intros s0; discriminate.
  - injection H as <-. left. unfold collect_metrics in Ec.
    exact (collect_metrics_raises _ _ _ Ec).
Qed.

(** X13.  Computing the metrics of a summary file raises in two cases only:
    [OverflowError], for an [int] beyond the float range under a key that is
    not skipped; and [AttributeError], when a token average is a metric and
    the record's ["model name"] is a true value that is not a string.  It
    returns whenever neither can happen. *)
Theorem file_metrics_errors (model : string) (data : dict value) :
  (forall e,
     file_metrics model data = Raise e ->
     (e = OverflowError /\
      exists k z, In (k, VInt z) (items data) /\ skipped k = false /\
                  PyFloat.of_int z = Raise OverflowError) \/
     (e = AttributeError /\
      exists base v,
        collect_metrics data = Ok base /\ has_tokens base = true /\
        get data "model name" = Some v /\ truthy v = true /\
        forall s, v <> VStr s)) /\
  ((forall k z, In (k, VInt z) (items data) -> skipped k = false ->
                exists f, PyFloat.of_int z = Ok f) ->
   (forall v, get data "model name" = Some v -> truthy v = true ->
              exists s, v = VStr s) ->
   exists metrics, file_metrics model data = Ok metrics).
Proof.
  split; [intros e; apply file_metrics_raises |].
  intros Hint Hname. unfold file_metrics, collect_metrics.
  destruct (collect_metrics_returns (items data) empty Hint) as (base & ->). simpl.
  unfold add_cost. destruct (_ || _); [| eauto].
  unfold model_argument. destruct (get data "model name") as [v |]; [| simpl; eauto].
  destruct (truthy v) eqn:Etr; [| simpl; eauto].
  destruct (Hname v eq_refl Etr) as (s0 & ->). simpl. eauto.
Qed.

Lemma file_metrics_errors_witness :
  exists metrics,
    file_metrics "gpt-5"
      (of_pairs [("avg_input_tokens", VInt 9); ("model name", VInt 0);
                 ("number of runs", VInt (10 ^ 400))]) = Ok metrics.
Proof.
  apply (proj2 (file_metrics_errors "gpt-5"
                  (of_pairs [("avg_input_tokens", VInt 9); ("model name", VInt 0);
                             ("number of runs", VInt (10 ^ 400))]))).
  - intros k z Hin Hs. vm_compute in Hin.
    destruct Hin as [[= <- <-] | [[= <- <-] | [[= <- <-] | []]]].
    + eexists. vm_compute. reflexivity.
    + eexists. vm_compute. reflexivity.
    + vm_compute in Hs. discriminate.
  - intros v Hget Htr. vm_compute in Hget. injection Hget as <-. discriminate.
Defined.

End FileMetricsFacts.

(** ** The key a model name resolves to *)

Section NormalizeFacts.
Import PyDict MergePlots.

Lemma isspace_lower_char (c : ascii) : PyStr.isspace (PyStr.lower_char c) = PyStr.isspace c.
Proof. destruct c as [[] [] [] [] [] [] [] []]; reflexivity. Qed.

Lemma lower_char_idempotent (c : ascii) :
  PyStr.lower_char (PyStr.lower_char c) = PyStr.lower_char c.
Proof. destruct c as [[] [] [] [] [] [] [] []]; reflexivity. Qed.

Lemma lower_idempotent (s : string) : PyStr.lower (PyStr.lower s) = PyStr.lower s.
Proof.
  induction s as [| c s IH]; simpl; [reflexivity |].
  now rewrite lower_char_idempotent, IH.
Qed.

Lemma lstrip_lower (s : string) : PyStr.lstrip (PyStr.lower s) = PyStr.lower (PyStr.lstrip s).
Proof.
  induction s as [| c s IH]; simpl; [reflexivity |].
  rewrite isspace_lower_char. now destruct (PyStr.isspace c).
Qed.

Lemma rstrip_lower (s : string) : PyStr.rstrip (PyStr.lower s) = PyStr.lower (PyStr.rstrip s).
Proof.
  induction s as [| c s IH]; simpl; [reflexivity |].
  rewrite IH, isspace_lower_char.
  destruct (PyStr.rstrip s); simpl; [now destruct (PyStr.isspace c) | reflexivity].
Qed.

Lemma strip_lower (s : string) : PyStr.strip (PyStr.lower s) = PyStr.lower (PyStr.strip s).
Proof. unfold PyStr.strip. now rewrite lstrip_lower, rstrip_lower. Qed.

Lemma rstrip_idempotent (s : string) : PyStr.rstrip (PyStr.rstrip s) = PyStr.rstrip s.
Proof.
  induction s as [| c s IH]; simpl; [reflexivity |].
  destruct (PyStr.rstrip s) as [| d t] eqn:E.
  - destruct (PyStr.isspace c) eqn:Ec; simpl; [reflexivity | now rewrite Ec].
  - change (PyStr.rstrip (String c (String d t))) with
      (match PyStr.rstrip (String d t) with
       | EmptyString => if PyStr.isspace c then EmptyString else String c EmptyString
       | r => String c r
       end).
    now rewrite IH.
Qed.

(** What [lstrip] leaves starts with a character that is not a space. *)
Lemma lstrip_head (s : string) :
  PyStr.lstrip s = EmptyString \/
  exists c t, PyStr.lstrip s = String c t /\ PyStr.isspace c = false.
Proof.
  induction s as [| c s IH]; simpl; [now left |].
  destruct (PyStr.isspace c) eqn:E; [assumption | right; eauto].
Qed.

Lemma lstrip_rstrip_lstrip (s : string) :
  PyStr.lstrip (PyStr.rstrip (PyStr.lstrip s)) = PyStr.rstrip (PyStr.lstrip s).
Proof.
  destruct (lstrip_head s) as [-> | (c & t & -> & Hc)]; [reflexivity |].
  cbn [PyStr.rstrip]. destruct (PyStr.rstrip t); rewrite ?Hc; cbn [PyStr.lstrip];
    now rewrite Hc.
Qed.

Lemma strip_idempotent (s : string) : PyStr.strip (PyStr.strip s) = PyStr.strip s.
Proof.
  unfold PyStr.strip. now rewrite lstrip_rstrip_lstrip, rstrip_idempotent.
Qed.

Lemma normalized_fixed (model : string) :
  PyStr.lower (PyStr.strip (PyStr.lower (PyStr.strip model))) =
  PyStr.lower (PyStr.strip model).
Proof. now rewrite strip_lower, lower_idempotent, strip_idempotent. Qed.

Lemma normalize_of_normalized (model : string) :
  normalize_model_key (PyStr.lower (PyStr.strip model)) = normalize_model_key model.
Proof.
  destruct (string_dec model EmptyString) as [-> | Hne]; [reflexivity |].
  destruct (string_dec (PyStr.lower (PyStr.strip model)) EmptyString) as [He | Hn].
  - rewrite He, (normalize_unfold model Hne), He. vm_compute. reflexivity.
  - rewrite (normalize_unfold _ Hn), (normalize_unfold model Hne), normalized_fixed.
    reflexivity.
Qed.

(** X14.  The key a model name resolves to, and with it the cost, depends
    on the name only through its stripped, lower-cased form. *)
Theorem normalize_model_key_canonical (model : string) :
  normalize_model_key (PyStr.lower (PyStr.strip model)) = normalize_model_key model /\
  normalize_model_key (PyStr.strip model) = normalize_model_key model /\
  normalize_model_key (PyStr.lower model) = normalize_model_key model /\
  forall avg_input_tokens avg_output_tokens,
    compute_cost_usd (PyStr.lower (PyStr.strip model)) avg_input_tokens avg_output_tokens =
    compute_cost_usd model avg_input_tokens avg_output_tokens.
Proof.
  assert (Hs : normalize_model_key (PyStr.strip model) = normalize_model_key model).
  { rewrite <- (normalize_of_normalized (PyStr.strip model)), strip_idempotent.
    apply normalize_of_normalized. }
  assert (Hl : normalize_model_key (PyStr.lower model) = normalize_model_key model).
  { rewrite <- (normalize_of_normalized (PyStr.lower model)), strip_lower, lower_idempotent.
    apply normalize_of_normalized. }
  repeat split; auto using normalize_of_normalized.
  intros a b. unfold compute_cost_usd. now rewrite normalize_of_normalized.
Qed.

Lemma PRICES_keys_fixed (key : string) :
  In key (keys PRICES) -> normalize_model_key key = key.
Proof.
  assert (H : forallb (fun k => String.eqb (normalize_model_key k) k) (keys PRICES) = true)
    by (vm_compute; reflexivity).
  rewrite forallb_forall in H. intros Hin. now apply String.eqb_eq, H.
Qed.

(** X15.  Resolution is idempotent: the key a name resolves to is the empty
    string or a key of the price table, it resolves to itself, and it costs
    what the name costs. *)
Theorem normalize_model_key_idempotent (model : string) :
  (normalize_model_key model = EmptyString \/
   In (normalize_model_key model) (keys PRICES)) /\
  normalize_model_key (normalize_model_key model) = normalize_model_key model /\
  forall avg_input_tokens avg_output_tokens,
    compute_cost_usd (normalize_model_key model) avg_input_tokens avg_output_tokens =
    compute_cost_usd model avg_input_tokens avg_output_tokens.
Proof.
  assert (Hcases : normalize_model_key model = EmptyString \/
                   In (normalize_model_key model) (keys PRICES)).
  { destruct (string_dec (normalize_model_key model) EmptyString) as [He | Hne];
      [now left | right].
    now apply mem_keys, normalize_resolved_in_table. }
  assert (Hidem : normalize_model_key (normalize_model_key model) =
                  normalize_model_key model).
  { destruct Hcases as [-> | Hin]; [reflexivity | now apply PRICES_keys_fixed]. }
  repeat split; auto.
  intros a b. unfold compute_cost_usd. now rewrite Hidem.
Qed.

End NormalizeFacts.

(** ** The names the plot scripts load *)

Section LoaderPatternFacts.
Import PyDict AverageStatistics Loaders.

Lemma digit_run_spec (s : list ascii) :
  s = fst (digit_run s) ++ snd (digit_run s) /\
  forallb isdigit (fst (digit_run s)) = true /\
  (snd (digit_run s) = [] \/
   exists c r, snd (digit_run s) = c :: r /\ isdigit c = false).
Proof.
  induction s as [| c s (IH1 & IH2 & IH3)]; cbn [digit_run].
  - simpl. auto.
  - destruct (isdigit c) eqn:Ec.
    + destruct (digit_run s) as [d r]; cbn [fst snd] in *. repeat split.
      * simpl. now rewrite <- IH1.
      * cbn [forallb]. now rewrite Ec, IH2.
      * assumption.
    + cbn [fst snd]. repeat split. right; eauto.
Qed.

Lemma digit_run_stop (d r : list ascii) :
  forallb isdigit d = true ->
  (r = [] \/ exists c r', r = c :: r' /\ isdigit c = false) ->
  digit_run (d ++ r) = (d, r).
Proof.
  intros Hd Hr. induction d as [| c d IH]; cbn [app digit_run].
  - destruct Hr as [-> | (c & r' & -> & Hc)]; [reflexivity |].
    cbn [digit_run]. now rewrite Hc.
  - cbn [forallb] in Hd. apply andb_true_iff in Hd. destruct Hd as [Hc Hd].
    now rewrite Hc, (IH Hd).
Qed.

Lemma digits_no_underscore (d : list ascii) :
  forallb isdigit d = true -> ~ In PyStr.underscore d.
Proof.
  intros Hd Hin. rewrite forallb_forall in Hd. apply Hd in Hin. discriminate.
Qed.

Lemma match_rest_spec (s size merge : list ascii) :
  match_rest s = Some (size, merge) <-> exists e, rest_shape size merge e s.
Proof.
  unfold match_rest, rest_shape. split.
  - destruct (literal (chars "_size") s) as [r |] eqn:El; [| discriminate].
    apply literal_spec in El.
    destruct (digit_run_spec r) as (Hr & Hd & _).
    destruct (digit_run r) as [[| c d] r1]; [discriminate |]. cbn [fst snd] in Hr, Hd.
    destruct (literal (chars "_merge") r1) as [r2 |] eqn:El2; [| discriminate].
    apply literal_spec in El2.
    destruct (digit_run_spec r2) as (Hr2 & Hd2 & _).
    destruct (digit_run r2) as [[| c2 d2] r3]; [discriminate |]. cbn [fst snd] in Hr2, Hd2.
    destruct (literal (chars "_summary.json") r3) as [e |] eqn:El3; [| discriminate].
    apply literal_spec in El3.
    destruct (at_end e) eqn:He; [| discriminate].
    intros [= <- <-]. exists e.
    split; [| repeat split; auto; discriminate].
    rewrite El, Hr, El2, Hr2, El3. reflexivity.
  - intros (e & -> & Hne & Hd & Hne2 & Hd2 & He).
    rewrite (proj2 (literal_spec (chars "_size") _ _) eq_refl).
    rewrite (digit_run_stop size _ Hd)
      by (right; exists PyStr.underscore; eexists; split; reflexivity).
    destruct size as [| c d]; [congruence |].
    rewrite (proj2 (literal_spec (chars "_merge") _ _) eq_refl).
    rewrite (digit_run_stop merge _ Hd2)
      by (right; exists PyStr.underscore; eexists; split; reflexivity).
    destruct merge as [| c2 d2]; [congruence |].
    rewrite (proj2 (literal_spec (chars "_summary.json") _ _) eq_refl).
    now rewrite He.
Qed.

Lemma rest_shape_underscores (size merge e s : list ascii) :
  rest_shape size merge e s -> exists b, s = PyStr.underscore :: b /\ underscores b = 2.
Proof.
  intros (-> & _ & Hd & _ & Hd2 & He).
  exists (chars "size" ++ size ++ chars "_merge" ++ merge ++ chars "_summary.json" ++ e).
  split; [reflexivity |].
  unfold underscores. rewrite !count_occ_app.
  fold (underscores size) (underscores merge).
  rewrite (underscores_none size (digits_no_underscore _ Hd)).
  rewrite (underscores_none merge (digits_no_underscore _ Hd2)).
  destruct (at_end_cases e He) as [-> | ->]; reflexivity.
Qed.

Lemma match_rest_length (s : list ascii) (n : nat) :
  match_rest (skipn n s) <> None -> n < List.length s.
Proof.
  intros Hn. destruct (Nat.lt_ge_cases n (List.length s)) as [| Hge]; [assumption |].
  rewrite skipn_all2 in Hn by assumption. now contradiction Hn.
Qed.

Lemma match_rest_unique (s : list ascii) (m m' : nat) (x x' : list ascii * list ascii) :
  match_rest (skipn m s) = Some x -> match_rest (skipn m' s) = Some x' -> m = m'.
Proof.
  intros H H'.
  assert (Hm : m < List.length s) by (apply match_rest_length; congruence).
  assert (Hm' : m' < List.length s) by (apply match_rest_length; congruence).
  destruct x as [sz mg], x' as [sz' mg'].
  apply match_rest_spec in H, H'.
  destruct H as (e & Hs). destruct H' as (e' & Hs').
  apply rest_shape_underscores in Hs, Hs'.
  destruct Hs as (b & Hb & Hcb). destruct Hs' as (b' & Hb' & Hcb').
  assert (Heq : firstn m s = firstn m' s).
  { apply (split_unique _ _ b b'); [| congruence].
    rewrite <- Hb, <- Hb'. now rewrite !firstn_skipn. }
  apply (f_equal (@List.length ascii)) in Heq.
  rewrite !firstn_length_le in Heq by lia. assumption.
Qed.

Lemma backtrack_model_some (s model size merge : list ascii) (n : nat) :
  backtrack_model s n = Some (model, size, merge) ->
  exists m, 1 <= m <= n /\ model = firstn m s /\
            match_rest (skipn m s) = Some (size, merge).
Proof.
  induction n as [| n IH]; cbn [backtrack_model]; [discriminate |].
  destruct (match_rest (skipn (S n) s)) as [[sz mg] |] eqn:E.
  - intros [= <- <- <-]. exists (S n). repeat split; auto; lia.
  - intros H. destruct (IH H) as (m & Hm & Hp & Ht). exists m. repeat split; auto; lia.
Qed.

Lemma backtrack_model_found (s size merge : list ascii) (m n : nat) :
  1 <= m <= n -> match_rest (skipn m s) = Some (size, merge) ->
  backtrack_model s n = Some (firstn m s, size, merge).
Proof.
  intros Hm Ht. induction n as [| n IH]; [lia |].
  cbn [backtrack_model]. destruct (match_rest (skipn (S n) s)) as [[sz mg] |] eqn:E.
  - rewrite <- (match_rest_unique s m (S n) _ _ Ht E) in E |- *. congruence.
  - apply IH. destruct (Nat.eq_dec m (S n)) as [-> | Hne]; [congruence | lia].
Qed.

(** The groups of a match, on character lists. *)
Lemma backtrack_model_spec (s model size merge : list ascii) :
  backtrack_model s (dot_run s) = Some (model, size, merge) <->
  model <> [] /\ ~ In PyStr.nl model /\
  exists e, rest_shape size merge e (skipn (List.length model) s) /\
            s = model ++ skipn (List.length model) s.
Proof.
  split.
  - intros H. destruct (backtrack_model_some _ _ _ _ _ H) as (m & Hm & -> & Ht).
    assert (Hlen : m < List.length s) by (apply match_rest_length; congruence).
    assert (Hl : List.length (firstn m s) = m) by (apply firstn_length_le; lia).
    repeat split.
    + intros E. rewrite E in Hl. simpl in Hl. lia.
    + apply dot_run_firstn; lia.
    + rewrite Hl. apply match_rest_spec in Ht. destruct Ht as (e & Hs).
      exists e. split; [assumption | now rewrite firstn_skipn].
  - intros (Hne & Hnl & e & Hs & Hsplit).
    assert (Hp : firstn (List.length model) s = model).
    { rewrite Hsplit at 1. apply firstn_length_app. }
    rewrite <- Hp at 1. apply backtrack_model_found.
    + split.
      * destruct model; [congruence | simpl; lia].
      * rewrite Hsplit at 1. now apply dot_run_prefix.
    + apply match_rest_spec. eauto.
Qed.

Lemma chars_string (l : list ascii) : chars (string_of_list_ascii l) = l.
Proof. apply list_ascii_of_string_of_list_ascii. Qed.

Lemma string_chars (s : string) : string_of_list_ascii (chars s) = s.
Proof. apply string_of_list_ascii_of_string. Qed.

(** The pattern on character lists: what precedes the end [e] of the name. *)
Lemma FILENAME_PATTERN_chars (file_name model size merge : string) :
  FILENAME_PATTERN file_name = Some (model, size, merge) <->
  exists e,
    chars file_name =
      chars "model_" ++ chars model ++ chars "_size" ++ chars size ++ chars "_merge"
      ++ chars merge ++ chars "_summary.json" ++ e /\
    at_end e = true /\
    model <> EmptyString /\ ~ In PyStr.nl (chars model) /\
    size <> EmptyString /\ forallb isdigit (chars size) = true /\
    merge <> EmptyString /\ forallb isdigit (chars merge) = true.
Proof.
  unfold FILENAME_PATTERN. split.
  - destruct (literal (chars "model_") (chars file_name)) as [s |] eqn:El; [| discriminate].
    apply literal_spec in El.
    destruct (backtrack_model s (dot_run s)) as [[[m sz] mg] |] eqn:Eb; [| discriminate].
    intros [= <- <- <-].
    apply backtrack_model_spec in Eb.
    destruct Eb as (Hne & Hnl & e & (Hrest & Hsz & Hdsz & Hmg & Hdmg & He) & Hsplit).
    exists e. rewrite !chars_string.
    repeat split; auto; try (apply chars_nonempty; now rewrite chars_string).
    rewrite El, Hsplit at 1. now rewrite Hrest.
  - intros (e & Hn & He & Hm & Hnl & Hsz & Hdsz & Hmg & Hdmg).
    rewrite (proj2 (literal_spec (chars "model_") (chars file_name) _) Hn).
    rewrite (proj2 (backtrack_model_spec _ (chars model) (chars size) (chars merge))).
    + now rewrite !string_chars.
    + split; [now apply chars_nonempty | split; [assumption |]].
      exists e. rewrite skipn_length_app. split; [| reflexivity].
      repeat split; auto; now apply chars_nonempty.
Qed.

Lemma at_end_strings (e : list ascii) :
  at_end e = true <-> e = chars EmptyString \/ e = chars (String PyStr.nl EmptyString).
Proof.
  split; [apply at_end_cases | intros [-> | ->]; reflexivity].
Qed.

Lemma digits_no_nl (d : list ascii) : forallb isdigit d = true -> ~ In PyStr.nl d.
Proof.
  intros Hd Hin. rewrite forallb_forall in Hd. apply Hd in Hin. discriminate.
Qed.

(** X17.  No name is matched by both patterns: a per-run file
    [<key>_id<token>_summary.json] is never loaded by the plot scripts, and a
    summary the plot scripts load is never put in a cohort; the loops of both
    loaders pass over every name [collect_groups] groups. *)
Theorem patterns_disjoint (file_name : string) :
  (SUMMARY_PATTERN file_name = None \/ FILENAME_PATTERN file_name = None) /\
  (forall fs data_dir st1 st2,
     SUMMARY_PATTERN file_name <> None ->
     merge1_step fs data_dir st1 file_name = Ok st1 /\
     compare_step fs data_dir st2 file_name = Ok st2).
Proof.
  assert (H : SUMMARY_PATTERN file_name = None \/ FILENAME_PATTERN file_name = None).
  { destruct (SUMMARY_PATTERN file_name) as [prefix |] eqn:Es; [right | now left].
    destruct (FILENAME_PATTERN file_name) as [[[model size] merge] |] eqn:Ef;
      [exfalso | reflexivity].
    unfold SUMMARY_PATTERN in Es.
    destruct (backtrack (chars file_name) (dot_run (chars file_name))) as [p |] eqn:Eb;
      [| discriminate].
    apply backtrack_spec in Eb.
    destruct Eb as (_ & _ & tok & e & (Hrest & _ & Hus & He) & Hsplit).
    rewrite Hrest in Hsplit.
    apply FILENAME_PATTERN_chars in Ef.
    destruct Ef as (e' & Hn & He' & _ & _ & _ & _ & _ & Hd).
    assert (Hone : underscores (chars "id" ++ tok ++ chars "_summary.json" ++ e) = 1).
    { unfold underscores. rewrite !count_occ_app. fold (underscores tok).
      rewrite (underscores_none tok Hus).
      destruct (at_end_cases e He) as [-> | ->]; reflexivity. }
    assert (Hone' : underscores (chars "merge" ++ chars merge ++ chars "_summary.json" ++ e')
                    = 1).
    { unfold underscores. rewrite !count_occ_app. fold (underscores (chars merge)).
      rewrite (underscores_none _ (digits_no_underscore _ Hd)).
      destruct (at_end_cases e' He') as [-> | ->]; reflexivity. }
    assert (Hsame :
              p ++ PyStr.underscore :: (chars "id" ++ tok ++ chars "_summary.json" ++ e) =
              (chars "model_" ++ chars model ++ chars "_size" ++ chars size)
              ++ PyStr.underscore
                 :: (chars "merge" ++ chars merge ++ chars "_summary.json" ++ e')).
    { transitivity (chars file_name); [symmetry; exact Hsplit |].
      rewrite Hn, <- !app_assoc. reflexivity. }
    pose proof (split_unique _ _ _ _ Hsame (eq_trans Hone (eq_sym Hone'))) as Hp.
    rewrite Hp in Hsame. apply app_inv_head in Hsame. discriminate. }
  split; [exact H |].
  intros fs data_dir st1 st2 Hs. destruct H as [H | H]; [contradiction |].
  unfold merge1_step, compare_step. now rewrite H.
Qed.

(** X18.  The summary [aggregate_directory] writes for the cohort of the
    run files [model_<model>_size<s>_merge<g>_id<token>_summary.json] is a name
    the glob and the pattern of the plot scripts accept, with the groups
    [model], [s] and [g]. *)
Theorem summary_names_round_trip (model size merge token : string) :
  model <> EmptyString -> ~ In PyStr.nl (chars model) ->
  size <> EmptyString -> forallb isdigit (chars size) = true ->
  merge <> EmptyString -> forallb isdigit (chars merge) = true ->
  token <> EmptyString -> ~ In PyStr.underscore (chars token) ->
  let key := ("model_" ++ model ++ "_size" ++ size ++ "_merge" ++ merge)%string in
  SUMMARY_PATTERN (key ++ "_id" ++ token ++ "_summary.json")%string = Some key /\
  glob_matches (Directory.summary_name key) = true /\
  FILENAME_PATTERN (Directory.summary_name key) = Some (model, size, merge).
Proof.
  intros Hm Hnl Hs Hds Hg Hdg Ht Hus key. split; [| split].
  - apply (pattern_of_shape key token). repeat split; auto.
    + discriminate.
    + unfold key. rewrite !chars_app, !in_app_iff.
      pose proof (digits_no_nl _ Hds). pose proof (digits_no_nl _ Hdg).
      intros [Hin | [Hin | [Hin | [Hin | [Hin | Hin]]]]]; auto;
        vm_compute in Hin; intuition discriminate.
  - unfold glob_matches, Directory.summary_name, key.
    rewrite (proj2 (literal_spec (chars "model_") _
                      (chars (model ++ "_size" ++ size ++ "_merge" ++ merge
                              ++ "_summary.json")%string))).
    + rewrite string_chars. apply endswith_spec.
      exists (model ++ "_size" ++ size ++ "_merge" ++ merge)%string.
      apply chars_inj. rewrite !chars_app, <- !app_assoc. reflexivity.
    + rewrite !chars_app, <- !app_assoc. reflexivity.
  - apply FILENAME_PATTERN_chars. exists [].
    repeat split; auto.
    unfold Directory.summary_name, key. rewrite !chars_app, <- !app_assoc, app_nil_r.
    reflexivity.
Qed.

Lemma summary_names_round_trip_witness :
  SUMMARY_PATTERN "model_x_size1_merge2_id211_summary.json" = Some "model_x_size1_merge2" /\
  glob_matches "model_x_size1_merge2_summary.json" = true /\
  FILENAME_PATTERN "model_x_size1_merge2_summary.json" = Some ("x", "1", "2").
Proof.
  apply (summary_names_round_trip "x" "1" "2" "211");
    try discriminate; try reflexivity; vm_compute; intuition discriminate.
Defined.

End LoaderPatternFacts.

(** ** What the loaders return *)

(** ** The file-name pattern, for every digit class *)

Section TextPatternFacts.
Import PyDict AverageStatistics Loaders PlotScripts.
Variable t : text.
Hypothesis sound : decimal_sound t.

Lemma decimal_digit (d : list ascii) (v : Z) :
  decimal t d = Some (v, []) -> d <> [] /\ ~ In PyStr.underscore d.
Proof.
  intros H. destruct (proj1 sound _ _ _ H) as (d' & Hd & Hne & Hus & _).
  rewrite app_nil_r in Hd. subst d'. auto.
Qed.

Lemma decimal_nil : decimal t [] = None.
Proof.
  destruct (decimal t []) as [[v r] |] eqn:E; [exfalso | reflexivity].
  destruct (proj1 sound _ _ _ E) as (d & Hd & Hne & _).
  symmetry in Hd. apply app_eq_nil in Hd. destruct Hd. contradiction.
Qed.

Lemma decimal_underscore (r : list ascii) : decimal t (PyStr.underscore :: r) = None.
Proof.
  destruct (decimal t (PyStr.underscore :: r)) as [[v r'] |] eqn:E; [exfalso | reflexivity].
  destruct (proj1 sound _ _ _ E) as (d & Hd & Hne & Hus & _).
  destruct d as [| c d]; [contradiction |]. cbn [app] in Hd. injection Hd as <- _.
  apply Hus. now left.
Qed.

Lemma digit_text_spec (s : list ascii) :
  digit_text t s -> s <> [] /\ ~ In PyStr.underscore s.
Proof.
  induction 1 as [d v Hd | d v s Hd Hs (IHne & IHus)].
  - now apply (decimal_digit d v).
  - destruct (decimal_digit d v Hd) as (Hne & Hus). split.
    + intros E. apply app_eq_nil in E. destruct E. contradiction.
    + rewrite in_app_iff. tauto.
Qed.

Lemma consumed (d r : list ascii) :
  firstn (List.length (d ++ r) - List.length r) (d ++ r) = d.
Proof.
  rewrite length_app, Nat.add_sub. apply firstn_length_app.
Qed.

Lemma digit_run_none (fuel : nat) (s : list ascii) :
  decimal t s = None -> digit_run t fuel s = ([], s).
Proof.
  intros H. destruct fuel; cbn [digit_run]; [reflexivity | now rewrite H].
Qed.

(** With fuel for every byte, the run takes digits as long as there are
    some. *)
Lemma text_digit_run_spec (fuel : nat) (s : list ascii) :
  List.length s <= fuel ->
  s = fst (digit_run t fuel s) ++ snd (digit_run t fuel s) /\
  (fst (digit_run t fuel s) = [] \/ digit_text t (fst (digit_run t fuel s))) /\
  decimal t (snd (digit_run t fuel s)) = None.
Proof.
  revert s. induction fuel as [| fuel IH]; intros s Hlen; cbn [digit_run].
  - destruct s; [| cbn in Hlen; lia]. cbn [fst snd]. repeat split; auto.
    apply decimal_nil.
  - destruct (decimal t s) as [[v r] |] eqn:E.
    + destruct (proj1 sound _ _ _ E) as (d & -> & Hne & Hus & Hd).
      assert (Hr : List.length r <= fuel).
      { rewrite length_app in Hlen. destruct d; [contradiction |]. cbn in Hlen. lia. }
      destruct (IH r Hr) as (Hsplit & Htext & Hstop).
      rewrite consumed. destruct (digit_run t fuel r) as [ds rest]. cbn [fst snd] in *.
      split; [now rewrite <- app_assoc, <- Hsplit |]. split; [| assumption]. right.
      destruct Htext as [-> | Htext].
      * rewrite app_nil_r. now apply (digit_one t d v).
      * now apply (digit_more t d v).
    + cbn [fst snd]. repeat split; auto.
Qed.

Lemma text_digit_run_stop (ds r : list ascii) :
  digit_text t ds -> decimal t r = None ->
  forall fuel, List.length (ds ++ r) <= fuel -> digit_run t fuel (ds ++ r) = (ds, r).
Proof.
  intros Hds Hr. induction Hds as [d v Hd | d v s Hd Hs IH]; intros fuel Hlen.
  - destruct (decimal_digit d v Hd) as (Hne & _).
    destruct fuel as [| fuel].
    { rewrite length_app in Hlen. destruct d; [contradiction | cbn in Hlen; lia]. }
    cbn [digit_run]. rewrite (proj2 sound d v r Hd), consumed, (digit_run_none fuel r Hr).
    now rewrite app_nil_r.
  - destruct (decimal_digit d v Hd) as (Hne & _).
    destruct fuel as [| fuel].
    { rewrite length_app in Hlen. destruct d; [contradiction | cbn in Hlen; lia]. }
    cbn [digit_run]. rewrite <- app_assoc.
    rewrite (proj2 sound d v (s ++ r) Hd), consumed, IH; [reflexivity |].
    rewrite <- app_assoc, length_app in Hlen. destruct d; [contradiction |].
    cbn in Hlen. lia.
Qed.

Lemma text_match_rest_spec (s size merge : list ascii) :
  match_rest t s = Some (size, merge) <-> exists e, rest_shape t size merge e s.
Proof.
  unfold match_rest, rest_shape. split.
  - destruct (literal (chars "_size") s) as [r |] eqn:El; [| discriminate].
    apply literal_spec in El.
    destruct (text_digit_run_spec (List.length r) r (le_n _)) as (Hr & Hd & _).
    destruct (digit_run t (List.length r) r) as [[| c d] r1]; [discriminate |].
    cbn [fst snd] in Hr, Hd. destruct Hd as [Hd | Hd]; [discriminate |].
    destruct (literal (chars "_merge") r1) as [r2 |] eqn:El2; [| discriminate].
    apply literal_spec in El2.
    destruct (text_digit_run_spec (List.length r2) r2 (le_n _)) as (Hr2 & Hd2 & _).
    destruct (digit_run t (List.length r2) r2) as [[| c2 d2] r3]; [discriminate |].
    cbn [fst snd] in Hr2, Hd2. destruct Hd2 as [Hd2 | Hd2]; [discriminate |].
    destruct (literal (chars "_summary.json") r3) as [e |] eqn:El3; [| discriminate].
    apply literal_spec in El3.
    destruct (at_end e) eqn:He; [| discriminate].
    intros [= <- <-]. exists e. repeat split; auto.
    rewrite El, Hr, El2, Hr2, El3. reflexivity.
  - intros (e & -> & Hd & Hd2 & He).
    rewrite (proj2 (literal_spec (chars "_size") _ _) eq_refl).
    rewrite (text_digit_run_stop size (chars "_merge" ++ merge ++ chars "_summary.json" ++ e)
               Hd (decimal_underscore _) _ (le_n _)).
    destruct (digit_text_spec _ Hd) as (Hne & _).
    destruct size as [| c d]; [congruence |].
    rewrite (proj2 (literal_spec (chars "_merge") _ _) eq_refl).
    rewrite (text_digit_run_stop merge (chars "_summary.json" ++ e)
               Hd2 (decimal_underscore _) _ (le_n _)).
    destruct (digit_text_spec _ Hd2) as (Hne2 & _).
    destruct merge as [| c2 d2]; [congruence |].
    rewrite (proj2 (literal_spec (chars "_summary.json") _ _) eq_refl).
    now rewrite He.
Qed.

Lemma text_rest_shape_underscores (size merge e s : list ascii) :
  rest_shape t size merge e s -> exists b, s = PyStr.underscore :: b /\ underscores b = 2.
Proof.
  intros (-> & Hd & Hd2 & He).
  exists (chars "size" ++ size ++ chars "_merge" ++ merge ++ chars "_summary.json" ++ e).
  split; [reflexivity |].
  unfold underscores. rewrite !count_occ_app.
  fold (underscores size) (underscores merge).
  rewrite (underscores_none size (proj2 (digit_text_spec _ Hd))).
  rewrite (underscores_none merge (proj2 (digit_text_spec _ Hd2))).
  destruct (at_end_cases e He) as [-> | ->]; reflexivity.
Qed.

Lemma text_match_rest_length (s : list ascii) (n : nat) :
  match_rest t (skipn n s) <> None -> n < List.length s.
Proof.
  intros Hn. destruct (Nat.lt_ge_cases n (List.length s)) as [| Hge]; [assumption |].
  rewrite skipn_all2 in Hn by assumption. now contradiction Hn.
Qed.

Lemma text_match_rest_unique (s : list ascii) (m m' : nat) (x x' : list ascii * list ascii) :
  match_rest t (skipn m s) = Some x -> match_rest t (skipn m' s) = Some x' -> m = m'.
Proof.
  intros H H'.
  assert (Hm : m < List.length s) by (apply text_match_rest_length; congruence).
  assert (Hm' : m' < List.length s) by (apply text_match_rest_length; congruence).
  destruct x as [sz mg], x' as [sz' mg'].
  apply text_match_rest_spec in H, H'.
  destruct H as (e & Hs). destruct H' as (e' & Hs').
  apply text_rest_shape_underscores in Hs, Hs'.
  destruct Hs as (b & Hb & Hcb). destruct Hs' as (b' & Hb' & Hcb').
  assert (Heq : firstn m s = firstn m' s).
  { apply (split_unique _ _ b b'); [| congruence].
    rewrite <- Hb, <- Hb'. now rewrite !firstn_skipn. }
  apply (f_equal (@List.length ascii)) in Heq.
  rewrite !firstn_length_le in Heq by lia. assumption.
Qed.

Lemma text_backtrack_some (s model size merge : list ascii) (n : nat) :
  backtrack_model t s n = Some (model, size, merge) ->
  exists m, 1 <= m <= n /\ model = firstn m s /\
            match_rest t (skipn m s) = Some (size, merge).
Proof.
  induction n as [| n IH]; cbn [backtrack_model]; [discriminate |].
  destruct (match_rest t (skipn (S n) s)) as [[sz mg] |] eqn:E.
  - intros [= <- <- <-]. exists (S n). repeat split; auto; lia.
  - intros H. destruct (IH H) as (m & Hm & Hp & Ht). exists m. repeat split; auto; lia.
Qed.

Lemma text_backtrack_found (s size merge : list ascii) (m n : nat) :
  1 <= m <= n -> match_rest t (skipn m s) = Some (size, merge) ->
  backtrack_model t s n = Some (firstn m s, size, merge).
Proof.
  intros Hm Ht. induction n as [| n IH]; [lia |].
  cbn [backtrack_model]. destruct (match_rest t (skipn (S n) s)) as [[sz mg] |] eqn:E.
  - rewrite <- (text_match_rest_unique s m (S n) _ _ Ht E) in E |- *. congruence.
  - apply IH. destruct (Nat.eq_dec m (S n)) as [-> | Hne]; [congruence | lia].
Qed.

Lemma text_backtrack_spec (s model size merge : list ascii) :
  backtrack_model t s (dot_run s) = Some (model, size, merge) <->
  model <> [] /\ ~ In PyStr.nl model /\
  exists e, rest_shape t size merge e (skipn (List.length model) s) /\
            s = model ++ skipn (List.length model) s.
Proof.
  split.
  - intros H. destruct (text_backtrack_some _ _ _ _ _ H) as (m & Hm & -> & Ht).
    assert (Hlen : m < List.length s) by (apply text_match_rest_length; congruence).
    assert (Hl : List.length (firstn m s) = m) by (apply firstn_length_le; lia).
    repeat split.
    + intros E. rewrite E in Hl. simpl in Hl. lia.
    + apply dot_run_firstn; lia.
    + rewrite Hl. apply text_match_rest_spec in Ht. destruct Ht as (e & Hs).
      exists e. split; [assumption | now rewrite firstn_skipn].
  - intros (Hne & Hnl & e & Hs & Hsplit).
    assert (Hp : firstn (List.length model) s = model).
    { rewrite Hsplit at 1. apply firstn_length_app. }
    rewrite <- Hp at 1. apply text_backtrack_found.
    + split.
      * destruct model; [congruence | simpl; lia].
      * rewrite Hsplit at 1. now apply dot_run_prefix.
    + apply text_match_rest_spec. eauto.
Qed.

Lemma text_pattern_chars (file_name model size merge : string) :
  FILENAME_PATTERN t file_name = Some (model, size, merge) <->
  exists e,
    chars file_name =
      chars "model_" ++ chars model ++ chars "_size" ++ chars size ++ chars "_merge"
      ++ chars merge ++ chars "_summary.json" ++ e /\
    at_end e = true /\
    model <> EmptyString /\ ~ In PyStr.nl (chars model) /\
    digit_text t (chars size) /\ digit_text t (chars merge).
Proof.
  unfold FILENAME_PATTERN. split.
  - destruct (literal (chars "model_") (chars file_name)) as [s |] eqn:El; [| discriminate].
    apply literal_spec in El.
    destruct (backtrack_model t s (dot_run s)) as [[[m sz] mg] |] eqn:Eb; [| discriminate].
    intros [= <- <- <-].
    apply text_backtrack_spec in Eb.
    destruct Eb as (Hne & Hnl & e & (Hrest & Hdsz & Hdmg & He) & Hsplit).
    exists e. rewrite !chars_string.
    repeat split; auto; try (apply chars_nonempty; now rewrite chars_string).
    rewrite El, Hsplit at 1. now rewrite Hrest.
  - intros (e & Hn & He & Hm & Hnl & Hdsz & Hdmg).
    rewrite (proj2 (literal_spec (chars "model_") (chars file_name) _) Hn).
    rewrite (proj2 (text_backtrack_spec _ (chars model) (chars size) (chars merge))).
    + now rewrite !string_chars.
    + split; [now apply chars_nonempty | split; [assumption |]].
      exists e. rewrite skipn_length_app. split; [| reflexivity].
      repeat split; auto.
Qed.

(** X16.  Whatever the digit class, the file-name pattern of the plot
    scripts matches exactly the names
    [model_<model>_size<digits>_merge<digits>_summary.json], with a model that
    is not empty and holds no line feed, possibly followed by one line feed;
    the three groups of a match are the three parts, so a name has at most one
    such reading. *)
Theorem filename_pattern_shape (file_name : string) :
  (forall model size merge,
     FILENAME_PATTERN t file_name = Some (model, size, merge) <->
     filename_shape t model size merge file_name) /\
  (forall model size merge model' size' merge',
     filename_shape t model size merge file_name ->
     filename_shape t model' size' merge' file_name ->
     model = model' /\ size = size' /\ merge = merge').
Proof.
  assert (Hiff : forall model size merge,
            FILENAME_PATTERN t file_name = Some (model, size, merge) <->
            filename_shape t model size merge file_name).
  { intros model size merge. rewrite text_pattern_chars. unfold filename_shape. split.
    - intros (e & Hn & He & Hrest). split; [| exact Hrest].
      apply at_end_strings in He. destruct He as [-> | ->]; [left | right];
        apply chars_inj; rewrite Hn, !chars_app; [now rewrite app_nil_r | reflexivity].
    - intros ([-> | ->] & Hrest).
      + exists []. rewrite !chars_app, app_nil_r. repeat split; tauto.
      + exists [PyStr.nl]. rewrite !chars_app. repeat split; tauto. }
  split; [exact Hiff |].
  intros model size merge model' size' merge' H H'.
  apply Hiff in H, H'. rewrite H in H'. now injection H' as -> -> ->.
Qed.

End TextPatternFacts.

Section TextPatternWitness.
Import PyDict AverageStatistics Loaders PlotScripts.

Lemma ascii_decimal_sound : decimal_sound ascii_text.
Proof.
  split.
  - intros s v r H. cbn [decimal ascii_text] in H |- *. unfold ascii_decimal in H |- *.
    destruct s as [| c s]; [discriminate |].
    destruct (isdigit c) eqn:Ec; [| discriminate].
    injection H as <- <-. exists [c]. rewrite Ec.
    repeat split; try discriminate.
    intros [-> | []]. vm_compute in Ec. discriminate Ec.
  - intros d v r H. cbn [decimal ascii_text] in H |- *. unfold ascii_decimal in H |- *.
    destruct d as [| c d]; [discriminate |]. cbn [app].
    destruct (isdigit c); [now injection H as <- -> | discriminate].
Qed.

Lemma arabic_decimal_sound : decimal_sound arabic_text.
Proof.
  split.
  - intros s v r H. cbn [decimal arabic_text] in H |- *. unfold arabic_decimal in H |- *.
    destruct s as [| c s]; [discriminate |].
    destruct (isdigit c) eqn:Ec.
    + injection H as <- <-. exists [c]. rewrite Ec.
      repeat split; try discriminate.
      intros [-> | []]. vm_compute in Ec. discriminate Ec.
    + destruct (Nat.eqb_spec (nat_of_ascii c) 217) as [E217 |]; [| discriminate].
      destruct s as [| c' s]; [discriminate |].
      destruct ((160 <=? nat_of_ascii c') && (nat_of_ascii c' <=? 169))%nat eqn:Er;
        [| discriminate].
      injection H as <- <-. exists [c; c']. rewrite Ec.
      destruct (Nat.eqb_spec (nat_of_ascii c) 217); [| contradiction]. rewrite Er.
      repeat split; try discriminate.
      intros [-> | [-> | []]]; [vm_compute in E217; discriminate E217 | vm_compute in Er; discriminate Er].
  - intros d v r H. cbn [decimal arabic_text] in H |- *. unfold arabic_decimal in H |- *.
    destruct d as [| c d]; [discriminate |]. cbn [app].
    destruct (isdigit c); [now injection H as <- -> |].
    destruct (nat_of_ascii c =? 217)%nat; [| discriminate].
    destruct d as [| c' d]; [discriminate |]. cbn [app].
    destruct ((160 <=? nat_of_ascii c') && (nat_of_ascii c' <=? 169))%nat; [| discriminate].
    now injection H as <- ->.
Qed.

(** A name whose size is the Arabic-Indic digit two and whose model holds a
    [_size.._merge..] segment of its own. *)
Lemma filename_pattern_shape_witness :
  let two := String "217"%char (String "162"%char EmptyString) in
  FILENAME_PATTERN arabic_text
    ("model_a_size1_merge2_size" ++ two ++ "_merge01_summary.json")%string =
  Some ("a_size1_merge2", two, "01") /\
  int arabic_text two = 2%Z.
Proof.
  intros two. split; [| vm_compute; reflexivity].
  apply (proj1 (filename_pattern_shape arabic_text arabic_decimal_sound _)).
  split; [left; reflexivity |].
  split; [discriminate |]. split; [vm_compute; intuition discriminate |]. split.
  - apply (digit_one arabic_text _ 2%Z). reflexivity.
  - apply (digit_more arabic_text ["0"%char] 0%Z ["1"%char]); [reflexivity |].
    apply (digit_one arabic_text _ 1%Z). reflexivity.
Defined.

End TextPatternWitness.

Section TextMetricsFacts.
Import PyDict AverageStatistics MergePlots Metrics PlotScripts.
Variable t : text.

(** The two ways [file_metrics] can fail do not depend on the text methods. *)
Lemma text_file_metrics_raises (model : string) (data : dict value) (e : exn) :
  file_metrics t model data = Raise e ->
  (e = OverflowError /\
   exists k z, In (k, VInt z) (items data) /\ skipped k = false /\
               PyFloat.of_int z = Raise OverflowError) \/
  (e = AttributeError /\
   exists base v,
     collect_metrics data = Ok base /\ has_tokens base = true /\
     get data "model name" = Some v /\ truthy v = true /\
     forall s, v <> VStr s).
Proof.
  intros H. unfold file_metrics in H.
  destruct (collect_metrics data) as [base | e0] eqn:Ec; cbn [bind] in H.
  - right. unfold add_cost in H. fold (has_tokens base) in H.
    destruct (has_tokens base) eqn:Et; [| discriminate].
    unfold model_argument in H.
    destruct (get data "model name") as [v |] eqn:Eg; [| discriminate].
    destruct (truthy v) eqn:Etr; [| discriminate].
    destruct v; cbn [bind] in H; try discriminate; injection H as <-;
      (split; [reflexivity |]); eexists; eexists; repeat split; eauto;
      intros s0; discriminate.
  - injection H as <-. left. unfold collect_metrics in Ec.
    exact (collect_metrics_raises _ _ _ Ec).
Qed.

Lemma text_add_cost_get (model : string) (data : dict value) (base metrics : dict float)
  (k : string) :
  add_cost t model data base = Ok metrics -> k <> COST -> get metrics k = get base k.
Proof.
  unfold add_cost. intros H Hk.
  destruct (mem base "avg_input_tokens" || mem base "avg_output_tokens");
    [| now injection H as <-].
  bind_inv H. injection H as <-. unfold setdefault.
  destruct (mem base COST); [reflexivity |]. apply get_set_other. congruence.
Qed.

(** What the cost step leaves under [avg_cost_usd]. *)
Lemma text_add_cost_cost (model : string) (data : dict value) (base metrics : dict float) :
  add_cost t model data base = Ok metrics ->
  match get base COST with
  | Some f => get metrics COST = Some f
  | None =>
      (has_tokens base = false /\ get metrics COST = None) \/
      (has_tokens base = true /\
       exists name_arg,
         model_argument data model = Ok name_arg /\
         get metrics COST =
         Some (compute_cost_usd t name_arg
                 (get_default PrimFloat.zero base "avg_input_tokens")
                 (get_default PrimFloat.zero base "avg_output_tokens")))
  end.
Proof.
  unfold add_cost. fold (has_tokens base). intros H.
  destruct (has_tokens base) eqn:Et.
  - bind_inv H. injection H as <-. unfold setdefault, mem. fold COST.
    destruct (get base COST) as [f |] eqn:Eg; [exact Eg |].
    right. split; [reflexivity |]. exists a. split; [exact Ha |].
    fold COST. apply get_set_same.
  - injection H as <-. destruct (get base COST) as [f |] eqn:Eg; [reflexivity |].
    left. split; reflexivity.
Qed.

Lemma text_file_metrics_base (model : string) (data : dict value) (metrics : dict float) :
  NoDup (keys data) ->
  file_metrics t model data = Ok metrics ->
  exists base,
    add_cost t model data base = Ok metrics /\
    forall k,
      get base k =
      match get data k with
      | Some v =>
          if negb (skipped k) && is_int_or_float v
          then match py_float v with Ok f => Some f | Raise _ => None end
          else None
      | None => None
      end.
Proof.
  intros Hnd H. unfold file_metrics in H. bind_inv H. rename a into base.
  exists base. split; [exact H |]. intros k. unfold collect_metrics in Ha.
  rewrite (collect_metrics_get data empty base k Hnd Ha).
  destruct (get data k) as [v |]; [| reflexivity]. unfold metric_of.
  destruct (skipped k); [reflexivity |]. simpl.
  destruct (is_int_or_float v); [| reflexivity]. now destruct (py_float v).
Qed.

End TextMetricsFacts.

Section LoaderFacts.
Import PyDict AverageStatistics MergePlots Directory Loaders PlotScripts.
Variable t : text.

Lemma zget_zset {V : Type} (d : int_dict V) (k k' : Z) (v : V) :
  zget (zset d k v) k' = if Z.eqb k k' then Some v else zget d k'.
Proof.
  induction d as [| [k0 v0] d IH]; cbn [zset zget].
  - reflexivity.
  - destruct (Z.eqb_spec k0 k) as [-> | Hne]; cbn [zget].
    + now destruct (Z.eqb k k').
    + rewrite IH. destruct (Z.eqb_spec k0 k') as [-> | Hne'].
      * destruct (Z.eqb_spec k k'); [congruence | reflexivity].
      * reflexivity.
Qed.

Lemma zset_nonempty {V : Type} (d : int_dict V) (k : Z) (v : V) : zset d k v <> [].
Proof. destruct d as [| [k0 v0] d]; cbn [zset]; [| destruct (Z.eqb k0 k)]; discriminate. Qed.

Lemma set_nonempty {V : Type} (d : dict V) (k : string) (v : V) : set d k v <> [].
Proof. destruct d as [| [k0 v0] d]; cbn [set]; [| destruct (String.eqb k0 k)]; discriminate. Qed.

Lemma lookup_store_merge1 (results : merge1_results) (model model' : string)
  (size size' : Z) (metrics : dict float) :
  lookup_merge1 (store_merge1 results model size metrics) model' size' =
  if String.eqb model model' && Z.eqb size size' then Some metrics
  else lookup_merge1 results model' size'.
Proof.
  unfold lookup_merge1, store_merge1. rewrite get_set.
  destruct (String.eqb_spec model model') as [<- | Hne]; [| reflexivity].
  rewrite zget_zset. cbn [andb]. destruct (Z.eqb size size'); [reflexivity |].
  unfold get_default, merge1_results, int_dict in *. now destruct (get results model).
Qed.

Lemma lookup_store_compare (data : compare_results) (model model' : string)
  (size size' merge merge' : Z) (metrics : dict float) :
  lookup_compare (store_compare data size model merge metrics) size' model' merge' =
  if Z.eqb size size' && String.eqb model model' && Z.eqb merge merge' then Some metrics
  else lookup_compare data size' model' merge'.
Proof.
  unfold lookup_compare, store_compare. rewrite zget_zset.
  destruct (Z.eqb_spec size size') as [<- | Hne]; [| reflexivity].
  rewrite get_set. cbn [andb].
  destruct (String.eqb_spec model model') as [<- | Hne].
  - rewrite zget_zset. cbn [andb]. destruct (Z.eqb merge merge'); [reflexivity |].
    unfold get_default, compare_results, int_dict in *.
    destruct (zget data size) as [models |]; [| reflexivity].
    now destruct (get models model).
  - cbn [andb]. unfold compare_results, int_dict in *. now destruct (zget data size).
Qed.

(** One turn of the loop of [load_merge1_summaries t], by what the name adds. *)
Lemma merge1_step_entry (fs : filesystem) (data_dir : Path)
  (st st' : merge1_results * list string) (file_name : string) :
  merge1_step t fs data_dir st file_name = Ok st' ->
  fst st' =
  match merge1_entry t fs data_dir file_name with
  | Some (model, size, metrics) => store_merge1 (fst st) model size metrics
  | None => fst st
  end.
Proof.
  unfold merge1_step, merge1_entry.
  destruct (FILENAME_PATTERN t file_name) as [[[model sz] mg] |]; [| now intros [= <-]].
  destruct (Z.eqb (int t mg) 1); cbn [negb]; [| now intros [= <-]].
  destruct (load_metrics t fs (data_dir ++ [file_name]) model) as [[| [| m ms]] | e];
    cbn [bind]; try discriminate; now intros [= <-].
Qed.

Lemma compare_step_entry (fs : filesystem) (data_dir : Path)
  (st st' : compare_results * list string) (file_name : string) :
  compare_step t fs data_dir st file_name = Ok st' ->
  fst st' =
  match compare_entry t fs data_dir file_name with
  | Some (size, model, merge, metrics) => store_compare (fst st) size model merge metrics
  | None => fst st
  end.
Proof.
  unfold compare_step, compare_entry.
  destruct (FILENAME_PATTERN t file_name) as [[[model sz] mg] |]; [| now intros [= <-]].
  destruct (load_metrics t fs (data_dir ++ [file_name]) model) as [[| [| m ms]] | e];
    cbn [bind]; try discriminate; now intros [= <-].
Qed.

(** A loop of stores: what is found under a key afterwards is what the last
    name with an entry for the key added, or what was there before. *)
Section LastWins.
Context {S K X : Type} (same : K -> K -> bool) (look : S -> K -> option X)
  (entry : string -> option (K * X)) (step : S -> string -> result S).
Hypothesis same_spec : forall a b, same a b = true <-> a = b.
Hypothesis step_look :
  forall st st' n k,
    step st n = Ok st' ->
    look st' k =
    match entry n with
    | Some (k0, x) => if same k0 k then Some x else look st k
    | None => look st k
    end.

Lemma last_wins (names : list string) (st st' : S) (k : K) (x : X) :
  for_each step names st = Ok st' ->
  (look st' k = Some x <->
   (exists before n after,
      names = before ++ n :: after /\ entry n = Some (k, x) /\
      forall n' x', In n' after -> entry n' <> Some (k, x')) \/
   (look st k = Some x /\ forall n' x', In n' names -> entry n' <> Some (k, x'))).
Proof.
  revert st. induction names as [| n names IH]; intros st H; cbn [for_each] in H.
  - injection H as <-. split.
    + intros Hl. right. split; [assumption | intros n' x' []].
    + intros [(before & n & after & Hn & _) | [Hl _]]; [| assumption].
      now destruct before.
  - destruct (step st n) as [st1 |] eqn:Es; cbn [bind] in H; [| discriminate].
    rewrite (IH st1 H), (step_look st st1 n k Es). split.
    + intros [(before & n0 & after & -> & He & Hafter) | [Hl Hnone]].
      * left. exists (n :: before), n0, after. auto.
      * destruct (entry n) as [[k0 x0] |] eqn:En.
        -- destruct (same k0 k) eqn:Ek.
           ++ apply same_spec in Ek. subst k0. injection Hl as ->.
              left. exists [], n, names. auto.
           ++ right. split; [assumption |].
              intros n' x' [<- | Hin]; [| now apply Hnone].
              rewrite En. intros [= -> _].
              rewrite (proj2 (same_spec k k) eq_refl) in Ek. discriminate.
        -- right. split; [assumption |].
           intros n' x' [<- | Hin]; [| now apply Hnone]. rewrite En. discriminate.
    + intros [(before & n0 & after & Hn & He & Hafter) | [Hl Hnone]].
      * destruct before as [| b before]; cbn [app] in Hn; injection Hn as <- ->.
        -- right. rewrite He, (proj2 (same_spec k k) eq_refl). auto.
        -- left. exists before, n0, after. auto.
      * right. split; [| intros n' x' Hin; apply Hnone; now right].
        destruct (entry n) as [[k0 x0] |] eqn:En; [| assumption].
        destruct (same k0 k) eqn:Ek; [| assumption].
        apply same_spec in Ek. subst k0. exfalso.
        apply (Hnone n x0); [now left | assumption].
Qed.

End LastWins.

(** A loop that stops at the first name that fails. *)
Section FirstFailure.
Context {S : Type} (fails : string -> option exn) (step : S -> string -> result S).
Hypothesis step_fails :
  forall st n,
    match fails n with
    | Some e => step st n = Raise e
    | None => exists st', step st n = Ok st'
    end.

Lemma first_failure (names : list string) (st : S) :
  match for_each step names st with
  | Ok _ => forall n, In n names -> fails n = None
  | Raise e =>
      exists before n after,
        names = before ++ n :: after /\ fails n = Some e /\
        forall n', In n' before -> fails n' = None
  end.
Proof.
  revert st. induction names as [| n names IH]; intros st; cbn [for_each].
  - intros n [].
  - pose proof (step_fails st n) as Hs. destruct (fails n) as [e |] eqn:Ef.
    + rewrite Hs. cbn [bind]. exists [], n, names. repeat split; auto. intros n' [].
    + destruct Hs as (st1 & ->). cbn [bind]. specialize (IH st1).
      destruct (for_each step names st1) as [st' | e].
      * intros n' [<- | Hin]; auto.
      * destruct IH as (before & n0 & after & -> & Hf & Hb).
        exists (n :: before), n0, after. repeat split; auto.
        intros n' [<- | Hin]; auto.
Qed.

End FirstFailure.

Lemma first_split_unique {A : Type} (before before' after after' : list A) (n n' : A) :
  before ++ n :: after = before' ++ n' :: after' ->
  (before = before' /\ n = n') \/ In n before' \/ In n' before.
Proof.
  revert before'. induction before as [| b before IH]; intros [| b' before'] H;
    cbn [app] in H; injection H as -> H.
  - left. auto.
  - right. left. now left.
  - right. right. now left.
  - destruct (IH _ H) as [[-> ->] | [Hin | Hin]].
    + left. auto.
    + right. left. now right.
    + right. right. now right.
Qed.

Lemma merge1_step_look (fs : filesystem) (data_dir : Path)
  (st st' : merge1_results * list string) (n : string) (k : string * Z) :
  merge1_step t fs data_dir st n = Ok st' ->
  lookup_merge1 (fst st') (fst k) (snd k) =
  match merge1_entry t fs data_dir n with
  | Some (k0, x) =>
      if String.eqb (fst k0) (fst k) && Z.eqb (snd k0) (snd k) then Some x
      else lookup_merge1 (fst st) (fst k) (snd k)
  | None => lookup_merge1 (fst st) (fst k) (snd k)
  end.
Proof.
  intros H. rewrite (merge1_step_entry _ _ _ _ _ H).
  destruct (merge1_entry t fs data_dir n) as [[[model size] x] |]; [| reflexivity].
  apply lookup_store_merge1.
Qed.

Lemma compare_step_look (fs : filesystem) (data_dir : Path)
  (st st' : compare_results * list string) (n : string) (k : Z * string * Z) :
  compare_step t fs data_dir st n = Ok st' ->
  lookup_compare (fst st') (fst (fst k)) (snd (fst k)) (snd k) =
  match compare_entry t fs data_dir n with
  | Some (k0, x) =>
      if Z.eqb (fst (fst k0)) (fst (fst k)) && String.eqb (snd (fst k0)) (snd (fst k))
         && Z.eqb (snd k0) (snd k)
      then Some x
      else lookup_compare (fst st) (fst (fst k)) (snd (fst k)) (snd k)
  | None => lookup_compare (fst st) (fst (fst k)) (snd (fst k)) (snd k)
  end.
Proof.
  intros H. rewrite (compare_step_entry _ _ _ _ _ H).
  destruct (compare_entry t fs data_dir n) as [[[[size model] merge] x] |]; [| reflexivity].
  apply lookup_store_compare.
Qed.

Lemma same_merge1_key (a b : string * Z) :
  String.eqb (fst a) (fst b) && Z.eqb (snd a) (snd b) = true <-> a = b.
Proof.
  destruct a as [m s], b as [m' s']. cbn [fst snd].
  rewrite andb_true_iff, String.eqb_eq, Z.eqb_eq. split; [intros [-> ->] | intros [= -> ->]]; auto.
Qed.

Lemma same_compare_key (a b : Z * string * Z) :
  Z.eqb (fst (fst a)) (fst (fst b)) && String.eqb (snd (fst a)) (snd (fst b))
  && Z.eqb (snd a) (snd b) = true <-> a = b.
Proof.
  destruct a as [[s m] g], b as [[s' m'] g']. cbn [fst snd].
  rewrite !andb_true_iff, String.eqb_eq, !Z.eqb_eq.
  split; [intros [[-> ->] ->] | intros [= -> -> ->]]; auto.
Qed.

(** The names printed, and when nothing was stored. *)
Lemma merge1_loop_printed (fs : filesystem) (data_dir : Path) (names : list string)
  (st st' : merge1_results * list string) :
  for_each (merge1_step t fs data_dir) names st = Ok st' ->
  snd st' = snd st ++ filter (merge1_reported t fs data_dir) names /\
  (fst st' = [] <-> fst st = [] /\ forall n, In n names -> merge1_entry t fs data_dir n = None).
Proof.
  revert st. induction names as [| n names IH]; intros st H; cbn [for_each] in H.
  - injection H as <-. cbn [filter]. rewrite app_nil_r. split; [reflexivity |].
    split; [intros E; split; [assumption | intros n []] | tauto].
  - destruct (merge1_step t fs data_dir st n) as [st1 |] eqn:Es; cbn [bind] in H;
      [| discriminate].
    destruct (IH st1 H) as (Hp & He). rewrite Hp, He.
    pose proof (merge1_step_entry _ _ _ _ _ Es) as Hf.
    assert (Hs : snd st1 = if merge1_reported t fs data_dir n then snd st ++ [n] else snd st).
    { revert Es. unfold merge1_step, merge1_reported.
      destruct (FILENAME_PATTERN t n) as [[[model sz] mg] |]; [| now intros [= <-]].
      destruct (Z.eqb (int t mg) 1); cbn [negb andb]; [| now intros [= <-]].
      destruct (load_metrics t fs (data_dir ++ [n]) model) as [[| [| m ms]] | e];
        cbn [bind]; try discriminate; now intros [= <-]. }
    split.
    + cbn [filter]. rewrite Hs. destruct (merge1_reported t fs data_dir n);
        [now rewrite <- app_assoc | reflexivity].
    + rewrite Hf. destruct (merge1_entry t fs data_dir n) as [[[model size] x] |] eqn:En.
      * split.
        -- intros [E _]. now apply set_nonempty in E.
        -- intros [_ Hn]. specialize (Hn n (or_introl eq_refl)). congruence.
      * split.
        -- intros [E Hn]. split; [assumption |]. intros n' [<- | Hin]; auto.
        -- intros [E Hn]. split; [assumption |]. intros n' Hin. apply Hn. now right.
Qed.

Lemma compare_loop_printed (fs : filesystem) (data_dir : Path) (names : list string)
  (st st' : compare_results * list string) :
  for_each (compare_step t fs data_dir) names st = Ok st' ->
  snd st' = snd st ++ filter (compare_reported t fs data_dir) names /\
  (fst st' = [] <-> fst st = [] /\ forall n, In n names -> compare_entry t fs data_dir n = None).
Proof.
  revert st. induction names as [| n names IH]; intros st H; cbn [for_each] in H.
  - injection H as <-. cbn [filter]. rewrite app_nil_r. split; [reflexivity |].
    split; [intros E; split; [assumption | intros n []] | tauto].
  - destruct (compare_step t fs data_dir st n) as [st1 |] eqn:Es; cbn [bind] in H;
      [| discriminate].
    destruct (IH st1 H) as (Hp & He). rewrite Hp, He.
    pose proof (compare_step_entry _ _ _ _ _ Es) as Hf.
    assert (Hs : snd st1 = if compare_reported t fs data_dir n then snd st ++ [n] else snd st).
    { revert Es. unfold compare_step, compare_reported.
      destruct (FILENAME_PATTERN t n) as [[[model sz] mg] |]; [| now intros [= <-]].
      destruct (load_metrics t fs (data_dir ++ [n]) model) as [[| [| m ms]] | e];
        cbn [bind]; try discriminate; now intros [= <-]. }
    split.
    + cbn [filter]. rewrite Hs. destruct (compare_reported t fs data_dir n);
        [now rewrite <- app_assoc | reflexivity].
    + rewrite Hf.
      destruct (compare_entry t fs data_dir n) as [[[[size model] merge] x] |] eqn:En.
      * split.
        -- intros [E _]. now apply zset_nonempty in E.
        -- intros [_ Hn]. specialize (Hn n (or_introl eq_refl)). congruence.
      * split.
        -- intros [E Hn]. split; [assumption |]. intros n' [<- | Hin]; auto.
        -- intros [E Hn]. split; [assumption |]. intros n' Hin. apply Hn. now right.
Qed.

Lemma merge1_entry_nonempty (fs : filesystem) (data_dir : Path) (n model : string)
  (size : Z) (metrics : dict float) :
  merge1_entry t fs data_dir n = Some (model, size, metrics) ->
  metrics <> [] /\
  exists size_text merge_text,
    FILENAME_PATTERN t n = Some (model, size_text, merge_text) /\
    int t size_text = size /\ int t merge_text = 1%Z /\
    load_metrics t fs (data_dir ++ [n]) model = Ok (Metrics metrics).
Proof.
  unfold merge1_entry.
  destruct (FILENAME_PATTERN t n) as [[[model' sz] mg] |]; [| discriminate].
  destruct (Z.eqb_spec (int t mg) 1) as [Hg | Hg]; [| discriminate].
  destruct (load_metrics t fs (data_dir ++ [n]) model') as [[| [| m ms]] | e] eqn:El;
    try discriminate.
  intros [= <- <- <-]. split; [discriminate |]. exists sz, mg. auto.
Qed.

Lemma compare_entry_nonempty (fs : filesystem) (data_dir : Path) (n model : string)
  (size merge : Z) (metrics : dict float) :
  compare_entry t fs data_dir n = Some (size, model, merge, metrics) ->
  metrics <> [] /\
  exists size_text merge_text,
    FILENAME_PATTERN t n = Some (model, size_text, merge_text) /\
    int t size_text = size /\ int t merge_text = merge /\
    load_metrics t fs (data_dir ++ [n]) model = Ok (Metrics metrics).
Proof.
  unfold compare_entry.
  destruct (FILENAME_PATTERN t n) as [[[model' sz] mg] |]; [| discriminate].
  destruct (load_metrics t fs (data_dir ++ [n]) model') as [[| [| m ms]] | e] eqn:El;
    try discriminate.
  intros [= <- <- <- <-]. split; [discriminate |]. exists sz, mg. auto.
Qed.

(** X19.  What [load_merge1_summaries] returns, whatever the digit class
    and the other text methods: under a model and a size is the metrics of the
    last globbed name, in listing order, that the pattern reads with that
    model, that size (as a number) and merge size 1 and whose file gives
    metrics that are not empty.  Metrics are never empty, the result
    is empty exactly when no name contributes, and the names printed are the
    merge-1 files that are not JSON. *)
Theorem merge1_last_file_wins (w : world) (data_dir : Path)
  (results : merge1_results) (printed : list string) :
  load_merge1_summaries t w data_dir = inr (results, printed) ->
  let names := glob_model (listing w data_dir) in
  let entry := merge1_entry t (files w) data_dir in
  (forall model size metrics,
     lookup_merge1 results model size = Some metrics <->
     exists before n after,
       names = before ++ n :: after /\ entry n = Some (model, size, metrics) /\
       forall n' metrics', In n' after -> entry n' <> Some (model, size, metrics')) /\
  (forall model size metrics,
     lookup_merge1 results model size = Some metrics ->
     metrics <> [] /\
     exists n size_text merge_text,
       In n names /\ FILENAME_PATTERN t n = Some (model, size_text, merge_text) /\
       int t size_text = size /\ int t merge_text = 1%Z) /\
  (results = [] <-> forall n, In n names -> entry n = None) /\
  printed = filter (merge1_reported t (files w) data_dir) names.
Proof.
  intros H names entry. unfold load_merge1_summaries in H.
  destruct (exists_ w data_dir); cbn [negb] in H; [| discriminate].
  destruct (for_each _ _ _) as [st |] eqn:Ef in H; [| discriminate].
  injection H as ->. fold names in Ef.
  assert (Hlook : forall model size metrics,
            lookup_merge1 results model size = Some metrics <->
            exists before n after,
              names = before ++ n :: after /\ entry n = Some (model, size, metrics) /\
              forall n' metrics', In n' after -> entry n' <> Some (model, size, metrics')).
  { intros model size metrics.
    pose proof (last_wins
                  (fun a b : string * Z =>
                     String.eqb (fst a) (fst b) && Z.eqb (snd a) (snd b))
                  (fun (st : merge1_results * list string) k =>
                     lookup_merge1 (fst st) (fst k) (snd k))
                  entry (merge1_step t (files w) data_dir) same_merge1_key
                  (fun st st' n k => merge1_step_look (files w) data_dir st st' n k)
                  names (empty, []) (results, printed) (model, size) metrics Ef) as Hw.
    cbn [fst snd] in Hw. rewrite Hw. split; [| now left].
    intros [H | [H _]]; [assumption | discriminate]. }
  destruct (merge1_loop_printed _ _ _ _ _ Ef) as (Hp & He). cbn [fst snd] in Hp, He.
  split; [exact Hlook | split; [| split]].
  - intros model size metrics Hl. apply Hlook in Hl.
    destruct Hl as (before & n & after & Hn & Hen & _).
    destruct (merge1_entry_nonempty _ _ _ _ _ _ Hen) as (Hne & sz & mg & Hpat & Hs & Hg & _).
    split; [assumption |]. exists n, sz, mg. repeat split; auto.
    fold names. rewrite Hn. apply in_elt.
  - rewrite He. tauto.
  - exact Hp.
Qed.

(** X20.  What [load_summaries] returns, whatever the digit class and the
    other text methods: under a size, a model and a merge size is the metrics
    of the last globbed name, in listing order, that the pattern reads with
    those three and whose file gives metrics that are not empty; the result is empty exactly when no name contributes, and the names
    printed are the matching files that are not JSON. *)
Theorem compare_last_file_wins (w : world) (data_dir : Path)
  (data : compare_results) (printed : list string) :
  load_summaries t w data_dir = inr (data, printed) ->
  let names := glob_model (listing w data_dir) in
  let entry := compare_entry t (files w) data_dir in
  (forall size model merge metrics,
     lookup_compare data size model merge = Some metrics <->
     exists before n after,
       names = before ++ n :: after /\ entry n = Some (size, model, merge, metrics) /\
       forall n' metrics', In n' after -> entry n' <> Some (size, model, merge, metrics')) /\
  (forall size model merge metrics,
     lookup_compare data size model merge = Some metrics ->
     metrics <> [] /\
     exists n size_text merge_text,
       In n names /\ FILENAME_PATTERN t n = Some (model, size_text, merge_text) /\
       int t size_text = size /\ int t merge_text = merge) /\
  (data = [] <-> forall n, In n names -> entry n = None) /\
  printed = filter (compare_reported t (files w) data_dir) names.
Proof.
  intros H names entry. unfold load_summaries in H.
  destruct (exists_ w data_dir); cbn [negb] in H; [| discriminate].
  destruct (for_each _ _ _) as [st |] eqn:Ef in H; [| discriminate].
  injection H as ->. fold names in Ef.
  assert (Hlook : forall size model merge metrics,
            lookup_compare data size model merge = Some metrics <->
            exists before n after,
              names = before ++ n :: after /\
              entry n = Some (size, model, merge, metrics) /\
              forall n' metrics',
                In n' after -> entry n' <> Some (size, model, merge, metrics')).
  { intros size model merge metrics.
    pose proof (last_wins
                  (fun a b : Z * string * Z =>
                     Z.eqb (fst (fst a)) (fst (fst b))
                     && String.eqb (snd (fst a)) (snd (fst b))
                     && Z.eqb (snd a) (snd b))
                  (fun (st : compare_results * list string) k =>
                     lookup_compare (fst st) (fst (fst k)) (snd (fst k)) (snd k))
                  entry (compare_step t (files w) data_dir) same_compare_key
                  (fun st st' n k => compare_step_look (files w) data_dir st st' n k)
                  names ([], []) (data, printed) (size, model, merge) metrics Ef) as Hw.
    cbn [fst snd] in Hw. rewrite Hw. split; [| now left].
    intros [H | [H _]]; [assumption | discriminate]. }
  destruct (compare_loop_printed _ _ _ _ _ Ef) as (Hp & He). cbn [fst snd] in Hp, He.
  split; [exact Hlook | split; [| split]].
  - intros size model merge metrics Hl. apply Hlook in Hl.
    destruct Hl as (before & n & after & Hn & Hen & _).
    destruct (compare_entry_nonempty _ _ _ _ _ _ _ Hen)
      as (Hne & sz & mg & Hpat & Hs & Hg & _).
    split; [assumption |]. exists n, sz, mg. repeat split; auto.
    fold names. rewrite Hn. apply in_elt.
  - rewrite He. tauto.
  - exact Hp.
Qed.

Lemma first_failure_unique (fails : string -> option exn) (names before before' after after'
  : list string) (n n' : string) (e e' : exn) :
  names = before ++ n :: after -> fails n = Some e ->
  (forall m, In m before -> fails m = None) ->
  names = before' ++ n' :: after' -> fails n' = Some e' ->
  (forall m, In m before' -> fails m = None) ->
  e = e'.
Proof.
  intros -> Hn Hb H Hn' Hb'.
  destruct (first_split_unique _ _ _ _ _ _ H) as [[_ ->] | [Hin | Hin]].
  - congruence.
  - apply Hb' in Hin. congruence.
  - apply Hb in Hin. congruence.
Qed.

Lemma merge1_step_fails (fs : filesystem) (data_dir : Path)
  (st : merge1_results * list string) (n : string) :
  match merge1_failure t fs data_dir n with
  | Some e => merge1_step t fs data_dir st n = Raise e
  | None => exists st', merge1_step t fs data_dir st n = Ok st'
  end.
Proof.
  unfold merge1_failure, merge1_step.
  destruct (FILENAME_PATTERN t n) as [[[model sz] mg] |]; [| eauto].
  destruct (Z.eqb (int t mg) 1); cbn [negb]; [| eauto].
  destruct (load_metrics t fs (data_dir ++ [n]) model) as [[| [| m ms]] | e]; cbn [bind]; eauto.
Qed.

Lemma compare_step_fails (fs : filesystem) (data_dir : Path)
  (st : compare_results * list string) (n : string) :
  match compare_failure t fs data_dir n with
  | Some e => compare_step t fs data_dir st n = Raise e
  | None => exists st', compare_step t fs data_dir st n = Ok st'
  end.
Proof.
  unfold compare_failure, compare_step.
  destruct (FILENAME_PATTERN t n) as [[[model sz] mg] |]; [| eauto].
  destruct (load_metrics t fs (data_dir ++ [n]) model) as [[| [| m ms]] | e]; cbn [bind]; eauto.
Qed.

(** A loop that stops at the first failure, both ways. *)
Lemma loop_outcome {S : Type} (fails : string -> option exn) (step : S -> string -> result S)
  (Hstep : forall st n,
      match fails n with
      | Some e => step st n = Raise e
      | None => exists st', step st n = Ok st'
      end)
  (names : list string) (st : S) :
  ((exists st', for_each step names st = Ok st') <->
   forall n, In n names -> fails n = None) /\
  (forall e,
     for_each step names st = Raise e <->
     exists before n after,
       names = before ++ n :: after /\ fails n = Some e /\
       forall n', In n' before -> fails n' = None).
Proof.
  pose proof (first_failure fails step Hstep names st) as H.
  destruct (for_each step names st) as [st' | e0] eqn:Ef.
  - split.
    + split; [intros _; exact H | eauto].
    + intros e. split; [discriminate |].
      intros (before & n & after & -> & Hn & _).
      rewrite H in Hn by apply in_elt. discriminate.
  - destruct H as (before & n & after & Hn & Hf & Hb). split.
    + split; [intros [st' Hs]; discriminate |].
      intros Hnone. rewrite Hnone in Hf by (rewrite Hn; apply in_elt). discriminate.
    + intros e. split.
      * intros [= <-]. eauto 7.
      * intros (before' & n' & after' & Hn' & Hf' & Hb'). f_equal.
        exact (first_failure_unique fails names _ _ _ _ _ _ _ _ Hn Hf Hb Hn' Hf' Hb').
Qed.

(** X21.  How the two loaders end, whatever the text methods.  Each
    raises [FileNotFoundError] itself when the directory does not exist, and
    nothing else itself.  Otherwise each returns exactly when no globbed name
    it reads fails to load, and lets through the exception of the first such
    name in listing order: the one reading that file raised, which can be a
    [FileNotFoundError] too, or the [AttributeError] or [OverflowError] of its
    metrics; a file that is not JSON never stops either loader.
    [load_merge1_summaries] reads only names of merge size 1, so it returns
    whenever [load_summaries] does. *)
Theorem loaders_outcome (w : world) (data_dir : Path) :
  let names := glob_model (listing w data_dir) in
  (forall e,
     load_merge1_summaries t w data_dir = inl (Own e) <->
     exists_ w data_dir = false /\ e = FileNotFoundError) /\
  (forall e,
     load_summaries t w data_dir = inl (Own e) <->
     exists_ w data_dir = false /\ e = FileNotFoundError) /\
  ((exists out, load_merge1_summaries t w data_dir = inr out) <->
   exists_ w data_dir = true /\
   forall n, In n names -> merge1_failure t (files w) data_dir n = None) /\
  ((exists out, load_summaries t w data_dir = inr out) <->
   exists_ w data_dir = true /\
   forall n, In n names -> compare_failure t (files w) data_dir n = None) /\
  (forall e,
     load_merge1_summaries t w data_dir = inl (Propagated e) <->
     exists_ w data_dir = true /\
     exists before n after,
       names = before ++ n :: after /\ merge1_failure t (files w) data_dir n = Some e /\
       forall n', In n' before -> merge1_failure t (files w) data_dir n' = None) /\
  (forall e,
     load_summaries t w data_dir = inl (Propagated e) <->
     exists_ w data_dir = true /\
     exists before n after,
       names = before ++ n :: after /\ compare_failure t (files w) data_dir n = Some e /\
       forall n', In n' before -> compare_failure t (files w) data_dir n' = None) /\
  (forall n e,
     compare_failure t (files w) data_dir n = Some e ->
     e <> JSONDecodeError /\
     (files w (data_dir ++ [n]) = Raise e \/
      (exists members, files w (data_dir ++ [n]) = Ok (JObject members)) /\
      (e = AttributeError \/ e = OverflowError) \/
      files w (data_dir ++ [n]) = Ok JOther /\ e = AttributeError)) /\
  (forall n e, merge1_failure t (files w) data_dir n = Some e ->
               compare_failure t (files w) data_dir n = Some e) /\
  ((exists out, load_summaries t w data_dir = inr out) ->
   exists out, load_merge1_summaries t w data_dir = inr out).
Proof.
  intros names.
  destruct (loop_outcome (merge1_failure t (files w) data_dir)
              (merge1_step t (files w) data_dir) (merge1_step_fails (files w) data_dir)
              names (empty, [])) as (Hok1 & Hraise1).
  destruct (loop_outcome (compare_failure t (files w) data_dir)
              (compare_step t (files w) data_dir) (compare_step_fails (files w) data_dir)
              names ([], [])) as (Hok2 & Hraise2).
  assert (Hsrc : forall n e,
            compare_failure t (files w) data_dir n = Some e ->
            e <> JSONDecodeError /\
            (files w (data_dir ++ [n]) = Raise e \/
             (exists members, files w (data_dir ++ [n]) = Ok (JObject members)) /\
             (e = AttributeError \/ e = OverflowError) \/
             files w (data_dir ++ [n]) = Ok JOther /\ e = AttributeError)).
  { intros n e. unfold compare_failure.
    destruct (FILENAME_PATTERN t n) as [[[model sz] mg] |]; [| discriminate].
    destruct (load_metrics t (files w) (data_dir ++ [n]) model) as [ld | e0] eqn:El;
      [discriminate |].
    intros [= <-]. unfold load_metrics in El.
    destruct (files w (data_dir ++ [n])) as [[members |] | e1] eqn:Ef.
    - destruct (file_metrics t model (of_pairs members)) as [m | e2] eqn:Em;
        cbn [bind] in El; [discriminate |].
      injection El as ->.
      destruct (text_file_metrics_raises t model (of_pairs members) _ Em)
        as [[-> _] | [-> _]].
      + split; [discriminate |]. right. left. split; eauto.
      + split; [discriminate |]. right. left. split; eauto.
    - injection El as <-. split; [discriminate |]. right. right. auto.
    - destruct e1; try discriminate; injection El as <-;
        (split; [discriminate | now left]). }
  assert (Hweaker : forall n e,
            merge1_failure t (files w) data_dir n = Some e ->
            compare_failure t (files w) data_dir n = Some e).
  { intros n e. unfold merge1_failure, compare_failure.
    destruct (FILENAME_PATTERN t n) as [[[model sz] mg] |]; [| discriminate].
    destruct (Z.eqb (int t mg) 1); [auto | discriminate]. }
  assert (Hwrap : forall (S : Type) (r : result S),
            let L := match r with
                     | Ok st => inr st
                     | Raise e => @inl failure S (Propagated e)
                     end in
            (forall e, L <> inl (Own e)) /\
            ((exists out, L = inr out) <-> exists st, r = Ok st) /\
            (forall e, L = inl (Propagated e) <-> r = Raise e)).
  { intros S r. destruct r as [st | e0]; cbn zeta; repeat split;
      try congruence; try (intros [x Hx]; discriminate); eauto. }
  unfold load_merge1_summaries, load_summaries. fold names.
  destruct (Hwrap _ (for_each (merge1_step t (files w) data_dir) names (empty, [])))
    as (Hn1 & Hr1 & Hp1).
  destruct (Hwrap _ (for_each (compare_step t (files w) data_dir) names ([], [])))
    as (Hn2 & Hr2 & Hp2).
  cbn zeta in Hn1, Hr1, Hp1, Hn2, Hr2, Hp2.
  destruct (exists_ w data_dir); cbn [negb].
  - split; [intros e; split; [intros H; now apply Hn1 in H | intros [H _]; discriminate] |].
    split; [intros e; split; [intros H; now apply Hn2 in H | intros [H _]; discriminate] |].
    split; [rewrite Hr1, Hok1; tauto |].
    split; [rewrite Hr2, Hok2; tauto |].
    split; [intros e; rewrite Hp1, Hraise1; tauto |].
    split; [intros e; rewrite Hp2, Hraise2; tauto |].
    split; [exact Hsrc |]. split; [exact Hweaker |].
    rewrite Hr1, Hr2, Hok1, Hok2. intros Hnone n Hin.
    destruct (merge1_failure t (files w) data_dir n) as [e |] eqn:Ef; [| reflexivity].
    apply Hweaker in Ef. rewrite (Hnone n Hin) in Ef. discriminate.
  - split; [intros e; split; [now intros [= <-] | now intros [_ ->]] |].
    split; [intros e; split; [now intros [= <-] | now intros [_ ->]] |].
    split; [split; [intros [out H]; discriminate | intros [H _]; discriminate] |].
    split; [split; [intros [out H]; discriminate | intros [H _]; discriminate] |].
    split; [intros e; split; [discriminate | intros [H _]; discriminate] |].
    split; [intros e; split; [discriminate | intros [H _]; discriminate] |].
    split; [exact Hsrc |]. split; [exact Hweaker |].
    intros [out H]. discriminate.
Qed.

End LoaderFacts.

Section LoaderWitnesses.
Import PyDict AverageStatistics MergePlots Directory Loaders PlotScripts.

Lemma merge1_last_file_wins_witness :
  match load_merge1_summaries ascii_text Examples.reports ["summary"] with
  | inr (results, printed) =>
      lookup_merge1 results "gpt-5" 1 =
        Some [("avg_input_tokens", 20%float); ("avg_cost_usd", 0%float)] /\
      printed = ["model_o3_size2_merge01_summary.json"]
  | inl _ => False
  end.
Proof.
  destruct (load_merge1_summaries ascii_text Examples.reports ["summary"])
    as [f | [results printed]] eqn:E.
  - vm_compute in E. discriminate.
  - destruct (merge1_last_file_wins ascii_text Examples.reports ["summary"] results printed E)
      as (Hlook & _ & _ & Hprinted).
    split; [| rewrite Hprinted; vm_compute; reflexivity].
    apply Hlook.
    exists ["model_gpt-5_size01_merge1_summary.json"; "model_o3_size2_merge01_summary.json"],
      "model_gpt-5_size1_merge1_summary.json",
      ["model_gpt-5_size1_merge2_summary.json";
       "model_gpt-5_size1_merge1_id3_summary.json"].
    split; [vm_compute; reflexivity | split; [vm_compute; reflexivity |]].
    intros n' metrics' [<- | [<- | []]]; vm_compute; discriminate.
Defined.

Lemma compare_last_file_wins_witness :
  match load_summaries arabic_text Examples.comparisons ["data"] with
  | inr (data, printed) =>
      lookup_compare data 1 "a" 2 = Some [("latency_ms", 3%float)] /\ printed = []
  | inl _ => False
  end.
Proof.
  destruct (load_summaries arabic_text Examples.comparisons ["data"])
    as [f | [data printed]] eqn:E.
  - vm_compute in E. discriminate.
  - destruct (compare_last_file_wins arabic_text Examples.comparisons ["data"] data printed E)
      as (Hlook & _ & _ & Hprinted).
    split; [| rewrite Hprinted; vm_compute; reflexivity].
    apply Hlook.
    exists ["model_a_size1_merge2_summary.json"; "model_a_size1_merge1_summary.json"],
      "model_a_size01_merge02_summary.json", [].
    split; [vm_compute; reflexivity | split; [vm_compute; reflexivity |]].
    intros n' metrics' [].
Defined.

(** A directory that exists and holds a dangling entry: reading it raises
    [FileNotFoundError], which the loader lets through. *)
Lemma loaders_outcome_witness :
  load_summaries ascii_text Examples.dangling ["summary"]
    = inl (Propagated FileNotFoundError) /\
  exists out, load_merge1_summaries ascii_text Examples.dangling ["summary"] = inr out.
Proof.
  destruct (loaders_outcome ascii_text Examples.dangling ["summary"])
    as (_ & _ & Hreturns & _ & _ & Hraises & _).
  split.
  - apply Hraises. split; [reflexivity |].
    exists ["model_gpt-5_size1_merge1_summary.json"],
      "model_gpt-5_size1_merge2_summary.json", [].
    split; [vm_compute; reflexivity | split; [vm_compute; reflexivity |]].
    intros n' [<- | []]; vm_compute; reflexivity.
  - apply Hreturns. split; [reflexivity |].
    intros n Hin. vm_compute in Hin.
    destruct Hin as [<- | [<- | []]]; vm_compute; reflexivity.
Defined.

End LoaderWitnesses.

(** ** From the run files to the metrics that are plotted *)

Section PipelineFacts.
Import PyDict AverageStatistics MergePlots Cohort Fields Metrics PlotScripts.

(** The aggregate record of a cohort that loads: its keys are distinct, and
    it holds the run count and, under every other key, what the records
    determine. *)
Lemma aggregate_record (fs : filesystem) (files : list Path) :
  files <> [] ->
  forallb (loadable fs) files = true ->
  exists res ws,
    average_group_diags fs files = Ok (res, ws) /\
    NoDup (keys res) /\
    get res RUNS = Some (VInt (Z.of_nat (List.length files))) /\
    (forall k, k <> RUNS -> get res k = expected k (records fs files)).
Proof.
  intros Hne Hload.
  destruct (average_group_diags_spec fs files Hne Hload)
    as (res & ws & Hrun & Hruns & Hexp & _).
  exists res, ws. repeat split; auto.
  destruct (file_loop_spec fs files Hload)
    as (st & Hloop & Hc & Ht & Hw & Hko & Hview & Hem).
  assert (Hres : res = set (fold_left (store st) (key_order st) empty) RUNS
                         (VInt (Z.of_nat (List.length files)))).
  { unfold average_group_diags in Hrun. destruct files as [| p files]; [congruence |].
    rewrite Hloop in Hrun. cbn [bind] in Hrun.
    rewrite finish_spec in Hrun; [congruence | assumption |].
    intros k Hk. apply Ht. now left. }
  rewrite Hres. apply NoDup_keys_set.
  rewrite keys_store_fold; rewrite Hko; simpl.
  - apply field_order_fold_NoDup. constructor.
  - intros k Hk. rewrite Hem. apply expected_carried, field_order_In, Hk.
  - apply field_order_fold_NoDup. constructor.
Qed.

(** A value a file of a loadable cohort holds converts to a float whenever it
    is an [int], a [float] or a [bool]. *)
Lemma loadable_value_converts (fs : filesystem) (files : list Path) (p : Path)
  (k : string) (v : value) :
  forallb (loadable fs) files = true -> In p files ->
  get (content fs p) k = Some v -> is_int_or_float v = true ->
  exists f, py_float v = Ok f.
Proof.
  intros Hload Hp Hget Hnum. rewrite forallb_forall in Hload. specialize (Hload p Hp).
  unfold loadable in Hload. unfold content in Hget.
  destruct (read_json fs p) as [data |]; [| discriminate].
  rewrite forallb_forall in Hload. apply get_In in Hget.
  specialize (Hload (k, v) Hget). cbn [snd] in Hload.
  unfold classified, is_number in Hload.
  destruct v as [| b | z | f | s]; try discriminate; simpl; eauto.
  destruct (py_float (VInt z)) as [f |] eqn:E; [eauto | discriminate].
Qed.

Lemma first_seen_held (fs : filesystem) (files : list Path) (k : string) (v : value) :
  first_seen k (records fs files) = Some v ->
  exists p, In p files /\ get (content fs p) k = Some v.
Proof.
  unfold first_seen.
  destruct (non_numeric_occurrences k (records fs files)) as [| [nm v0] rest] eqn:E;
    [discriminate |].
  intros [= ->].
  assert (Hin : In (nm, v) (non_numeric_occurrences k (records fs files)))
    by (rewrite E; now left).
  unfold non_numeric_occurrences in Hin. apply filter_In in Hin. destruct Hin as [Hin _].
  apply occurrences_In in Hin. destruct Hin as (r & Hr & _ & Hget).
  apply records_In in Hr. destruct Hr as (p & Hp & _ & Hs). rewrite Hs in Hget. eauto.
Qed.

Lemma expected_converts (fs : filesystem) (files : list Path) (k : string) (v : value) :
  forallb (loadable fs) files = true ->
  expected k (records fs files) = Some v -> is_int_or_float v = true ->
  exists f, py_float v = Ok f.
Proof.
  intros Hload He Hnum. unfold expected in He.
  destruct (numeric_values k (records fs files)) as [| x xs].
  - destruct (first_seen_held fs files k v He) as (p & Hp & Hget).
    eapply loadable_value_converts; eauto.
  - injection He as <-. simpl. eauto.
Qed.

(** X22.  The summary of a cohort that loads can always be turned into
    metrics, whatever [strip] and [lower] do, unless its ["model name"] is a
    true value that is not a string ([AttributeError]); no [OverflowError] is
    possible.  In the metrics the run count is absent; every field with a
    numeric occurrence, [avg_cost_usd] included, is the average of its numeric
    occurrences; a field with none whose first-seen value is a [bool], a
    [float] or an [int] is the float of that value; any other field but
    [avg_cost_usd] is not a metric; and [avg_cost_usd] is then a metric
    exactly when one of the two token averages is, with the cost computed
    from the model name and the two token averages. *)
Theorem summary_metrics (t : text) (fs : filesystem) (files : list Path) (model : string) :
  files <> [] ->
  forallb (loadable fs) files = true ->
  exists res ws,
    average_group_diags fs files = Ok (res, ws) /\
    (forall e,
       file_metrics t model res = Raise e ->
       e = AttributeError /\
       exists v, get res "model name" = Some v /\ truthy v = true /\
                 forall s, v <> VStr s) /\
    (forall metrics,
       file_metrics t model res = Ok metrics ->
       get metrics RUNS = None /\
       (forall k v vs,
          k <> RUNS ->
          numeric_values k (records fs files) = v :: vs ->
          get metrics k = Some (average (v :: vs))) /\
       (forall k,
          k <> RUNS ->
          numeric_values k (records fs files) = [] ->
          match first_seen k (records fs files) with
          | Some (VBool b) => get metrics k = Some (bool_float b)
          | Some (VFloat f) => get metrics k = Some f
          | Some (VInt z) => get metrics k = Some (PyFloat.round_int z)
          | _ =>
              (k <> COST -> get metrics k = None) /\
              (k = COST ->
               (has_tokens metrics = false /\ get metrics COST = None) \/
               (has_tokens metrics = true /\
                exists name_arg,
                  model_argument res model = Ok name_arg /\
                  get metrics COST =
                  Some (compute_cost_usd t name_arg
                          (get_default PrimFloat.zero metrics "avg_input_tokens")
                          (get_default PrimFloat.zero metrics "avg_output_tokens"))))
          end)).
Proof.
  intros Hne Hload.
  destruct (aggregate_record fs files Hne Hload) as (res & ws & Hrun & Hnd & Hruns & Hexp).
  exists res, ws. split; [exact Hrun | split].
  - intros e He.
    destruct (text_file_metrics_raises t model res e He)
      as [(-> & k & z & Hin & Hs & Hz) | (-> & base & v & _ & _ & Hv & Ht & Hstr)].
    + exfalso. apply (get_In_items res k (VInt z) Hnd) in Hin.
      assert (Hk : k <> RUNS) by (intros ->; discriminate).
      rewrite (Hexp k Hk) in Hin.
      destruct (expected_converts fs files k (VInt z) Hload Hin eq_refl) as (f & Hf).
      simpl in Hf. congruence.
    + split; [reflexivity |]. eauto.
  - intros metrics Hm.
    destruct (text_file_metrics_base t model res metrics Hnd Hm) as (base & Hadd & Hbase).
    pose proof (text_add_cost_cost t model res base metrics Hadd) as Hcost.
    assert (Hother : forall k, k <> COST -> get metrics k = get base k)
      by (intros k Hk; apply (text_add_cost_get t model res base metrics k Hadd Hk)).
    assert (Htok : has_tokens metrics = has_tokens base).
    { unfold has_tokens, mem. now rewrite !Hother by discriminate. }
    assert (Hin : get_default PrimFloat.zero metrics "avg_input_tokens" =
                  get_default PrimFloat.zero base "avg_input_tokens").
    { unfold get_default. now rewrite Hother by discriminate. }
    assert (Hout : get_default PrimFloat.zero metrics "avg_output_tokens" =
                   get_default PrimFloat.zero base "avg_output_tokens").
    { unfold get_default. now rewrite Hother by discriminate. }
    assert (Hskip : forall k, k <> RUNS -> skipped k = false).
    { intros k Hk. unfold skipped, SKIP_KEYS. cbn [existsb]. rewrite orb_false_r.
      apply String.eqb_neq. exact Hk. }
    assert (Hheld : forall k f, get base k = Some f -> get metrics k = Some f).
    { intros k f Hk. destruct (string_dec k COST) as [-> | Hc].
      - now rewrite Hk in Hcost.
      - now rewrite (Hother k Hc). }
    split; [| split].
    + rewrite Hother by discriminate. rewrite Hbase, Hruns. reflexivity.
    + intros k v vs Hk Hv. apply Hheld. rewrite Hbase, (Hexp k Hk).
      unfold expected. rewrite Hv, (Hskip k Hk). reflexivity.
    + intros k Hk Hv.
      assert (Hres : get res k = first_seen k (records fs files)).
      { rewrite (Hexp k Hk). unfold expected. now rewrite Hv. }
      assert (Hb := Hbase k). rewrite Hres, (Hskip k Hk) in Hb.
      assert (Hnone : get base k = None ->
                (k <> COST -> get metrics k = None) /\
                (k = COST ->
                 (has_tokens metrics = false /\ get metrics COST = None) \/
                 (has_tokens metrics = true /\
                  exists name_arg,
                    model_argument res model = Ok name_arg /\
                    get metrics COST =
                    Some (compute_cost_usd t name_arg
                            (get_default PrimFloat.zero metrics "avg_input_tokens")
                            (get_default PrimFloat.zero metrics "avg_output_tokens"))))).
      { intros Hbk. split.
        - intros Hc. now rewrite (Hother k Hc).
        - intros ->. rewrite Hbk in Hcost. rewrite Htok, Hin, Hout. exact Hcost. }
      destruct (first_seen k (records fs files)) as [v |] eqn:Ef; [| now apply Hnone].
      destruct v as [| b | z | f | s]; cbn [negb andb is_int_or_float] in Hb.
      * now apply Hnone.
      * now apply Hheld.
      * apply Hheld. rewrite Hb.
        destruct (expected_converts fs files k (VInt z) Hload) as (f & Hf); auto.
        { unfold expected. now rewrite Hv. }
        rewrite Hf. f_equal.
        simpl in Hf. unfold PyFloat.of_int in Hf.
        destruct (PrimFloat.is_infinity _); [discriminate | now injection Hf].
      * now apply Hheld.
      * now apply Hnone.
Qed.

(** A cohort whose [avg_cost_usd] is a string in every run: the summary
    keeps the string, and its metrics hold a computed cost. *)
Lemma summary_metrics_witness :
  exists res ws metrics,
    average_group_diags Examples.quoted [Examples.m1; Examples.m2] = Ok (res, ws) /\
    get res COST = Some (VStr "n/a") /\
    file_metrics ascii_text "x" res = Ok metrics /\
    get metrics "avg_input_tokens" = Some (average [100%float; 300%float]) /\
    get metrics COST =
    Some (compute_cost_usd ascii_text "gpt-5" (average [100%float; 300%float])
            PrimFloat.zero).
Proof.
  destruct (summary_metrics ascii_text Examples.quoted [Examples.m1; Examples.m2] "x")
    as (res & ws & Hrun & _ & Hok); [discriminate | reflexivity |].
  destruct (file_metrics ascii_text "x" res) as [metrics | e] eqn:E in |- *.
  - exists res, ws, metrics. split; [exact Hrun |].
    destruct (Hok metrics E) as (_ & Havg & Hfirst).
    assert (Hin : get metrics "avg_input_tokens" = Some (average [100%float; 300%float])).
    { apply (Havg "avg_input_tokens" 100%float [300%float]);
        [discriminate | vm_compute; reflexivity]. }
    split; [| split; [exact E | split; [exact Hin |]]].
    + vm_compute in Hrun. injection Hrun as <- _. reflexivity.
    + pose proof (Hfirst COST ltac:(discriminate) eq_refl) as Hc.
      assert (Hs : first_seen COST (records Examples.quoted [Examples.m1; Examples.m2]) =
                   Some (VStr "n/a")) by (vm_compute; reflexivity).
      rewrite Hs in Hc. destruct Hc as (_ & Hc).
      destruct (Hc eq_refl) as [(Hno & _) | (_ & name_arg & Hname & Hcost)].
      * unfold has_tokens, mem in Hno. rewrite Hin in Hno. discriminate Hno.
      * vm_compute in Hrun. injection Hrun as <- _.
        injection Hname as <-. rewrite Hcost. unfold get_default. rewrite Hin.
        vm_compute in E. injection E as <-. reflexivity.
  - exfalso. vm_compute in Hrun. injection Hrun as <- <-. vm_compute in E. discriminate.
Defined.

End PipelineFacts.

(** ** The figures *)

Section SortedByFacts.
Import Plots.
Context {A : Type} (lt : A -> A -> bool).

Lemma insert_by_Permutation (x : A) (l : list A) : Permutation (insert_by lt x l) (x :: l).
Proof.
  induction l as [| y l IH]; cbn [insert_by]; [reflexivity |].
  destruct (lt y x); [| reflexivity].
  rewrite IH. apply perm_swap.
Qed.

Lemma sorted_by_Permutation (l : list A) : Permutation (sorted_by lt l) l.
Proof.
  induction l as [| x l IH]; cbn [sorted_by fold_right]; [reflexivity |].
  fold (sorted_by lt l). rewrite insert_by_Permutation. now constructor.
Qed.

Lemma sorted_by_In (l : list A) (x : A) : In x (sorted_by lt l) <-> In x l.
Proof.
  split; apply Permutation_in; [| symmetry]; apply sorted_by_Permutation.
Qed.


Hypothesis lt_asym : forall a b, lt a b = true -> lt b a = false.
Hypothesis le_lt_trans : forall a b c, lt b a = false -> lt b c = true -> lt a c = true.

Lemma insert_by_ordered (x : A) (l : list A) :
  StronglySorted (fun p q => lt q p = false) l ->
  StronglySorted (fun p q => lt q p = false) (insert_by lt x l).
Proof.
  induction 1 as [| q l Hs IH Hq]; cbn [insert_by].
  - repeat constructor.
  - destruct (lt q x) eqn:E.
    + constructor; [assumption |].
      rewrite Forall_forall in *. intros z Hz.
      apply (Permutation_in _ (insert_by_Permutation x l)) in Hz.
      destruct Hz as [<- | Hz]; [now apply lt_asym | auto].
    + constructor; [now constructor |].
      constructor; [assumption |].
      rewrite Forall_forall in *. intros z Hz.
      destruct (lt z x) eqn:Ez; [| reflexivity].
      rewrite (le_lt_trans q z x (Hq z Hz) Ez) in E. discriminate.
Qed.

Lemma sorted_by_ordered (l : list A) :
  StronglySorted (fun p q => lt q p = false) (sorted_by lt l).
Proof.
  induction l as [| x l IH]; cbn [sorted_by fold_right]; [constructor |].
  now apply insert_by_ordered.
Qed.

End SortedByFacts.

Section FigureFacts.
Import PyDict AverageStatistics Loaders Plots.

Lemma string_lt_asym (a b : string) : string_lt a b = true -> string_lt b a = false.
Proof.
  unfold string_lt. rewrite (String.compare_antisym a b).
  now destruct (String.compare b a).
Qed.

Lemma string_le_lt_trans (a b c : string) :
  string_lt b a = false -> string_lt b c = true -> string_lt a c = true.
Proof.
  unfold string_lt. intros Hba Hbc.
  destruct (String.compare b c) eqn:Ebc; try discriminate.
  destruct (String.compare b a) eqn:Eba; try discriminate.
  - apply string_compare_eq in Eba. subst. now rewrite Ebc.
  - assert (Eab : String.compare a b = Lt)
      by (rewrite String.compare_antisym, Eba; reflexivity).
    now rewrite (string_compare_lt_trans _ _ _ Eab Ebc).
Qed.

Lemma string_lt_total (a b : string) : string_lt b a = false -> a <> b -> string_lt a b = true.
Proof.
  unfold string_lt. intros Hba Hne. rewrite String.compare_antisym.
  destruct (String.compare b a) eqn:E; try discriminate; [| reflexivity].
  apply string_compare_eq in E. congruence.
Qed.

Lemma key_lt_Z_asym {V : Type} (a b : Z * V) :
  key_lt Z.ltb a b = true -> key_lt Z.ltb b a = false.
Proof. unfold key_lt. rewrite Z.ltb_lt, Z.ltb_ge. lia. Qed.

Lemma key_lt_Z_trans {V : Type} (a b c : Z * V) :
  key_lt Z.ltb b a = false -> key_lt Z.ltb b c = true -> key_lt Z.ltb a c = true.
Proof. unfold key_lt. rewrite !Z.ltb_lt, Z.ltb_ge. lia. Qed.

(** [sorted] of a set of strings: strictly ascending, with the same members. *)
Lemma sorted_set_spec (names : list string) :
  StronglySorted (fun a b => string_lt a b = true) (sorted_set names) /\
  (forall k, In k (sorted_set names) <-> In k names).
Proof.
  unfold sorted_set. split.
  - pose proof (sorted_by_ordered string_lt string_lt_asym string_le_lt_trans
                  (nodup string_dec names)) as Hs.
    assert (Hnd : NoDup (sorted_by string_lt (nodup string_dec names))).
    { eapply Permutation_NoDup; [symmetry; apply sorted_by_Permutation |].
      apply NoDup_nodup. }
    induction Hs as [| x l Hs IH Hx]; [constructor |].
    inversion Hnd as [| ? ? Hnotin Hnd']; subst.
    constructor; [now apply IH |].
    rewrite Forall_forall in *. intros y Hy.
    apply string_lt_total; [now apply Hx | intros ->; contradiction].
  - intros k. rewrite sorted_by_In. apply nodup_In.
Qed.

Lemma pairs_length (metric : string) (m : int_dict (dict float)) :
  List.length (pairs metric m) <= List.length m.
Proof.
  unfold pairs. induction m as [| [k metrics] m IH]; cbn [flat_map List.length app];
    [lia |].
  rewrite length_app. cbn [snd]. destruct (get metrics metric); cbn [List.length]; lia.
Qed.



(** X23.  [collect_metric_names] of either script returns the metric names
    in strictly ascending order, each once, and a name is returned exactly
    when some loaded file has it as a metric. *)
Theorem metric_names_ascending :
  (forall data : merge1_results,
     StronglySorted (fun a b => string_lt a b = true) (Merge1.collect_metric_names data) /\
     forall k,
       In k (Merge1.collect_metric_names data) <->
       exists model size_map size metrics,
         In (model, size_map) data /\ In (size, metrics) size_map /\
         mem metrics k = true) /\
  (forall data : compare_results,
     StronglySorted (fun a b => string_lt a b = true) (Compare.collect_metric_names data) /\
     forall k,
       In k (Compare.collect_metric_names data) <->
       exists size models model merge_map merge metrics,
         In (size, models) data /\ In (model, merge_map) models /\
         In (merge, metrics) merge_map /\ mem metrics k = true).
Proof.
  split; intros data.
  - unfold Merge1.collect_metric_names.
    destruct (sorted_set_spec (Merge1.metric_keys data)) as (Hs & Hin).
    split; [exact Hs |]. intros k. rewrite Hin. unfold Merge1.metric_keys.
    rewrite in_flat_map. split.
    + intros ([model size_map] & Hd & Hk). cbn [snd] in Hk.
      apply in_flat_map in Hk. destruct Hk as ([size metrics] & Hm & Hk). cbn [snd] in Hk.
      exists model, size_map, size, metrics. repeat split; auto. now apply mem_keys.
    + intros (model & size_map & size & metrics & Hd & Hm & Hk).
      exists (model, size_map). split; [assumption |]. cbn [snd].
      apply in_flat_map. exists (size, metrics). split; [assumption |]. now apply mem_keys.
  - unfold Compare.collect_metric_names.
    destruct (sorted_set_spec (Compare.metric_keys data)) as (Hs & Hin).
    split; [exact Hs |]. intros k. rewrite Hin. unfold Compare.metric_keys.
    rewrite in_flat_map. split.
    + intros ([size models] & Hd & Hk). cbn [snd] in Hk.
      apply in_flat_map in Hk. destruct Hk as ([model merge_map] & Hmo & Hk).
      cbn [snd] in Hk.
      apply in_flat_map in Hk. destruct Hk as ([merge metrics] & Hm & Hk). cbn [snd] in Hk.
      exists size, models, model, merge_map, merge, metrics. repeat split; auto.
      now apply mem_keys.
    + intros (size & models & model & merge_map & merge & metrics & Hd & Hmo & Hm & Hk).
      exists (size, models). split; [assumption |]. cbn [snd].
      apply in_flat_map. exists (model, merge_map). split; [assumption |]. cbn [snd].
      apply in_flat_map. exists (merge, metrics). split; [assumption |]. now apply mem_keys.
Qed.

Lemma sorted_points (l : list (Z * float)) :
  StronglySorted (fun p q => (fst p <= fst q)%Z) (sorted_by (key_lt Z.ltb) l).
Proof.
  pose proof (sorted_by_ordered (key_lt Z.ltb) key_lt_Z_asym key_lt_Z_trans l) as Hs.
  induction Hs as [| x xs Hs IH Hx]; constructor; [assumption |].
  rewrite Forall_forall in *. intros y Hy. specialize (Hx y Hy).
  unfold key_lt in Hx. now apply Z.ltb_ge in Hx.
Qed.






Lemma compare_line_spec (metric : string) (models : dict (int_dict (dict float)))
  (ln : line) :
  In ln (Compare.lines_of metric models) ->
  2 <= List.length (points ln) /\
  StronglySorted (fun p q => (fst p <= fst q)%Z) (points ln) /\
  exists model merge_map,
    In (model, merge_map) models /\
    label ln = replace_slash model /\
    Permutation (points ln) (pairs metric merge_map).
Proof.
  unfold Compare.lines_of. rewrite in_flat_map.
  intros ([model merge_map] & Hin & Hl). apply sorted_by_In in Hin.
  unfold Compare.model_line in Hl. cbn [fst snd] in Hl.
  destruct (Nat.ltb_spec (List.length (pairs metric merge_map)) 2) as [Hlt | Hge];
    [contradiction |].
  destruct Hl as [<- | []]. cbn [points label]. split; [| split].
  - rewrite (Permutation_length (sorted_by_Permutation _ _)). exact Hge.
  - apply sorted_points.
  - exists model, merge_map. repeat split; auto. apply sorted_by_Permutation.
Qed.

(** With fewer than two merge sizes for every model, no line is drawn. *)
Lemma no_comparison_no_lines (models : dict (int_dict (dict float))) (metric : string) :
  Compare.no_comparison models = true -> Compare.lines_of metric models = [].
Proof.
  intros Hno. destruct (Compare.lines_of metric models) as [| ln rest] eqn:E;
    [reflexivity | exfalso].
  assert (Hin : In ln (Compare.lines_of metric models)) by (rewrite E; now left).
  destruct (compare_line_spec _ _ _ Hin) as (Hlen & _ & model & merge_map & Hm & _ & Hp).
  unfold Compare.no_comparison in Hno. rewrite forallb_forall in Hno.
  specialize (Hno _ Hm). cbn [snd] in Hno. apply Nat.ltb_lt in Hno.
  rewrite (Permutation_length Hp) in Hlen.
  pose proof (pairs_length metric merge_map). lia.
Qed.

Lemma saved_app (a b : list Compare.event) :
  Compare.saved (a ++ b) = Compare.saved a ++ Compare.saved b.
Proof. apply flat_map_app. Qed.

Lemma saved_plot_for_size (size : Z) (models : dict (int_dict (dict float)))
  (names : list string) :
  Compare.saved (Compare.plot_for_size size models names) =
  flat_map
    (fun metric =>
       match Compare.lines_of metric models with
       | [] => []
       | l :: ls => [(size, metric, l :: ls)]
       end)
    names.
Proof.
  unfold Compare.plot_for_size.
  change (Compare.saved (Compare.MadeOutputDir :: ?l)) with (Compare.saved l).
  induction names as [| m names IH]; cbn [flat_map]; [reflexivity |].
  rewrite saved_app, IH. unfold Compare.metric_chart at 1.
  now destruct (Compare.lines_of m models).
Qed.

(** X25.  The figures [main] of the comparison script saves.  Skipping the
    sizes at which no model has two merge sizes changes nothing to them: at
    such a size [plot_for_size] would save no figure.  A figure is saved for
    a size and a metric exactly when a line can be drawn; every line is one
    model's points for that metric at that size, at least two of them, all of
    them, in ascending order of merge size. *)
Theorem compare_figures (data : compare_results) :
  let names := Compare.collect_metric_names data in
  Compare.saved (Compare.plot_all data) =
    flat_map
      (fun size_data : Z * dict (int_dict (dict float)) =>
         Compare.saved (Compare.plot_for_size (fst size_data) (snd size_data) names))
      (sorted_by (key_lt Z.ltb) data) /\
  (forall size models metric_names,
     Compare.no_comparison models = true ->
     Compare.saved (Compare.plot_for_size size models metric_names) = []) /\
  (forall size metric lines,
     In (size, metric, lines) (Compare.saved (Compare.plot_all data)) <->
     In metric names /\ lines <> [] /\
     exists models, In (size, models) data /\ lines = Compare.lines_of metric models) /\
  (forall size metric lines ln,
     In (size, metric, lines) (Compare.saved (Compare.plot_all data)) ->
     In ln lines ->
     2 <= List.length (points ln) /\
     StronglySorted (fun p q => (fst p <= fst q)%Z) (points ln) /\
     exists models model merge_map,
       In (size, models) data /\ In (model, merge_map) models /\
       label ln = replace_slash model /\
       Permutation (points ln) (pairs metric merge_map)).
Proof.
  intros names.
  assert (Hguard : forall size models metric_names,
            Compare.no_comparison models = true ->
            Compare.saved (Compare.plot_for_size size models metric_names) = []).
  { intros size models metric_names Hno. rewrite saved_plot_for_size.
    induction metric_names as [| m ms IH]; cbn [flat_map]; [reflexivity |].
    now rewrite (no_comparison_no_lines models m Hno). }
  assert (Hall : Compare.saved (Compare.plot_all data) =
                 flat_map
                   (fun size_data : Z * dict (int_dict (dict float)) =>
                      Compare.saved
                        (Compare.plot_for_size (fst size_data) (snd size_data) names))
                   (sorted_by (key_lt Z.ltb) data)).
  { unfold Compare.plot_all. destruct data as [| d data]; [reflexivity |].
    fold names. induction (sorted_by (key_lt Z.ltb) (d :: data)) as [| sd l IH];
      cbn [flat_map]; [reflexivity |].
    rewrite saved_app, IH. destruct (Compare.no_comparison (snd sd)) eqn:Eno.
    - now rewrite (Hguard _ _ _ Eno).
    - reflexivity. }
  assert (Hin : forall size metric lines,
            In (size, metric, lines) (Compare.saved (Compare.plot_all data)) <->
            In metric names /\ lines <> [] /\
            exists models, In (size, models) data /\ lines = Compare.lines_of metric models).
  { intros size metric lines. rewrite Hall, in_flat_map. split.
    - intros ([size' models] & Hd & Hs). apply sorted_by_In in Hd.
      cbn [fst snd] in Hs. rewrite saved_plot_for_size in Hs.
      apply in_flat_map in Hs. destruct Hs as (m & Hm & Hs).
      destruct (Compare.lines_of m models) as [| l ls] eqn:El; [contradiction |].
      destruct Hs as [[= -> -> <-] | []].
      split; [assumption | split; [discriminate |]].
      exists models. split; [assumption | now rewrite El].
    - intros (Hm & Hne & models & Hd & ->). exists (size, models).
      split; [now apply sorted_by_In |]. cbn [fst snd]. rewrite saved_plot_for_size.
      apply in_flat_map. exists metric. split; [assumption |].
      destruct (Compare.lines_of metric models); [congruence | now left]. }
  split; [exact Hall | split; [exact Hguard | split; [exact Hin |]]].
  intros size metric lines ln Hs Hl. apply Hin in Hs.
  destruct Hs as (_ & _ & models & Hd & ->).
  destruct (compare_line_spec _ _ _ Hl) as (Hlen & Hsorted & model & merge_map & Hm & Hp).
  split; [assumption | split; [assumption |]].
  exists models, model, merge_map. tauto.
Qed.

End FigureFacts.

(** ** Aggregating a directory in place, and in any listing order *)

Section InPlaceFacts.
Import PyDict AverageStatistics Cohort Directory.

Lemma compare_proper_prefix (a b : string) :
  b <> EmptyString -> String.compare a (a ++ b)%string = Lt.
Proof.
  intros Hb. induction a as [| c a IH]; cbn [String.append String.compare].
  - destruct b; [congruence | reflexivity].
  - now rewrite ascii_compare_refl.
Qed.

(** A summary name that the pattern groups is grouped under a proper prefix
    of the key it was written for. *)
Lemma summary_name_regrouped (prefix key : string) :
  SUMMARY_PATTERN (summary_name prefix) = Some key ->
  exists token, prefix = (key ++ "_id" ++ token)%string /\ String.compare key prefix = Lt.
Proof.
  intros H. unfold summary_name in H.
  destruct (shape_of_pattern key (prefix ++ "_summary.json")%string) as (token & Hshape).
  - apply endswith_spec. exists (prefix ++ "_summary")%string.
    apply chars_inj. rewrite !chars_app, <- !app_assoc. reflexivity.
  - exact H.
  - destruct Hshape as (Heq & _). exists token.
    assert (Hp : prefix = (key ++ "_id" ++ token)%string).
    { apply chars_inj. apply (f_equal chars) in Heq. rewrite !chars_app in Heq.
      rewrite !chars_app.
      apply (app_inv_tail (chars "_summary.json")). rewrite Heq, <- !app_assoc. reflexivity. }
    split; [exact Hp |]. rewrite Hp. apply compare_proper_prefix. discriminate.
Qed.

Lemma sorted_after {A : Type} (R : A -> A -> Prop) (before after : list A) (g : A) :
  StronglySorted R (before ++ g :: after) -> Forall (R g) after.
Proof.
  induction before as [| b before IH]; cbn [app]; intros H.
  - now inversion H.
  - inversion H; subst. now apply IH.
Qed.

(** X26.  A summary is never read back in the run that writes it, even when
    [summary_dir] is [data_dir]: if the pattern groups the name
    [<prefix>_summary.json] at all, it is under a proper prefix of [prefix],
    a key that sorts before it; so the file written for a group is not among
    the files of that group or of any group aggregated after it. *)
Theorem summaries_not_read_back (data_dir : Path) (names : list string)
  (before after : list (string * list Path)) (g : string * list Path) :
  sorted_items (collect_groups data_dir names) = before ++ g :: after ->
  (forall key, SUMMARY_PATTERN (summary_name (fst g)) = Some key ->
               String.compare key (fst g) = Lt) /\
  (forall h, In h (g :: after) -> ~ In (data_dir ++ [summary_name (fst g)]) (snd h)).
Proof.
  intros Hsorted. split.
  - intros key Hk. destruct (summary_name_regrouped _ _ Hk) as (token & _ & Hlt). exact Hlt.
  - intros [key files] Hh Hin. cbn [snd] in Hin.
    pose proof (sorted_items_ascending _ (collect_groups_NoDup data_dir names)) as Hasc.
    rewrite Hsorted in Hasc.
    assert (Hmem : In (key, files) (collect_groups data_dir names)).
    { eapply Permutation_in; [apply sorted_items_Permutation |].
      rewrite Hsorted. apply in_or_app. right. exact Hh. }
    apply (get_In_items _ _ _ (collect_groups_NoDup data_dir names)) in Hmem.
    rewrite collect_groups_get in Hmem.
    destruct (filter (grouped_under key) names) as [| n ns] eqn:Ef; [discriminate |].
    injection Hmem as <-.
    change (In (data_dir ++ [summary_name (fst g)])
               (map (fun n0 => data_dir ++ [n0]) (n :: ns))) in Hin.
    apply in_map_iff in Hin. destruct Hin as (n' & Hpath & Hn').
    apply app_inv_head in Hpath. injection Hpath as ->.
    rewrite <- Ef in Hn'. apply filter_In in Hn'. destruct Hn' as [_ Hg].
    unfold grouped_under in Hg. apply andb_true_iff in Hg. destruct Hg as [_ Hg].
    destruct (SUMMARY_PATTERN (summary_name (fst g))) as [key' |] eqn:Ep; [| discriminate].
    apply String.eqb_eq in Hg. subst key'.
    destruct (summary_name_regrouped _ _ Ep) as (token & _ & Hlt).
    destruct Hh as [-> | Hafter].
    + cbn [fst] in Hlt. rewrite string_compare_refl in Hlt. discriminate.
    + pose proof (sorted_after _ _ _ _ Hasc) as Hall. rewrite Forall_forall in Hall.
      specialize (Hall _ Hafter). unfold key_below in Hall. cbn [fst] in Hall.
      pose proof (string_compare_lt_trans _ _ _ Hall Hlt) as Hc.
      rewrite string_compare_refl in Hc. discriminate.
Qed.

Lemma summaries_not_read_back_witness :
  String.compare "a" "a_id1" = Lt /\
  ~ In ["data"; "a_id1_summary.json"] [["data"; "a_id1_id2_summary.json"]].
Proof.
  destruct (summaries_not_read_back ["data"]
              ["a_id1_id2_summary.json"; "a_id1_summary.json"]
              [("a", [["data"; "a_id1_summary.json"]])] []
              ("a_id1", [["data"; "a_id1_id2_summary.json"]])) as (Hk & Hn).
  - vm_compute. reflexivity.
  - split.
    + apply (Hk "a"). vm_compute. reflexivity.
    + apply (Hn ("a_id1", [["data"; "a_id1_id2_summary.json"]])). now left.
Defined.

(** Two lists in strictly ascending key order that hold the same keys agree
    key by key. *)
Lemma ascending_same_keys {V : Type} (P : V -> V -> Prop)
  (l l' : list (string * V)) :
  StronglySorted (fun a b => String.compare (fst a) (fst b) = Lt) l ->
  StronglySorted (fun a b => String.compare (fst a) (fst b) = Lt) l' ->
  (forall k, In k (map fst l) <-> In k (map fst l')) ->
  (forall k v v', In (k, v) l -> In (k, v') l' -> P v v') ->
  Forall2 (fun a b => fst a = fst b /\ P (snd a) (snd b)) l l'.
Proof.
  intros Hs. revert l'. induction Hs as [| [k v] l Hs IH Hk]; intros l' Hs' Hkeys HP.
  - destruct l' as [| [k' v'] l']; [constructor | exfalso].
    apply (proj2 (Hkeys k')). now left.
  - destruct l' as [| [k' v'] l'].
    { exfalso. apply (proj1 (Hkeys k)). now left. }
    inversion Hs' as [| ? ? Hs1' Hk']; subst.
    rewrite Forall_forall in Hk, Hk'.
    assert (Heq : k = k').
    { destruct (proj1 (Hkeys k) (or_introl eq_refl)) as [E | Hin]; [now symmetry |].
      destruct (proj2 (Hkeys k') (or_introl eq_refl)) as [E | Hin']; [assumption |].
      apply in_map_iff in Hin. destruct Hin as ([k1 v1] & E1 & Hin). cbn [fst] in E1. subst k1.
      apply in_map_iff in Hin'. destruct Hin' as ([k2 v2] & E2 & Hin'). cbn [fst] in E2.
      subst k2.
      pose proof (Hk' _ Hin) as H1. pose proof (Hk _ Hin') as H2. cbn [fst] in H1, H2.
      pose proof (string_compare_lt_trans _ _ _ H1 H2) as Hc.
      rewrite string_compare_refl in Hc. discriminate. }
    subst k'. constructor.
    + cbn [fst snd]. split; [reflexivity |]. apply (HP k); now left.
    + apply IH; [assumption | |].
      * intros k0. split; intros Hin.
        -- destruct (proj1 (Hkeys k0) (or_intror Hin)) as [E | Hin']; [| assumption].
           cbn [fst] in E. subst k0.
           apply in_map_iff in Hin. destruct Hin as ([k1 v1] & E1 & Hin). cbn [fst] in E1.
           subst k1. pose proof (Hk _ Hin) as Hc. cbn [fst] in Hc.
           rewrite string_compare_refl in Hc. discriminate.
        -- destruct (proj2 (Hkeys k0) (or_intror Hin)) as [E | Hin']; [| assumption].
           cbn [fst] in E. subst k0.
           apply in_map_iff in Hin. destruct Hin as ([k1 v1] & E1 & Hin). cbn [fst] in E1.
           subst k1. pose proof (Hk' _ Hin) as Hc. cbn [fst] in Hc.
           rewrite string_compare_refl in Hc. discriminate.
      * intros k0 v0 v0' H0 H0'. apply (HP k0); now right.
Qed.

Lemma sorted_items_In (data_dir : Path) (names : list string) (key : string)
  (file_list : list Path) :
  In (key, file_list) (sorted_items (collect_groups data_dir names)) <->
  file_list <> [] /\
  file_list = map (fun n => data_dir ++ [n]) (filter (grouped_under key) names).
Proof.
  assert (Hperm : In (key, file_list) (sorted_items (collect_groups data_dir names)) <->
                  In (key, file_list) (collect_groups data_dir names)).
  { split; apply Permutation_in; [| symmetry]; apply sorted_items_Permutation. }
  rewrite Hperm.
  rewrite <- (get_In_items _ _ _ (collect_groups_NoDup data_dir names)).
  rewrite collect_groups_get.
  destruct (filter (grouped_under key) names) as [| n ns]; cbn [map].
  - split; [discriminate | intros [Hne E]; rewrite E in Hne; now contradiction Hne].
  - split; [intros [= <-]; split; [discriminate | reflexivity] | intros [_ ->]; reflexivity].
Qed.

Lemma write_groups_permuted (w : world) (listing' : Path -> list string)
  (summary_dir : Path) (groups groups' : list (string * list Path)) :
  Forall2 (fun a b => fst a = fst b /\ Permutation (snd a) (snd b)) groups groups' ->
  write_groups (relisted w listing') summary_dir groups' = write_groups w summary_dir groups.
Proof.
  induction 1 as [| [k fl] [k' fl'] groups groups' [Hk Hp] Hrest IH]; [reflexivity |].
  cbn [fst snd] in Hk, Hp. subst k'. cbn [write_groups]. rewrite IH.
  change (files (relisted w listing')) with (files w).
  change (open_for_writing (relisted w listing')) with (open_for_writing w).
  rewrite (average_group_permuted (files w) fl fl' Hp).
  now rewrite (Permutation_length Hp).
Qed.

(** X27.  What [aggregate_directory] does is independent of the order in
    which the operating system lists the directory: the same summaries are
    written, in the same order, with the same lines printed, and it ends the
    same way. *)
Theorem listing_order_irrelevant (w : world) (listing' : Path -> list string)
  (data_dir summary_dir : Path) :
  Permutation (listing w data_dir) (listing' data_dir) ->
  aggregate_directory (relisted w listing') data_dir summary_dir =
  aggregate_directory w data_dir summary_dir.
Proof.
  intros Hperm. unfold aggregate_directory.
  change (exists_ (relisted w listing')) with (exists_ w).
  change (is_dir (relisted w listing')) with (is_dir w).
  change (makedirs (relisted w listing')) with (makedirs w).
  change (listing (relisted w listing')) with listing'.
  destruct (exists_ w data_dir); cbn [negb]; [| reflexivity].
  destruct (is_dir w data_dir); cbn [negb]; [| reflexivity].
  destruct (makedirs w summary_dir); [reflexivity |].
  assert (Hfilter : forall key,
            Permutation (filter (grouped_under key) (listing w data_dir))
                        (filter (grouped_under key) (listing' data_dir))).
  { intros key. induction Hperm; cbn [filter].
    - reflexivity.
    - destruct (grouped_under key x); [now constructor | assumption].
    - destruct (grouped_under key x), (grouped_under key y);
        try reflexivity. apply perm_swap.
    - etransitivity; eassumption. }
  assert (Hsame : Forall2 (fun a b => fst a = fst b /\ Permutation (snd a) (snd b))
                    (sorted_items (collect_groups data_dir (listing w data_dir)))
                    (sorted_items (collect_groups data_dir (listing' data_dir)))).
  { apply ascending_same_keys.
    - apply sorted_items_ascending, collect_groups_NoDup.
    - apply sorted_items_ascending, collect_groups_NoDup.
    - assert (Hkeys : forall names names' key,
                (forall k, Permutation (filter (grouped_under k) names)
                                       (filter (grouped_under k) names')) ->
                In key (map fst (sorted_items (collect_groups data_dir names))) ->
                In key (map fst (sorted_items (collect_groups data_dir names')))).
      { intros names names' key Hf Hin. apply in_map_iff in Hin.
        destruct Hin as ([k fl] & E & Hin). cbn [fst] in E. subst k.
        apply sorted_items_In in Hin. destruct Hin as (Hne & ->).
        apply in_map_iff.
        exists (key, map (fun n => data_dir ++ [n]) (filter (grouped_under key) names')).
        split; [reflexivity |]. apply sorted_items_In. split; [| reflexivity].
        intros E. apply map_eq_nil in E. specialize (Hf key). rewrite E in Hf.
        apply Permutation_sym, Permutation_nil in Hf. rewrite Hf in Hne. now apply Hne. }
      intros k. split; apply Hkeys; [| intros k0; symmetry]; auto.
    - intros k v v' Hv Hv'. apply sorted_items_In in Hv, Hv'.
      destruct Hv as (_ & ->). destruct Hv' as (_ & ->).
      apply Permutation_map, Hfilter. }
  rewrite (write_groups_permuted w listing' summary_dir _ _ Hsame).
  destruct (collect_groups data_dir (listing w data_dir)) as [| g groups] eqn:Eg;
    destruct (collect_groups data_dir (listing' data_dir)) as [| g' groups'] eqn:Eg';
    try reflexivity; exfalso.
  - assert (Hl : List.length (sorted_items (g' :: groups')) = 0)
      by (rewrite <- (Forall2_length Hsame); reflexivity).
    rewrite (Permutation_length (sorted_items_Permutation _)) in Hl. discriminate.
  - assert (Hl : List.length (sorted_items (g :: groups)) = 0)
      by (rewrite (Forall2_length Hsame); reflexivity).
    rewrite (Permutation_length (sorted_items_Permutation _)) in Hl. discriminate.
Qed.

Lemma listing_order_irrelevant_witness :
  aggregate_directory
    (relisted Examples.bench (fun _ => rev (listing Examples.bench ["data"])))
    ["data"] ["summary"] =
  aggregate_directory Examples.bench ["data"] ["summary"].
Proof.
  apply listing_order_irrelevant. apply Permutation_rev.
Defined.

End InPlaceFacts.

(** ** A cohort without warnings *)

Section QuietFacts.
Import PyDict AverageStatistics Cohort.

(** X28.  A cohort that loads is aggregated without any warning exactly
    when no field has a non-numeric occurrence that differs from its
    first-seen value and every field that is numeric in some file is numeric
    in every file. *)
Theorem no_warning_iff (fs : filesystem) (files : list Path) :
  files <> [] ->
  forallb (loadable fs) files = true ->
  exists res ws,
    average_group_diags fs files = Ok (res, ws) /\
    (ws = [] <->
     forall k,
       conflicts k (records fs files) = [] /\
       (numeric_values k (records fs files) = [] \/
        List.length (numeric_values k (records fs files)) = List.length files)).
Proof.
  intros Hne Hload.
  destruct (average_group_diags_spec fs files Hne Hload)
    as (res & ws & Hrun & _ & _ & Hinc & Hcov & Hmiss).
  exists res, ws. split; [exact Hrun |]. split.
  - intros -> k. specialize (Hinc k). specialize (Hcov k).
    cbn [inconsistencies coverages filter] in Hinc, Hcov.
    split; [now symmetry |].
    destruct (numeric_values k (records fs files)) as [| v vs]; [now left | right].
    cbv zeta in Hcov.
    destruct (Nat.eqb (List.length (v :: vs)) (List.length files)) eqn:E;
      [now apply Nat.eqb_eq | discriminate].
  - intros Hall. destruct ws as [| d ws]; [reflexivity | exfalso].
    inversion Hmiss as [| ? ? Hd _]; subst.
    destruct d as [k nm | k nm | k c t].
    + destruct (Hall k) as (Hc & _). rewrite <- Hinc in Hc.
      cbn [inconsistencies filter] in Hc. rewrite String.eqb_refl in Hc. discriminate.
    + contradiction.
    + destruct (Hall k) as (_ & Hn). specialize (Hcov k).
      cbn [coverages filter] in Hcov. rewrite String.eqb_refl in Hcov.
      destruct Hn as [Hn | Hn].
      * rewrite Hn in Hcov. discriminate.
      * destruct (numeric_values k (records fs files)) as [| v vs]; [discriminate |].
        cbv zeta in Hcov. rewrite Hn, Nat.eqb_refl in Hcov. discriminate.
Qed.

(** Two cohorts of several files: the three runs of [disk], where [status]
    changes from run to run, are not quiet; the two runs of [quoted], which
    hold the same fields with the same non-numeric values, are. *)
Lemma no_warning_iff_witness :
  (exists res ws,
     average_group_diags Examples.disk [Examples.m1; Examples.m2; Examples.m3]
       = Ok (res, ws) /\ ws <> []) /\
  (exists res,
     average_group_diags Examples.quoted [Examples.m1; Examples.m2] = Ok (res, [])).
Proof.
  split.
  - destruct (no_warning_iff Examples.disk [Examples.m1; Examples.m2; Examples.m3])
      as (res & ws & Hrun & Hiff); [discriminate | reflexivity |].
    exists res, ws. split; [exact Hrun |]. intros Hws.
    destruct (proj1 Hiff Hws "status") as (Hc & _). vm_compute in Hc. discriminate Hc.
  - destruct (no_warning_iff Examples.quoted [Examples.m1; Examples.m2])
      as (res & ws & Hrun & Hiff); [discriminate | reflexivity |].
    exists res. rewrite Hrun. f_equal. f_equal. apply (proj2 Hiff). intros k.
    assert (Hrecs :
              records Examples.quoted [Examples.m1; Examples.m2] =
              [("model_x_size1_merge2_id211_summary.json",
                [("avg_input_tokens", VInt 100); ("avg_cost_usd", VStr "n/a");
                 ("model name", VStr "gpt-5")]);
               ("model_x_size1_merge2_id218_summary.json",
                [("avg_input_tokens", VInt 300); ("avg_cost_usd", VStr "n/a");
                 ("model name", VStr "gpt-5")])])
      by (vm_compute; reflexivity).
    rewrite Hrecs.
    destruct (in_dec string_dec k ["avg_input_tokens"; "avg_cost_usd"; "model name"])
      as [Hin | Hout].
    + destruct Hin as [<- | [<- | [<- | []]]]; vm_compute.
      * split; [reflexivity | right; reflexivity].
      * split; [reflexivity | left; reflexivity].
      * split; [reflexivity | left; reflexivity].
    + unfold conflicts, non_numeric_occurrences, numeric_values, occurrences.
      cbn [flat_map fst snd app].
      rewrite (proj2 (get_none_keys
                        [("avg_input_tokens", VInt 100); ("avg_cost_usd", VStr "n/a");
                         ("model name", VStr "gpt-5")] k) Hout).
      rewrite (proj2 (get_none_keys
                        [("avg_input_tokens", VInt 300); ("avg_cost_usd", VStr "n/a");
                         ("model name", VStr "gpt-5")] k) Hout).
      split; [reflexivity | left; reflexivity].
Defined.

End QuietFacts.
